(** * PipeWeave orchestrator core: a shallow embedding and its properties

    The orchestrator keeps all of its state in a relational database and
    a small in-memory heartbeat map.  The embedding below models each
    table as a finite map (tables read by primary key) or as a list of
    rows in insertion order (tables that are scanned, filtered and
    updated in bulk), every SQL statement as the pure function on those
    tables that the statement denotes, and every [async] method as a
    function from a store (and the current time [now], standing for
    SQL's [NOW()] and JavaScript's [Date.now()]) to a result and a new
    store.  A thrown [Error] is the [Throw] constructor of [result]. *)

From Stdlib Require Import ZArith String Ascii List Bool Lia DecimalString.
From Stdlib Require Import Sorted Permutation.
From stdpp Require Import base option list gmap strings fin_maps.
Import ListNotations.

Local Open Scope string_scope.
Local Open Scope list_scope.
Local Open Scope Z_scope.

(** ** Common types *)

(** JSON payloads whose shape the orchestrator never inspects
    ([input], [metadata], [assets]) are kept as their serialised text. *)
Definition Json := string.

(** Milliseconds since the epoch. *)
Definition Time := Z.

(** JavaScript numbers are IEEE-754 doubles.  Integer columns and
    integer arguments are kept as [Z].  Where the arithmetic of the
    code can leave the integers (a power of two that is a fraction or
    overflows, a product that overflows, [0 * Infinity]) its result is
    a [JsNumber]: an integer, the fraction [n / 2 ^ k] with [0 < k], an
    infinity, or NaN. *)
Inductive JsNumber : Type :=
| JsInt (z : Z)
| JsFraction (n k : Z)
| JsInfinity
| JsNegInfinity
| JsNaN.

Coercion JsInt : Z >-> JsNumber.

(** The double of a product [x * 2 ^ n] of an integer double [x] and a
    power of two with [0 <= n], given its exact value [z]: [z] itself
    below [2 ^ 1024] in magnitude (the significand of [x] is kept and
    only the exponent moves), an infinity from there on. *)
Definition js_scaled (z : Z) : JsNumber :=
  if 2 ^ 1024 <=? z then JsInfinity
  else if z <=? - 2 ^ 1024 then JsNegInfinity
  else JsInt z.

(** [Math.pow(2, n)] for an integer [n]: every power from [2 ^ -1074]
    to [2 ^ 1023] is a double; above them is [Infinity], below them
    the power rounds to 0. *)
Definition js_pow2 (n : Z) : JsNumber :=
  if 1024 <=? n then JsInfinity
  else if 0 <=? n then JsInt (2 ^ n)
  else if -1074 <=? n then JsFraction 1 (- n)
  else JsInt 0.

(** [x * y] for an integer [x] and a [y] that [js_pow2] returns.  The
    product with a power of two is exact as long as it is finite;
    [0 * Infinity] is NaN. *)
Definition js_times (x : Z) (y : JsNumber) : JsNumber :=
  match y with
  | JsInt p => js_scaled (x * p)
  | JsFraction n k =>
      if (x * n) mod 2 ^ k =? 0 then JsInt (x * n / 2 ^ k) else JsFraction (x * n) k
  | JsInfinity =>
      if x =? 0 then JsNaN else if 0 <? x then JsInfinity else JsNegInfinity
  | JsNegInfinity =>
      if x =? 0 then JsNaN else if 0 <? x then JsNegInfinity else JsInfinity
  | JsNaN => JsNaN
  end.

(** [Math.min(x, c)] for an integer [c]: NaN when [x] is NaN. *)
Definition js_min (x : JsNumber) (c : Z) : JsNumber :=
  match x with
  | JsInt z => JsInt (Z.min z c)
  | JsFraction n k => if n <? c * 2 ^ k then JsFraction n k else JsInt c
  | JsInfinity => JsInt c
  | JsNegInfinity => JsNegInfinity
  | JsNaN => JsNaN
  end.

(** The last instant a JavaScript [Date] holds: 8.64e15 ms after the
    epoch. *)
Definition MAX_DATE : Z := 8640000000000000.

Inductive result (A : Type) : Type :=
| Ok (a : A)
| Throw (msg : string).
Arguments Ok {A} a.
Arguments Throw {A} msg.

(** Sequencing of fallible steps, written [x ← step; rest]. *)
#[global] Instance result_bind : MBind result := fun A B k r =>
  match r with
  | Ok a => k a
  | Throw m => Throw m
  end.

(** JavaScript truthiness of an optional string: [undefined], [null] and
    the empty string are falsy. *)
Definition truthy (o : option string) : bool :=
  match o with
  | Some s => negb (String.eqb s EmptyString)
  | None => false
  end.

Inductive Status : Type :=
| pending | running | waiting | completed | failed | timeout | cancelled.

Definition Status_eqb (a b : Status) : bool :=
  match a, b with
  | pending, pending | running, running | waiting, waiting
  | completed, completed | failed, failed | timeout, timeout
  | cancelled, cancelled => true
  | _, _ => false
  end.

Inductive RetryBackoff : Type := fixed | exponential.

Inductive FailureMode : Type := fail_fast | continue.

Inductive PipelineStatus : Type := prun_running | prun_completed | prun_failed.

Inductive MaintenanceMode : Type :=
| mode_running | mode_waiting_for_maintenance | mode_maintenance.

Inductive ServiceStatus : Type := active | inactive | disconnected.

(** ** Rows *)

(** One entry of [previous_attempts]. *)
Record AttemptRecord : Type := {
  ar_attempt : Z;
  ar_error : string;
  ar_errorCode : option string;
  ar_timestamp : Time
}.

(** One entry of [upstream_refs]. *)
Record UpstreamRef : Type := {
  outputPath : string;
  assets : Json
}.

(** Row of [tasks]. *)
Record TaskDef : Type := {
  t_service_id : string;
  t_code_hash : string;
  t_code_version : Z;
  t_allowed_next : list string;
  t_timeout_seconds : Z;
  t_retries : Z;
  t_retry_backoff : RetryBackoff;
  t_retry_delay_ms : Z;
  t_max_retry_delay_ms : Z;
  t_heartbeat_interval_ms : Z;
  t_concurrency : Z;
  t_priority : Z;
  t_idempotency_ttl_seconds : option Z;
  t_description : option string;
  t_registered_at : Time;
  t_updated_at : Time
}.

(** Row of [task_runs]. *)
Record TaskRun : Type := {
  tr_id : string;
  tr_task_id : string;
  tr_pipeline_run_id : option string;
  tr_status : Status;
  tr_code_version : Z;
  tr_code_hash : string;
  tr_attempt : Z;
  tr_max_retries : Z;
  tr_priority : Z;
  tr_input_path : string;
  tr_output_path : option string;
  tr_output_size : option Z;
  tr_assets : option Json;
  tr_logs_path : option string;
  tr_upstream_refs : gmap string UpstreamRef;
  tr_previous_attempts : list AttemptRecord;
  tr_idempotency_key : option string;
  tr_scheduled_for : option Time;
  tr_created_at : Time;
  tr_started_at : option Time;
  tr_completed_at : option Time;
  tr_error : option string;
  tr_error_code : option string;
  tr_metadata : Json
}.

(** Row of [pipelines]. *)
Record Pipeline : Type := {
  p_name : string;
  p_entry_tasks : list string;
  p_structure : gmap string (list string);
  p_version : string;
  p_failure_mode : FailureMode
}.

(** Row of [pipeline_runs].  [structure_snapshot] maps a task id to its
    [allowedNext]. *)
Record PipelineRun : Type := {
  pr_pipeline_id : string;
  pr_pipeline_version : string;
  pr_structure_snapshot : gmap string (list string);
  pr_status : PipelineStatus;
  pr_input_path : string;
  pr_failure_mode : FailureMode;
  pr_created_at : Time;
  pr_completed_at : option Time;
  pr_metadata : Json
}.

(** Row of [dlq]. *)
Record DLQRow : Type := {
  dlq_id : string;
  dlq_task_run_id : string;
  dlq_task_id : string;
  dlq_pipeline_run_id : option string;
  dlq_code_version : Z;
  dlq_code_hash : string;
  dlq_error : string;
  dlq_attempts : Z;
  dlq_input_path : string;
  dlq_upstream_refs : gmap string UpstreamRef;
  dlq_previous_attempts : list AttemptRecord;
  dlq_failed_at : Time
}.

(** Row of [idempotency_cache], keyed by [idempotency_key]. *)
Record CacheRow : Type := {
  ic_task_id : string;
  ic_task_run_id : string;
  ic_code_version : Z;
  ic_output_path : string;
  ic_output_size : option Z;
  ic_assets : option Json;
  ic_cached_at : Time;
  ic_expires_at : Time
}.

(** Row of [task_code_history]. *)
Record HistoryRow : Type := {
  h_task_id : string;
  h_code_version : Z;
  h_code_hash : string;
  h_service_version : string;
  h_recorded_at : Time
}.

(** Row of [services]. *)
Record ServiceRow : Type := {
  svc_version : string;
  svc_base_url : string;
  svc_registered_at : Time;
  svc_last_heartbeat : Time;
  svc_status : ServiceStatus
}.

(** The database, together with the number of identifiers drawn from
    [nanoid] so far.  [nanoid] is taken to hand out identifiers that are
    not in use, so an [INSERT] never meets an existing primary key and
    appends its row. *)
Record Store : Type := {
  tasks : gmap string TaskDef;
  task_runs : list TaskRun;
  pipelines : gmap string Pipeline;
  pipeline_runs : gmap string PipelineRun;
  dlq : list DLQRow;
  idempotency_cache : gmap string CacheRow;
  task_code_history : list HistoryRow;
  services : gmap string ServiceRow;
  maintenance_state : MaintenanceMode;
  minted : nat
}.

Definition with_task_runs (f : list TaskRun -> list TaskRun) (s : Store) : Store :=
  {| tasks := tasks s; task_runs := f (task_runs s); pipelines := pipelines s;
     pipeline_runs := pipeline_runs s; dlq := dlq s;
     idempotency_cache := idempotency_cache s;
     task_code_history := task_code_history s; services := services s;
     maintenance_state := maintenance_state s; minted := minted s |}.

(** [UPDATE task_runs SET ... WHERE cond]. *)
Definition update_where (cond : TaskRun -> bool) (upd : TaskRun -> TaskRun)
    (rows : list TaskRun) : list TaskRun :=
  List.map (fun r => if cond r then upd r else r) rows.

Definition has_id (runId : string) (r : TaskRun) : bool :=
  String.eqb (tr_id r) runId.

Definition in_pipeline_run (pipelineRunId : string) (r : TaskRun) : bool :=
  match tr_pipeline_run_id r with
  | Some p => String.eqb p pipelineRunId
  | None => false
  end.

Definition has_status (st : Status) (r : TaskRun) : bool :=
  Status_eqb (tr_status r) st.

(** [SET status = 'cancelled', error = $1, completed_at = NOW()]: the
    update shared by the two statements that cancel pending runs. *)
Definition cancelled_row (now : Time) (msg : string) (r : TaskRun) : TaskRun :=
  {| tr_id := tr_id r; tr_task_id := tr_task_id r;
     tr_pipeline_run_id := tr_pipeline_run_id r;
     tr_status := cancelled;
     tr_code_version := tr_code_version r; tr_code_hash := tr_code_hash r;
     tr_attempt := tr_attempt r;
     tr_max_retries := tr_max_retries r; tr_priority := tr_priority r;
     tr_input_path := tr_input_path r; tr_output_path := tr_output_path r;
     tr_output_size := tr_output_size r; tr_assets := tr_assets r;
     tr_logs_path := tr_logs_path r; tr_upstream_refs := tr_upstream_refs r;
     tr_previous_attempts := tr_previous_attempts r;
     tr_idempotency_key := tr_idempotency_key r;
     tr_scheduled_for := tr_scheduled_for r;
     tr_created_at := tr_created_at r; tr_started_at := tr_started_at r;
     tr_completed_at := Some now;
     tr_error := Some msg; tr_error_code := tr_error_code r;
     tr_metadata := tr_metadata r |}.

(** [SELECT ... FROM task_runs WHERE id = $1] through [oneOrNone]; [id]
    is the table's primary key. *)
Definition find_run (runId : string) (s : Store) : option TaskRun :=
  List.find (has_id runId) (task_runs s).

Definition count_where (cond : TaskRun -> bool) (rows : list TaskRun) : Z :=
  Z.of_nat (List.length (List.filter cond rows)).

(** ** Maintenance hook *)

(** Modelled from the spec: [onTaskStatusChange] lives in
    [maintenance.js], which is not part of the sources at hand.  Per the
    specification it touches the singleton maintenance row only: when
    the mode is [waiting_for_maintenance] and no task run is pending or
    running any more, the mode becomes [maintenance]. *)
Definition onTaskStatusChange (s : Store) : Store :=
  match maintenance_state s with
  | mode_waiting_for_maintenance =>
      if (count_where (has_status pending) (task_runs s) =? 0)
         && (count_where (has_status running) (task_runs s) =? 0)
      then {| tasks := tasks s; task_runs := task_runs s; pipelines := pipelines s;
              pipeline_runs := pipeline_runs s; dlq := dlq s;
              idempotency_cache := idempotency_cache s;
              task_code_history := task_code_history s; services := services s;
              maintenance_state := mode_maintenance; minted := minted s |}
      else s
  | _ => s
  end.

(** ** IdempotencyManager (core/idempotency.ts) *)

Module IdempotencyManager.

Record CachedResult : Type := {
  taskRunId : string;
  cr_outputPath : string;
  outputSize : option Z;
  cr_assets : option Json
}.

(** [SELECT ... FROM idempotency_cache WHERE idempotency_key = $1
    AND expires_at > NOW()]. *)
Definition checkIdempotency (now : Time) (idempotencyKey : string) (s : Store)
    : option CachedResult :=
  match idempotency_cache s !! idempotencyKey with
  | Some c =>
      if now <? ic_expires_at c
      then Some {| taskRunId := ic_task_run_id c;
                   cr_outputPath := ic_output_path c;
                   outputSize := ic_output_size c;
                   cr_assets := ic_assets c |}
      else None
  | None => None
  end.

Definition with_idempotency_cache
    (f : gmap string CacheRow -> gmap string CacheRow) (s : Store) : Store :=
  {| tasks := tasks s; task_runs := task_runs s; pipelines := pipelines s;
     pipeline_runs := pipeline_runs s; dlq := dlq s;
     idempotency_cache := f (idempotency_cache s);
     task_code_history := task_code_history s; services := services s;
     maintenance_state := maintenance_state s; minted := minted s |}.



(** [DELETE FROM idempotency_cache WHERE expires_at < NOW()], returning
    the number of rows deleted. *)
Definition cleanupExpired (now : Time) (s : Store) : Z * Store :=
  let kept :=
    filter (fun kv : string * CacheRow => now <= ic_expires_at (snd kv))
      (idempotency_cache s) in
  (Z.of_nat (size (idempotency_cache s)) - Z.of_nat (size kept),
   with_idempotency_cache (fun _ => kept) s).

End IdempotencyManager.

(** ** RetryManager (core/retry-manager.ts) *)

Module RetryManager.

Record RetryOptions : Type := {
  runId : string;
  taskId : string;
  attempt : Z;
  maxRetries : Z;
  retryBackoff : RetryBackoff;
  retryDelayMs : Z;
  maxRetryDelayMs : Z;
  error : string;
  errorCode : option string
}.

(** The delay before the next attempt.  The three numbers are the
    integers the caller passes; the arithmetic is that of doubles, so
    the result is an integer only where [Math.pow] and the product
    stay within the integers: for [attempt - 1 >= 1024] the power is
    [Infinity] and the product NaN (base 0), [Infinity] or
    [-Infinity]; for [attempt < 1] the power is a fraction. *)
Definition calculateDelay (options : RetryOptions) : JsNumber :=
  match retryBackoff options with
  | fixed => JsInt (retryDelayMs options)
  | exponential =>
      let exponentialDelay :=
        js_times (retryDelayMs options) (js_pow2 (attempt options - 1)) in
      js_min exponentialDelay (maxRetryDelayMs options)
  end.

(** The [UPDATE] of [scheduleRetry], applied to the matching row. *)
Definition retry_row (nextAttempt : Z) (scheduledFor : option Time)
    (attemptRecord : AttemptRecord) (r : TaskRun) : TaskRun :=
  {| tr_id := tr_id r; tr_task_id := tr_task_id r;
     tr_pipeline_run_id := tr_pipeline_run_id r;
     tr_status := pending;
     tr_code_version := tr_code_version r; tr_code_hash := tr_code_hash r;
     tr_attempt := nextAttempt;
     tr_max_retries := tr_max_retries r; tr_priority := tr_priority r;
     tr_input_path := tr_input_path r; tr_output_path := tr_output_path r;
     tr_output_size := tr_output_size r; tr_assets := tr_assets r;
     tr_logs_path := tr_logs_path r; tr_upstream_refs := tr_upstream_refs r;
     tr_previous_attempts := tr_previous_attempts r ++ [attemptRecord];
     tr_idempotency_key := tr_idempotency_key r;
     tr_scheduled_for := scheduledFor;
     tr_created_at := tr_created_at r; tr_started_at := tr_started_at r;
     tr_completed_at := tr_completed_at r;
     tr_error := None; tr_error_code := None;
     tr_metadata := tr_metadata r |}.

Section ScheduleRetry.

(** The parameter [$3] of the [UPDATE] is the JavaScript [Date]
    [new Date(Date.now() + delay)].  For an integer delay and a sum
    from the epoch to [MAX_DATE] that date is the instant
    [now + delay], and it is what the column receives.  Every other
    parameter is left to [other_date]: the Invalid Date that
    [new Date] makes of NaN, of an infinity and of a sum beyond
    [MAX_DATE]; a date before 1970; and the date of a delay with a
    fractional part.  What the database driver and the server make of
    these is not part of the sources: [other_date now options] is
    [Throw msg] when the statement is rejected with [msg], and [Ok v]
    when it is executed and [scheduled_for] receives [v]. *)
Context (other_date : Time -> RetryOptions -> result (option Time)).

(** What [scheduled_for = $3] receives. *)
Definition scheduled_date (now : Time) (options : RetryOptions)
    : result (option Time) :=
  match calculateDelay options with
  | JsInt delay =>
      if (0 <=? now + delay) && (now + delay <=? MAX_DATE)
      then Ok (Some (now + delay))
      else other_date now options
  | _ => other_date now options
  end.

(** A statement the database rejects makes [db.none] throw, and
    [scheduleRetry] with it. *)
Definition scheduleRetry (now : Time) (options : RetryOptions) (s : Store)
    : result (bool * Store) :=
  if maxRetries options <=? attempt options then Ok (false, s)
  else
    let nextAttempt := attempt options + 1 in
    let attemptRecord :=
      {| ar_attempt := attempt options; ar_error := error options;
         ar_errorCode := errorCode options; ar_timestamp := now |} in
    scheduledFor ← scheduled_date now options;
    Ok (true,
        with_task_runs
          (update_where (has_id (runId options))
             (retry_row nextAttempt scheduledFor attemptRecord)) s).

End ScheduleRetry.

End RetryManager.

(** ** QueueManager (core/queue-manager.ts) *)

Module QueueManager.

Record QueueTaskOptions : Type := {
  taskId : string;
  input : Json;
  priority : option Z;
  pipelineRunId : option string;
  upstreamRefs : option (gmap string UpstreamRef);
  metadata : option Json;
  idempotencyKey : option string;
  scheduledFor : option Time
}.

Record QueuedTask : Type := {
  q_runId : string;
  q_taskId : string;
  q_status : Status;
  q_inputPath : string
}.

Record PendingTask : Type := {
  pt_runId : string;
  pt_taskId : string;
  pt_pipelineRunId : option string;
  pt_codeVersion : Z;
  pt_codeHash : string;
  pt_attempt : Z;
  pt_maxRetries : Z;
  pt_priority : Z;
  pt_inputPath : string;
  pt_upstreamRefs : gmap string UpstreamRef;
  pt_previousAttempts : list AttemptRecord;
  pt_idempotencyKey : option string
}.

Section Enqueue.

(** [nanoid k] is the [k]-th identifier the generator hands out. *)
Context (nanoid : nat -> string).

Definition inputPathFor (pipelineRunId : option string) (runId : string) : string :=
  if truthy pipelineRunId
  then "runs/" +:+ default EmptyString pipelineRunId
       +:+ "/tasks/" +:+ runId +:+ "/input.json"
  else "standalone/" +:+ runId +:+ "/input.json".

(** The row written by the [INSERT INTO task_runs] of [enqueue]. *)
Definition new_run (now : Time) (options : QueueTaskOptions) (task : TaskDef)
    (runId inputPath : string) : TaskRun :=
  {| tr_id := runId;
     tr_task_id := taskId options;
     tr_pipeline_run_id := pipelineRunId options;
     tr_status := pending;
     tr_code_version := t_code_version task;
     tr_code_hash := t_code_hash task;
     tr_attempt := 1;
     tr_max_retries := t_retries task;
     tr_priority := default (t_priority task) (priority options);
     tr_input_path := inputPath;
     tr_output_path := None; tr_output_size := None; tr_assets := None;
     tr_logs_path := None;
     tr_upstream_refs := default ∅ (upstreamRefs options);
     tr_previous_attempts := [];
     tr_idempotency_key := idempotencyKey options;
     tr_scheduled_for := scheduledFor options;
     tr_created_at := now;
     tr_started_at := None; tr_completed_at := None;
     tr_error := None; tr_error_code := None;
     tr_metadata := default "{}" (metadata options) |}.

Definition insert_run (r : TaskRun) (s : Store) : Store :=
  {| tasks := tasks s; task_runs := task_runs s ++ [r];
     pipelines := pipelines s; pipeline_runs := pipeline_runs s;
     dlq := dlq s; idempotency_cache := idempotency_cache s;
     task_code_history := task_code_history s; services := services s;
     maintenance_state := maintenance_state s; minted := S (minted s) |}.

Definition enqueue (now : Time) (options : QueueTaskOptions) (s : Store)
    : result (QueuedTask * Store) :=
  match tasks s !! taskId options with
  | None => Throw ("Task '" +:+ taskId options +:+ "' not found")
  | Some task =>
      let cached :=
        match idempotencyKey options with
        | Some key =>
            if truthy (idempotencyKey options)
            then IdempotencyManager.checkIdempotency now key s
            else None
        | None => None
        end in
      match cached with
      | Some c =>
          Ok ({| q_runId := IdempotencyManager.taskRunId c;
                 q_taskId := taskId options;
                 q_status := completed;
                 q_inputPath := IdempotencyManager.cr_outputPath c |}, s)
      | None =>
          let runId := "trun_" +:+ nanoid (minted s) in
          let inputPath := inputPathFor (pipelineRunId options) runId in
          Ok ({| q_runId := runId; q_taskId := taskId options;
                 q_status := pending; q_inputPath := inputPath |},
              insert_run (new_run now options task runId inputPath) s)
      end
  end.

(** [enqueueBatch]: per-item [enqueue] in input order; the first
    failure is rethrown. *)
Fixpoint enqueueBatch (now : Time) (batch : list QueueTaskOptions) (s : Store)
    : result (list QueuedTask * Store) :=
  match batch with
  | [] => Ok ([], s)
  | task :: rest =>
      '(queued, s1) ← enqueue now task s;
      '(results, s2) ← enqueueBatch now rest s1;
      Ok (queued :: results, s2)
  end.

End Enqueue.

(** *** getNext *)

(** The [running_counts] CTE joined on [task_id], with [COALESCE(…, 0)]. *)
Definition running_count (rows : list TaskRun) (task_id : string) : Z :=
  count_where (fun r => has_status running r && String.eqb (tr_task_id r) task_id) rows.

(** The [WHERE] clause of [getNext].  A run whose task row is missing
    has [t.concurrency] null and is filtered out. *)
Definition eligible (now : Time) (s : Store) (r : TaskRun) : bool :=
  has_status pending r
  && match tr_scheduled_for r with
     | None => true
     | Some t => t <=? now
     end
  && match tasks s !! tr_task_id r with
     | Some t =>
         (t_concurrency t =? 0)
         || (running_count (task_runs s) (tr_task_id r) <? t_concurrency t)
     | None => false
     end.

(** [ORDER BY tr.priority ASC, tr.created_at ASC]; rows that tie on
    both keys keep their table order. *)
Definition before (a b : TaskRun) : bool :=
  (tr_priority a <? tr_priority b)
  || ((tr_priority a =? tr_priority b) && (tr_created_at a <=? tr_created_at b)).

Fixpoint insert_by (le : TaskRun -> TaskRun -> bool) (x : TaskRun)
    (l : list TaskRun) : list TaskRun :=
  match l with
  | [] => [x]
  | y :: l' => if le y x then y :: insert_by le x l' else x :: l
  end.

Definition order_by (le : TaskRun -> TaskRun -> bool) (l : list TaskRun)
    : list TaskRun :=
  List.fold_left (fun acc x => insert_by le x acc) l [].

Definition toPendingTask (row : TaskRun) : PendingTask :=
  {| pt_runId := tr_id row; pt_taskId := tr_task_id row;
     pt_pipelineRunId := tr_pipeline_run_id row;
     pt_codeVersion := tr_code_version row; pt_codeHash := tr_code_hash row;
     pt_attempt := tr_attempt row; pt_maxRetries := tr_max_retries row;
     pt_priority := tr_priority row; pt_inputPath := tr_input_path row;
     pt_upstreamRefs := tr_upstream_refs row;
     pt_previousAttempts := tr_previous_attempts row;
     pt_idempotencyKey := tr_idempotency_key row |}.

(** A negative [LIMIT] is rejected by the database. *)
Definition getNext (now : Time) (limit : Z) (s : Store) : result (list PendingTask) :=
  if limit <? 0 then Throw "LIMIT must not be negative"
  else
    Ok (List.map toPendingTask
          (List.firstn (Z.to_nat limit)
             (order_by before (List.filter (eligible now s) (task_runs s))))).

(** *** Status updates *)

Definition running_row (now : Time) (r : TaskRun) : TaskRun :=
  {| tr_id := tr_id r; tr_task_id := tr_task_id r;
     tr_pipeline_run_id := tr_pipeline_run_id r;
     tr_status := running;
     tr_code_version := tr_code_version r; tr_code_hash := tr_code_hash r;
     tr_attempt := tr_attempt r;
     tr_max_retries := tr_max_retries r; tr_priority := tr_priority r;
     tr_input_path := tr_input_path r; tr_output_path := tr_output_path r;
     tr_output_size := tr_output_size r; tr_assets := tr_assets r;
     tr_logs_path := tr_logs_path r; tr_upstream_refs := tr_upstream_refs r;
     tr_previous_attempts := tr_previous_attempts r;
     tr_idempotency_key := tr_idempotency_key r;
     tr_scheduled_for := tr_scheduled_for r;
     tr_created_at := tr_created_at r;
     tr_started_at := Some now;
     tr_completed_at := tr_completed_at r;
     tr_error := tr_error r; tr_error_code := tr_error_code r;
     tr_metadata := tr_metadata r |}.

Definition markRunning (now : Time) (runId : string) (s : Store) : Store :=
  with_task_runs (update_where (has_id runId) (running_row now)) s.

Definition completed_row (now : Time) (outputPath : string) (outputSize : option Z)
    (assets : option Json) (logsPath : option string) (r : TaskRun) : TaskRun :=
  {| tr_id := tr_id r; tr_task_id := tr_task_id r;
     tr_pipeline_run_id := tr_pipeline_run_id r;
     tr_status := completed;
     tr_code_version := tr_code_version r; tr_code_hash := tr_code_hash r;
     tr_attempt := tr_attempt r;
     tr_max_retries := tr_max_retries r; tr_priority := tr_priority r;
     tr_input_path := tr_input_path r;
     tr_output_path := Some outputPath;
     tr_output_size := outputSize;
     tr_assets := assets;
     tr_logs_path := logsPath;
     tr_upstream_refs := tr_upstream_refs r;
     tr_previous_attempts := tr_previous_attempts r;
     tr_idempotency_key := tr_idempotency_key r;
     tr_scheduled_for := tr_scheduled_for r;
     tr_created_at := tr_created_at r; tr_started_at := tr_started_at r;
     tr_completed_at := Some now;
     tr_error := tr_error r; tr_error_code := tr_error_code r;
     tr_metadata := tr_metadata r |}.

Definition markCompleted (now : Time) (runId outputPath : string)
    (outputSize : option Z) (assets : option Json) (logsPath : option string)
    (s : Store) : Store :=
  onTaskStatusChange
    (with_task_runs
       (update_where (has_id runId)
          (completed_row now outputPath outputSize assets logsPath)) s).

Definition failed_row (now : Time) (error : string) (errorCode : option string)
    (r : TaskRun) : TaskRun :=
  {| tr_id := tr_id r; tr_task_id := tr_task_id r;
     tr_pipeline_run_id := tr_pipeline_run_id r;
     tr_status := failed;
     tr_code_version := tr_code_version r; tr_code_hash := tr_code_hash r;
     tr_attempt := tr_attempt r;
     tr_max_retries := tr_max_retries r; tr_priority := tr_priority r;
     tr_input_path := tr_input_path r; tr_output_path := tr_output_path r;
     tr_output_size := tr_output_size r; tr_assets := tr_assets r;
     tr_logs_path := tr_logs_path r; tr_upstream_refs := tr_upstream_refs r;
     tr_previous_attempts := tr_previous_attempts r;
     tr_idempotency_key := tr_idempotency_key r;
     tr_scheduled_for := tr_scheduled_for r;
     tr_created_at := tr_created_at r; tr_started_at := tr_started_at r;
     tr_completed_at := Some now;
     tr_error := Some error; tr_error_code := errorCode;
     tr_metadata := tr_metadata r |}.

Definition markFailed (now : Time) (runId error : string)
    (errorCode : option string) (s : Store) : Store :=
  onTaskStatusChange
    (with_task_runs (update_where (has_id runId) (failed_row now error errorCode)) s).

(** [canRunTask]: the ad-hoc concurrency check. *)
Definition canRunTask (taskId : string) (s : Store) : bool :=
  match tasks s !! taskId with
  | None => false
  | Some t =>
      if t_concurrency t =? 0 then true
      else running_count (task_runs s) taskId <? t_concurrency t
  end.

End QueueManager.

(** ** DLQManager (core/dlq-manager.ts) *)

Module DLQManager.

Section Add.

Context (nanoid : nat -> string).

Definition add (now : Time) (taskRun : QueueManager.PendingTask) (error : string)
    (s : Store) : string * Store :=
  let dlqId := "dlq_" +:+ nanoid (minted s) in
  let row :=
    {| dlq_id := dlqId;
       dlq_task_run_id := QueueManager.pt_runId taskRun;
       dlq_task_id := QueueManager.pt_taskId taskRun;
       dlq_pipeline_run_id := QueueManager.pt_pipelineRunId taskRun;
       dlq_code_version := QueueManager.pt_codeVersion taskRun;
       dlq_code_hash := QueueManager.pt_codeHash taskRun;
       dlq_error := error;
       dlq_attempts := QueueManager.pt_attempt taskRun;
       dlq_input_path := QueueManager.pt_inputPath taskRun;
       dlq_upstream_refs := QueueManager.pt_upstreamRefs taskRun;
       dlq_previous_attempts := QueueManager.pt_previousAttempts taskRun;
       dlq_failed_at := now |} in
  (dlqId,
   {| tasks := tasks s; task_runs := task_runs s; pipelines := pipelines s;
      pipeline_runs := pipeline_runs s; dlq := dlq s ++ [row];
      idempotency_cache := idempotency_cache s;
      task_code_history := task_code_history s; services := services s;
      maintenance_state := maintenance_state s; minted := S (minted s) |}).

End Add.

End DLQManager.

(** ** HeartbeatMonitor (core/heartbeat-monitor.ts) *)

Module HeartbeatMonitor.

Record HeartbeatTracker : Type := {
  runId : string;
  taskId : string;
  startedAt : Time;
  lastHeartbeat : Time;
  timeoutMs : JsNumber;
  timeoutHandle : nat
}.

(** A pending [setTimeout(() => this.handleTimeout(runId), delay)];
    [timer_delay] is the delay the runtime armed it with. *)
Record Timer : Type := {
  timer_runId : string;
  timer_delay : JsNumber;
  timer_armed_at : Time
}.

(** The longest delay the runtime's timers take: [2 ^ 31 - 1] ms. *)
Definition TIMEOUT_MAX : Z := 2147483647.

(** The delay [setTimeout(callback, after)] arms its timer with: the
    runtime keeps [after] when [after >= 1 && after <= TIMEOUT_MAX]
    and sets the delay to 1 ms otherwise. *)
Definition armed_delay (after : JsNumber) : JsNumber :=
  match after with
  | JsInt d => if (1 <=? d) && (d <=? TIMEOUT_MAX) then JsInt d else JsInt 1
  | JsFraction n k =>
      if (2 ^ k <=? n) && (n <=? TIMEOUT_MAX * 2 ^ k) then JsFraction n k else JsInt 1
  | JsInfinity | JsNegInfinity | JsNaN => JsInt 1
  end.

(** The monitor's private map and the timers it has armed with the
    runtime; [next_handle] is the next handle [setTimeout] returns. *)
Record Monitor : Type := {
  trackers : gmap string HeartbeatTracker;
  timers : gmap nat Timer;
  next_handle : nat
}.

Definition empty : Monitor :=
  {| trackers := ∅; timers := ∅; next_handle := 0 |}.

Definition startTracking (now : Time) (runId taskId : string)
    (heartbeatIntervalMs : Z) (m : Monitor) : Monitor :=
  let timeoutMs := js_scaled (heartbeatIntervalMs * 2) in
  let handle := next_handle m in
  let tracker :=
    {| runId := runId; taskId := taskId; startedAt := now; lastHeartbeat := now;
       timeoutMs := timeoutMs; timeoutHandle := handle |} in
  {| trackers := <[runId := tracker]> (trackers m);
     timers := <[handle := {| timer_runId := runId;
                              timer_delay := armed_delay timeoutMs;
                              timer_armed_at := now |}]> (timers m);
     next_handle := S handle |}.

Definition cancelTracking (runId : string) (m : Monitor) : Monitor :=
  {| trackers := delete runId (trackers m);
     timers := match trackers m !! runId with
               | Some tracker => delete (timeoutHandle tracker) (timers m)
               | None => timers m
               end;
     next_handle := next_handle m |}.

(** The [UPDATE] of [handleTimeout], applied to a matching row. *)
Definition timeout_row (now : Time) (r : TaskRun) : TaskRun :=
  {| tr_id := tr_id r; tr_task_id := tr_task_id r;
     tr_pipeline_run_id := tr_pipeline_run_id r;
     tr_status := timeout;
     tr_code_version := tr_code_version r; tr_code_hash := tr_code_hash r;
     tr_attempt := tr_attempt r;
     tr_max_retries := tr_max_retries r; tr_priority := tr_priority r;
     tr_input_path := tr_input_path r; tr_output_path := tr_output_path r;
     tr_output_size := tr_output_size r; tr_assets := tr_assets r;
     tr_logs_path := tr_logs_path r; tr_upstream_refs := tr_upstream_refs r;
     tr_previous_attempts := tr_previous_attempts r;
     tr_idempotency_key := tr_idempotency_key r;
     tr_scheduled_for := tr_scheduled_for r;
     tr_created_at := tr_created_at r; tr_started_at := tr_started_at r;
     tr_completed_at := Some now;
     tr_error := Some "Task heartbeat timeout";
     tr_error_code := Some "TIMEOUT";
     tr_metadata := tr_metadata r |}.

Definition handleTimeout (now : Time) (runId : string) (ms : Monitor * Store)
    : Monitor * Store :=
  let '(m, s) := ms in
  match trackers m !! runId with
  | None => (m, s)
  | Some _ =>
      ({| trackers := delete runId (trackers m); timers := timers m;
          next_handle := next_handle m |},
       with_task_runs
         (update_where (fun r => has_id runId r && has_status running r)
            (timeout_row now)) s)
  end.

(** The runtime fires the timer with handle [h]: the timer leaves the
    pending set and its callback runs. *)
Definition fire (now : Time) (h : nat) (ms : Monitor * Store) : Monitor * Store :=
  let '(m, s) := ms in
  match timers m !! h with
  | None => (m, s)
  | Some t =>
      handleTimeout now (timer_runId t)
        ({| trackers := trackers m; timers := delete h (timers m);
            next_handle := next_handle m |}, s)
  end.

(** [cleanup]: clear every tracked timer and forget the trackers. *)
Definition cleanup (m : Monitor) : Monitor :=
  {| trackers := ∅;
     timers := map_fold (fun _ tracker acc => delete (timeoutHandle tracker) acc)
                 (timers m) (trackers m);
     next_handle := next_handle m |}.

End HeartbeatMonitor.

(** ** TaskPoller (core/poller.ts) *)

Module TaskPoller.

Section Poll.

Context (nanoid : nat -> string).

(** The worker transport [TaskExecutor.dispatch] is an external
    collaborator: [dispatch task] is [None] when the call returns
    and [Some msg] when it throws, [msg] being what the handler
    logs ([error.message], or ["Unknown error"]). *)
Context (dispatch : QueueManager.PendingTask -> option string).

(** What the database makes of a [scheduled_for] that
    [RetryManager.scheduled_date] does not determine. *)
Context (other_date : Time -> RetryManager.RetryOptions -> result (option Time)).

(** Modelled from the spec: [Orchestrator.canAcceptTasks] is not
    part of the sources at hand; the dispatcher refuses to claim
    tasks unless the maintenance mode is [running]. *)
Definition canAcceptTasks (s : Store) : bool :=
  match maintenance_state s with
  | mode_running => true
  | _ => false
  end.

(** The body run for one claimed task.  When [scheduleRetry] throws,
    the error leaves the handler and rejects the promise of that run,
    which [Promise.allSettled] records: the run stays as [markRunning]
    left it. *)
Definition dispatchOne (now : Time) (task : QueueManager.PendingTask)
    (ms : HeartbeatMonitor.Monitor * Store) : HeartbeatMonitor.Monitor * Store :=
  let '(m, s) := ms in
  let s := QueueManager.markRunning now (QueueManager.pt_runId task) s in
  match dispatch task with
  | None =>
      match tasks s !! QueueManager.pt_taskId task with
      | Some taskDef =>
          (HeartbeatMonitor.startTracking now (QueueManager.pt_runId task)
             (QueueManager.pt_taskId task) (t_heartbeat_interval_ms taskDef) m, s)
      | None => (m, s)
      end
  | Some msg =>
      let toDLQ :=
        let '(_, s1) := DLQManager.add nanoid now task msg s in
        (m, QueueManager.markFailed now (QueueManager.pt_runId task) msg
              (Some "DISPATCH_FAILED") s1) in
      match tasks s !! QueueManager.pt_taskId task with
      | Some taskDef =>
          if QueueManager.pt_attempt task <? QueueManager.pt_maxRetries task
          then
            match RetryManager.scheduleRetry other_date now
                    {| RetryManager.runId := QueueManager.pt_runId task;
                       RetryManager.taskId := QueueManager.pt_taskId task;
                       RetryManager.attempt := QueueManager.pt_attempt task;
                       RetryManager.maxRetries := QueueManager.pt_maxRetries task;
                       RetryManager.retryBackoff := t_retry_backoff taskDef;
                       RetryManager.retryDelayMs := t_retry_delay_ms taskDef;
                       RetryManager.maxRetryDelayMs := t_max_retry_delay_ms taskDef;
                       RetryManager.error := msg;
                       RetryManager.errorCode := Some "DISPATCH_FAILED" |} s with
            | Ok (_, s') => (m, s')
            | Throw _ => (m, s)
            end
          else toDLQ
      | None => toDLQ
      end
  end.

(** One poll cycle.  The claimed tasks are processed one after the
    other in the order [getNext] returned them; each touches only
    the row of its own run. *)
Definition poll (now : Time) (maxConcurrency : Z)
    (ms : HeartbeatMonitor.Monitor * Store)
    : Z * (HeartbeatMonitor.Monitor * Store) :=
  if canAcceptTasks (snd ms) then
    match QueueManager.getNext now maxConcurrency (snd ms) with
    | Throw _ => (0, ms)
    | Ok claimed =>
        (Z.of_nat (List.length claimed),
         List.fold_left (fun acc task => dispatchOne now task acc) claimed ms)
    end
  else (0, ms).

End Poll.

End TaskPoller.

(** ** SHA-256 (FIPS 180-4), as computed by [crypto.createHash('sha256')] *)

Module SHA256.

Definition w32 (x : Z) : Z := x mod 4294967296.

Definition add32 (x y : Z) : Z := w32 (x + y).

Definition rotr (n x : Z) : Z :=
  Z.lor (Z.shiftr x n) (w32 (Z.shiftl x (32 - n))).

Definition not32 (x : Z) : Z := Z.lxor x 4294967295.

Definition Ch (x y z : Z) : Z := Z.lxor (Z.land x y) (Z.land (not32 x) z).
Definition Maj (x y z : Z) : Z :=
  Z.lxor (Z.lxor (Z.land x y) (Z.land x z)) (Z.land y z).
Definition bsig0 (x : Z) : Z := Z.lxor (Z.lxor (rotr 2 x) (rotr 13 x)) (rotr 22 x).
Definition bsig1 (x : Z) : Z := Z.lxor (Z.lxor (rotr 6 x) (rotr 11 x)) (rotr 25 x).
Definition ssig0 (x : Z) : Z := Z.lxor (Z.lxor (rotr 7 x) (rotr 18 x)) (Z.shiftr x 3).
Definition ssig1 (x : Z) : Z := Z.lxor (Z.lxor (rotr 17 x) (rotr 19 x)) (Z.shiftr x 10).

(** The round constants: the first 32 bits of the fractional parts of
    the cube roots of the first 64 primes. *)
Definition K : list Z :=
  [ 1116352408; 1899447441; 3049323471; 3921009573; 961987163; 1508970993;
    2453635748; 2870763221; 3624381080; 310598401; 607225278; 1426881987;
    1925078388; 2162078206; 2614888103; 3248222580; 3835390401; 4022224774;
    264347078; 604807628; 770255983; 1249150122; 1555081692; 1996064986;
    2554220882; 2821834349; 2952996808; 3210313671; 3336571891; 3584528711;
    113926993; 338241895; 666307205; 773529912; 1294757372; 1396182291;
    1695183700; 1986661051; 2177026350; 2456956037; 2730485921; 2820302411;
    3259730800; 3345764771; 3516065817; 3600352804; 4094571909; 275423344;
    430227734; 506948616; 659060556; 883997877; 958139571; 1322822218;
    1537002063; 1747873779; 1955562222; 2024104815; 2227730452; 2361852424;
    2428436474; 2756734187; 3204031479; 3329325298 ].

(** The initial hash value: square roots of the first 8 primes. *)
Definition H_init : list Z :=
  [ 1779033703; 3144134277; 1013904242; 2773480762;
    1359893119; 2600822924; 528734635; 1541459225 ].

Definition bytes_of_string (s : string) : list Z :=
  List.map (fun c => Z.of_N (N_of_ascii c)) (list_ascii_of_string s).

(** Big-endian bytes of [x], [n] of them. *)
Fixpoint be_bytes (n : nat) (x : Z) : list Z :=
  match n with
  | O => []
  | S n' => be_bytes n' (Z.shiftr x 8) ++ [x mod 256]
  end.

(** Message, then [0x80], then zeros up to 56 mod 64, then the bit
    length as a 64-bit big-endian integer. *)
Definition pad (msg : list Z) : list Z :=
  let len := Z.of_nat (List.length msg) in
  let zeros := Z.to_nat ((55 - len) mod 64) in
  msg ++ [128] ++ List.repeat 0 zeros ++ be_bytes 8 (len * 8).

Fixpoint words_of_bytes (bs : list Z) : list Z :=
  match bs with
  | a :: b :: c :: d :: rest =>
      (a * 16777216 + b * 65536 + c * 256 + d) :: words_of_bytes rest
  | _ => []
  end.

(** The message schedule, most recent word first: [ws] holds
    [W(t-1), W(t-2), ...]. *)
Fixpoint extend (n : nat) (ws : list Z) : list Z :=
  match n with
  | O => ws
  | S n' =>
      let w := add32 (add32 (ssig1 (List.nth 1 ws 0)) (List.nth 6 ws 0))
                     (add32 (ssig0 (List.nth 14 ws 0)) (List.nth 15 ws 0)) in
      extend n' (w :: ws)
  end.

Definition schedule (block : list Z) : list Z :=
  List.rev (extend 48 (List.rev block)).

Record Regs : Type := { ra : Z; rb : Z; rc : Z; rd : Z; re : Z; rf : Z; rg : Z; rh : Z }.

Definition round (r : Regs) (kw : Z * Z) : Regs :=
  let t1 := add32 (add32 (add32 (rh r) (bsig1 (re r))) (Ch (re r) (rf r) (rg r)))
                  (add32 (fst kw) (snd kw)) in
  let t2 := add32 (bsig0 (ra r)) (Maj (ra r) (rb r) (rc r)) in
  {| ra := add32 t1 t2; rb := ra r; rc := rb r; rd := rc r;
     re := add32 (rd r) t1; rf := re r; rg := rf r; rh := rg r |}.

Definition regs_of (h : list Z) : Regs :=
  {| ra := List.nth 0 h 0; rb := List.nth 1 h 0; rc := List.nth 2 h 0;
     rd := List.nth 3 h 0; re := List.nth 4 h 0; rf := List.nth 5 h 0;
     rg := List.nth 6 h 0; rh := List.nth 7 h 0 |}.

Definition compress (h : list Z) (block : list Z) : list Z :=
  let r := List.fold_left round (List.combine K (schedule block)) (regs_of h) in
  List.map (fun p => add32 (fst p) (snd p))
    (List.combine h [ra r; rb r; rc r; rd r; re r; rf r; rg r; rh r]).

(** Split into 16-word blocks; [fuel] bounds the number of blocks. *)
Fixpoint blocks (fuel : nat) (ws : list Z) : list (list Z) :=
  match fuel, ws with
  | S fuel', _ :: _ => List.firstn 16 ws :: blocks fuel' (List.skipn 16 ws)
  | _, _ => []
  end.

Definition digest_words (s : string) : list Z :=
  let ws := words_of_bytes (pad (bytes_of_string s)) in
  List.fold_left compress (blocks (List.length ws) ws) H_init.

Definition hex_digit (d : Z) : ascii :=
  ascii_of_N (Z.to_N (if d <? 10 then 48 + d else 87 + d)).

Fixpoint hex_of (digits : nat) (x : Z) (acc : string) : string :=
  match digits with
  | O => acc
  | S n => hex_of n (Z.shiftr x 4) (String (hex_digit (x mod 16)) acc)
  end.

(** [.digest('hex')]: 64 lower-case hexadecimal digits. *)
Definition hexdigest (s : string) : string :=
  List.fold_right (fun w acc => hex_of 8 w acc) EmptyString (digest_words s).

End SHA256.

(** ** ServiceRegistry (core/registry.ts) *)

Module ServiceRegistry.

(** One element of [request.tasks].  The declaration of
    [RegisterServiceRequest] belongs to the shared package; the fields
    are the ones [registerService] reads, each optional one defaulted
    there with [??]. *)
Record TaskRegistration : Type := {
  id : string;
  allowedNext : option (list string);
  timeout : option Z;
  retries : option Z;
  retryBackoff : option RetryBackoff;
  retryDelayMs : option Z;
  maxRetryDelayMs : option Z;
  heartbeatIntervalMs : option Z;
  concurrency : option Z;
  priority : option Z;
  idempotencyTTL : option Z;
  description : option string
}.

Record RegisterServiceRequest : Type := {
  serviceId : string;
  version : string;
  baseUrl : string;
  reg_tasks : list TaskRegistration
}.

Record CodeChange : Type := {
  cc_taskId : string;
  oldHash : string;
  newHash : string;
  oldVersion : Z;
  newVersion : Z
}.

Record RegisterServiceResponse : Type := {
  success : bool;
  codeChanges : list CodeChange;
  orphanedTasks : option (list string)
}.

(** *** [JSON.stringify] of a task registration *)

Definition dquote : string := String (ascii_of_nat 34) EmptyString.

Definition json_escape_char (c : ascii) : string :=
  let n := nat_of_ascii c in
  if Nat.eqb n 34 then "\" +:+ dquote
  else if Nat.eqb n 92 then "\\"
  else if Nat.eqb n 8 then "\b"
  else if Nat.eqb n 9 then "\t"
  else if Nat.eqb n 10 then "\n"
  else if Nat.eqb n 12 then "\f"
  else if Nat.eqb n 13 then "\r"
  else if Nat.ltb n 32 then "\u00" +:+ SHA256.hex_of 2 (Z.of_nat n) EmptyString
  else String c EmptyString.

Fixpoint json_escape (s : string) : string :=
  match s with
  | EmptyString => EmptyString
  | String c rest => json_escape_char c +:+ json_escape rest
  end.

Definition json_string (s : string) : string :=
  dquote +:+ json_escape s +:+ dquote.

Definition json_number (z : Z) : string :=
  DecimalString.NilZero.string_of_int (Z.to_int z).

Fixpoint join (sep : string) (l : list string) : string :=
  match l with
  | [] => EmptyString
  | [x] => x
  | x :: rest => x +:+ sep +:+ join sep rest
  end.

Definition json_array (l : list string) : string :=
  "[" +:+ join "," (List.map json_string l) +:+ "]".

Definition json_backoff (b : RetryBackoff) : string :=
  match b with
  | fixed => json_string "fixed"
  | exponential => json_string "exponential"
  end.

Definition member {A} (key : string) (enc : A -> string) (v : option A)
    : list string :=
  match v with
  | Some a => [json_string key +:+ ":" +:+ enc a]
  | None => []
  end.

(** Properties that are [undefined] are left out; the others appear
    in the object's own key order, taken here to be the order of the
    record. *)
Definition JSON_stringify (task : TaskRegistration) : string :=
  "{" +:+ join ","
    (member "id" json_string (Some (id task))
     ++ member "allowedNext" json_array (allowedNext task)
     ++ member "timeout" json_number (timeout task)
     ++ member "retries" json_number (retries task)
     ++ member "retryBackoff" json_backoff (retryBackoff task)
     ++ member "retryDelayMs" json_number (retryDelayMs task)
     ++ member "maxRetryDelayMs" json_number (maxRetryDelayMs task)
     ++ member "heartbeatIntervalMs" json_number (heartbeatIntervalMs task)
     ++ member "concurrency" json_number (concurrency task)
     ++ member "priority" json_number (priority task)
     ++ member "idempotencyTTL" json_number (idempotencyTTL task)
     ++ member "description" json_string (description task))
  +:+ "}".

(** [.digest('hex').substring(0, 16)]. *)
Definition calculateCodeHash (content : string) : string :=
  String.substring 0 16 (SHA256.hexdigest content).

(** The hash [registerService] computes for one element of the
    request. *)
Definition codeHashOf (task : TaskRegistration) : string :=
  calculateCodeHash (JSON_stringify task).

(** Entries of a request that share a task id share their hash; in
    particular a request whose task ids are pairwise distinct. *)
Definition consistent_hashes (l : list TaskRegistration) : Prop :=
  forall t1 t2, In t1 l -> In t2 l -> id t1 = id t2 -> codeHashOf t1 = codeHashOf t2.

(** *** registerService *)

Definition upsert_service (now : Time) (serviceId version baseUrl : string)
    (svcs : gmap string ServiceRow) : gmap string ServiceRow :=
  <[serviceId :=
      {| svc_version := version; svc_base_url := baseUrl;
         svc_registered_at :=
           match svcs !! serviceId with
           | Some old => svc_registered_at old
           | None => now
           end;
         svc_last_heartbeat := now; svc_status := active |}]> svcs.

(** [SELECT id FROM tasks WHERE service_id = $1]. *)
Definition existing_task_ids (serviceId : string) (ts : gmap string TaskDef)
    : list string :=
  List.map fst
    (List.filter (fun kv => String.eqb (t_service_id (snd kv)) serviceId)
       (map_to_list ts)).

Definition includes (l : list string) (x : string) : bool :=
  List.existsb (String.eqb x) l.

(** The orphan loop: each stored task of the service that the request
    no longer lists is reported, and its pending runs are cancelled. *)
Definition orphan_step (now : Time) (version : string) (newTaskIds : list string)
    (acc : list string * list TaskRun) (existing : string)
    : list string * list TaskRun :=
  if includes newTaskIds existing then acc
  else
    (fst acc ++ [existing],
     update_where
       (fun r => String.eqb (tr_task_id r) existing && has_status pending r)
       (cancelled_row now ("Task type removed in version " +:+ version))
       (snd acc)).

(** The row written by the task upsert; [registered_at] is kept on
    conflict. *)
Definition task_row (now : Time) (serviceId codeHash : string) (newVersion : Z)
    (existingTask : option TaskDef) (task : TaskRegistration) : TaskDef :=
  {| t_service_id := serviceId;
     t_code_hash := codeHash;
     t_code_version := newVersion;
     t_allowed_next := default [] (allowedNext task);
     t_timeout_seconds := default 300 (timeout task);
     t_retries := default 3 (retries task);
     t_retry_backoff := default exponential (retryBackoff task);
     t_retry_delay_ms := default 1000 (retryDelayMs task);
     t_max_retry_delay_ms := default 86400000 (maxRetryDelayMs task);
     t_heartbeat_interval_ms := default 60000 (heartbeatIntervalMs task);
     t_concurrency := default 0 (concurrency task);
     t_priority := default 100 (priority task);
     t_idempotency_ttl_seconds := idempotencyTTL task;
     t_description := description task;
     t_registered_at :=
       match existingTask with
       | Some old => t_registered_at old
       | None => now
       end;
     t_updated_at := now |}.

Definition history_exists (taskId codeHash : string) (h : list HistoryRow) : bool :=
  List.existsb
    (fun row =>
       String.eqb (h_task_id row) taskId && String.eqb (h_code_hash row) codeHash)
    h.

(** State threaded through the task loop: the [tasks] table, the
    history table and the [codeChanges] collected so far. *)
Definition upsert_task (now : Time) (serviceId version : string)
    (acc : gmap string TaskDef * list HistoryRow * list CodeChange)
    (task : TaskRegistration)
    : gmap string TaskDef * list HistoryRow * list CodeChange :=
  let '(ts, hist, changes) := acc in
  let codeHash := codeHashOf task in
  let existingTask := ts !! id task in
  let hashChanged :=
    match existingTask with
    | Some old => negb (String.eqb (t_code_hash old) codeHash)
    | None => false
    end in
  let newVersion :=
    match existingTask with
    | Some old => if hashChanged then t_code_version old + 1 else t_code_version old
    | None => 1
    end in
  let ts' :=
    <[id task := task_row now serviceId codeHash newVersion existingTask task]> ts in
  match existingTask with
  | Some old =>
      if hashChanged then
        (ts',
         (if history_exists (id task) codeHash hist then hist
          else hist ++ [{| h_task_id := id task; h_code_version := newVersion;
                           h_code_hash := codeHash; h_service_version := version;
                           h_recorded_at := now |}]),
         changes ++ [{| cc_taskId := id task; oldHash := t_code_hash old;
                        newHash := codeHash; oldVersion := t_code_version old;
                        newVersion := newVersion |}])
      else (ts', hist, changes)
  | None => (ts', hist, changes)
  end.

Definition registerService (now : Time) (request : RegisterServiceRequest)
    (s : Store) : RegisterServiceResponse * Store :=
  let versionChanged :=
    match services s !! serviceId request with
    | Some existingService =>
        negb (String.eqb (svc_version existingService) (version request))
    | None => false
    end in
  let svcs :=
    upsert_service now (serviceId request) (version request) (baseUrl request)
      (services s) in
  let '(orphaned, runs) :=
    if versionChanged then
      List.fold_left
        (orphan_step now (version request) (List.map id (reg_tasks request)))
        (existing_task_ids (serviceId request) (tasks s))
        ([], task_runs s)
    else ([], task_runs s) in
  let '(ts, hist, changes) :=
    List.fold_left (upsert_task now (serviceId request) (version request))
      (reg_tasks request) (tasks s, task_code_history s, []) in
  ({| success := true; codeChanges := changes;
      orphanedTasks := match orphaned with [] => None | _ => Some orphaned end |},
   {| tasks := ts; task_runs := runs; pipelines := pipelines s;
      pipeline_runs := pipeline_runs s; dlq := dlq s;
      idempotency_cache := idempotency_cache s;
      task_code_history := hist; services := svcs;
      maintenance_state := maintenance_state s; minted := minted s |}).

(** [getTask]: the stored definition, if any. *)
Definition getTask (taskId : string) (s : Store) : option TaskDef :=
  tasks s !! taskId.

End ServiceRegistry.

(** ** PipelineValidator (pipeline/validator.ts) *)

Module PipelineValidator.

Record TaskNode : Type := {
  taskId : string;
  allowedNext : list string;
  serviceId : string
}.

(** The fields of [ValidationResult] that decide acceptance; the
    warnings (disconnected parts, depth) never enter [valid]. *)
Record ValidationResult : Type := {
  valid : bool;
  errors : list string;
  entryTasks : list string;
  endTasks : list string;
  graph : list TaskNode
}.

Definition includes (l : list string) (x : string) : bool :=
  List.existsb (String.eqb x) l.

(** [SELECT id, service_id, allowed_next FROM tasks WHERE id = ANY($1)]. *)
Definition loadTasks (taskIds : list string) (s : Store) : list TaskNode :=
  match taskIds with
  | [] => []
  | _ =>
      List.map
        (fun kv => {| taskId := fst kv; allowedNext := t_allowed_next (snd kv);
                      serviceId := t_service_id (snd kv) |})
        (List.filter (fun kv => includes taskIds (fst kv)) (map_to_list (tasks s)))
  end.

Definition has (g : list TaskNode) (nodeId : string) : bool :=
  List.existsb (fun n => String.eqb (taskId n) nodeId) g.

Definition get (g : list TaskNode) (nodeId : string) : option TaskNode :=
  List.find (fun n => String.eqb (taskId n) nodeId) g.

Record DfsState : Type := {
  visited : list string;
  recursionStack : list string;
  cycles : list (list string)
}.

(** [path.slice(path.indexOf(nodeId))]; an index of -1 selects the
    last element. *)
Fixpoint slice_from (nodeId : string) (path : list string) : list string :=
  match path with
  | [] => []
  | x :: rest =>
      if String.eqb x nodeId then path
      else match rest with
           | [] => [x]
           | _ => slice_from nodeId rest
           end
  end.

(** The inner [dfs] of [detectCycles].  Every nested call runs on a
    node that was just pushed on the recursion stack, so the nesting
    depth never exceeds the number of nodes plus one; [fuel] bounds
    that depth. *)
Fixpoint dfs (fuel : nat) (g : list TaskNode) (nodeId : string)
    (path : list string) (st : DfsState) : DfsState :=
  match fuel with
  | O => st
  | S fuel' =>
      if includes (recursionStack st) nodeId then
        {| visited := visited st; recursionStack := recursionStack st;
           cycles := cycles st ++ [slice_from nodeId path ++ [nodeId]] |}
      else if includes (visited st) nodeId then st
      else
        let st1 := {| visited := visited st ++ [nodeId];
                      recursionStack := recursionStack st ++ [nodeId];
                      cycles := cycles st |} in
        let st2 :=
          match get g nodeId with
          | Some node =>
              List.fold_left
                (fun acc nextId =>
                   if has g nextId then dfs fuel' g nextId (path ++ [nodeId]) acc
                   else acc)
                (allowedNext node) st1
          | None => st1
          end in
        {| visited := visited st2;
           recursionStack :=
             List.filter (fun x => negb (String.eqb x nodeId)) (recursionStack st2);
           cycles := cycles st2 |}
  end.

Definition detectCycles (g : list TaskNode) : list (list string) :=
  cycles
    (List.fold_left
       (fun st n =>
          if includes (visited st) (taskId n) then st
          else dfs (S (S (List.length g))) g (taskId n) [] st)
       g {| visited := []; recursionStack := []; cycles := [] |}).

Definition entryNodes (g : list TaskNode) : list string :=
  let hasIncoming := List.concat (List.map allowedNext g) in
  List.filter (fun x => negb (includes hasIncoming x)) (List.map taskId g).

Definition endNodes (g : list TaskNode) : list string :=
  List.map taskId
    (List.filter (fun n => Nat.eqb (List.length (allowedNext n)) 0) g).

Fixpoint join (sep : string) (l : list string) : string :=
  match l with
  | [] => EmptyString
  | [x] => x
  | x :: rest => x +:+ sep +:+ join sep rest
  end.

Definition validatePipeline (taskIds : list string) (s : Store) : ValidationResult :=
  let g := loadTasks taskIds s in
  let missingTasks := List.filter (fun x => negb (has g x)) taskIds in
  match missingTasks with
  | _ :: _ =>
      {| valid := false;
         errors := ["Tasks not found: " +:+ join ", " missingTasks];
         entryTasks := []; endTasks := []; graph := g |}
  | [] =>
      let refErrors :=
        List.concat
          (List.map
             (fun n =>
                List.map
                  (fun nextId =>
                     "Task '" +:+ taskId n +:+ "' references non-existent task '"
                     +:+ nextId +:+ "' in allowedNext")
                  (List.filter (fun nextId => negb (has g nextId)) (allowedNext n)))
             g) in
      let cycleErrors :=
        List.map (fun c => "Cycle detected: " +:+ join " -> " c) (detectCycles g) in
      let entryErrors :=
        match entryNodes g with
        | [] => ["Pipeline has no entry tasks (tasks with no predecessors)"]
        | _ => []
        end in
      let errs := refErrors ++ cycleErrors ++ entryErrors in
      {| valid := Nat.eqb (List.length errs) 0;
         errors := errs;
         entryTasks := entryNodes g; endTasks := endNodes g; graph := g |}
  end.

End PipelineValidator.

(** ** PipelineExecutor (pipeline/executor.ts) *)

Module PipelineExecutor.

Record TriggerPipelineOptions : Type := {
  pipelineId : string;
  input : Json;
  failureMode : option FailureMode;
  priority : option Z;
  metadata : option Json
}.

Record PipelineRunInfo : Type := {
  pipelineRunId : string;
  info_pipelineId : string;
  status : PipelineStatus;
  inputPath : string;
  entryTaskIds : list string;
  queuedTasks : list string
}.

Definition includes (l : list string) (x : string) : bool :=
  List.existsb (String.eqb x) l.

Definition with_pipeline_runs
    (f : gmap string PipelineRun -> gmap string PipelineRun) (s : Store) : Store :=
  {| tasks := tasks s; task_runs := task_runs s; pipelines := pipelines s;
     pipeline_runs := f (pipeline_runs s); dlq := dlq s;
     idempotency_cache := idempotency_cache s;
     task_code_history := task_code_history s; services := services s;
     maintenance_state := maintenance_state s; minted := minted s |}.

(** [UPDATE pipeline_runs SET status = $2, completed_at = NOW()]. *)
Definition finished_run (now : Time) (st : PipelineStatus) (r : PipelineRun)
    : PipelineRun :=
  {| pr_pipeline_id := pr_pipeline_id r;
     pr_pipeline_version := pr_pipeline_version r;
     pr_structure_snapshot := pr_structure_snapshot r;
     pr_status := st;
     pr_input_path := pr_input_path r;
     pr_failure_mode := pr_failure_mode r;
     pr_created_at := pr_created_at r;
     pr_completed_at := Some now;
     pr_metadata := pr_metadata r |}.

(** The loop over [Object.entries(structure_snapshot)] shared by
    [isJoinTaskReady] and [buildUpstreamRefs]. *)
Definition predecessorsOf (taskId : string) (snapshot : gmap string (list string))
    : list string :=
  List.map fst
    (List.filter (fun kv => includes (snd kv) taskId) (map_to_list snapshot)).

(** [pipeline_run_id = $1 AND task_id = ANY($2) AND status = 'completed']. *)
Definition completed_upstream (pipelineRunId : string) (predecessors : list string)
    (r : TaskRun) : bool :=
  in_pipeline_run pipelineRunId r
  && includes predecessors (tr_task_id r)
  && has_status completed r.

Definition isJoinTaskReady (taskId pipelineRunId : string) (s : Store) : bool :=
  match pipeline_runs s !! pipelineRunId with
  | None => false
  | Some pipelineRun =>
      let predecessors := predecessorsOf taskId (pr_structure_snapshot pipelineRun) in
      match predecessors with
      | [] => true
      | [_] => true
      | _ =>
          let count :=
            count_where (completed_upstream pipelineRunId predecessors) (task_runs s) in
          count =? Z.of_nat (List.length predecessors)
      end
  end.

(** [ORDER BY completed_at DESC]: nulls sort first, ties keep their
    table order. *)
Definition later (a b : TaskRun) : bool :=
  match tr_completed_at a, tr_completed_at b with
  | None, _ => true
  | Some _, None => false
  | Some x, Some y => y <=? x
  end.

Definition buildUpstreamRefs (taskId pipelineRunId : string) (s : Store)
    : gmap string UpstreamRef :=
  match pipeline_runs s !! pipelineRunId with
  | None => ∅
  | Some pipelineRun =>
      let predecessors := predecessorsOf taskId (pr_structure_snapshot pipelineRun) in
      match predecessors with
      | [] => ∅
      | _ =>
          let upstreamRuns :=
            QueueManager.order_by later
              (List.filter (completed_upstream pipelineRunId predecessors)
                 (task_runs s)) in
          List.fold_left
            (fun upstreamRefs run =>
               if truthy (tr_output_path run) then
                 <[tr_task_id run :=
                     {| outputPath := default EmptyString (tr_output_path run);
                        assets := default "{}" (tr_assets run) |}]> upstreamRefs
               else upstreamRefs)
            upstreamRuns ∅
      end
  end.

Definition active_in (pipelineRunId : string) (r : TaskRun) : bool :=
  in_pipeline_run pipelineRunId r
  && (has_status pending r || has_status running r || has_status waiting r).

Definition failed_in (pipelineRunId : string) (r : TaskRun) : bool :=
  in_pipeline_run pipelineRunId r
  && (has_status failed r || has_status timeout r || has_status cancelled r).

Definition checkPipelineCompletion (now : Time) (pipelineRunId : string) (s : Store)
    : Store :=
  match pipeline_runs s !! pipelineRunId with
  | None => s
  | Some pipelineRun =>
      match pr_status pipelineRun with
      | prun_running =>
          if 0 <? count_where (active_in pipelineRunId) (task_runs s) then s
          else
            let hasFailures :=
              0 <? count_where (failed_in pipelineRunId) (task_runs s) in
            with_pipeline_runs
              (alter (finished_run now
                        (if hasFailures then prun_failed else prun_completed))
                 pipelineRunId) s
      | _ => s
      end
  end.

Definition handleTaskFailure (now : Time) (taskRunId : string) (s : Store) : Store :=
  match find_run taskRunId s with
  | None => s
  | Some taskRun =>
      if truthy (tr_pipeline_run_id taskRun) then
        let pipelineRunId := default EmptyString (tr_pipeline_run_id taskRun) in
        match pipeline_runs s !! pipelineRunId with
        | None => s
        | Some pipelineRun =>
            match pr_failure_mode pipelineRun with
            | fail_fast =>
                with_pipeline_runs (alter (finished_run now prun_failed) pipelineRunId)
                  (with_task_runs
                     (update_where
                        (fun r => in_pipeline_run pipelineRunId r && has_status pending r)
                        (cancelled_row now "Pipeline failed in fail-fast mode"))
                     s)
            | continue => checkPipelineCompletion now pipelineRunId s
            end
        end
      else s
  end.

Section Enqueueing.

Context (nanoid : nat -> string).

(** The body of the [for (const nextTaskId of nextTaskIds)] loop. *)
Definition queueOne (now : Time) (pipelineRunId : string) (inherited : Z)
    (acc : list string * Store) (nextTaskId : string)
    : result (list string * Store) :=
  let '(queued, s) := acc in
  if isJoinTaskReady nextTaskId pipelineRunId s then
    let upstreamRefs := buildUpstreamRefs nextTaskId pipelineRunId s in
    '(queuedTask, s') ←
      QueueManager.enqueue nanoid now
        {| QueueManager.taskId := nextTaskId;
           QueueManager.input := "{}";
           QueueManager.priority := Some inherited;
           QueueManager.pipelineRunId := Some pipelineRunId;
           QueueManager.upstreamRefs := Some upstreamRefs;
           QueueManager.metadata := None;
           QueueManager.idempotencyKey := None;
           QueueManager.scheduledFor := None |} s;
    Ok (queued ++ [QueueManager.q_runId queuedTask], s')
  else Ok (queued, s).

(** The loop itself.  When an [enqueue] throws, the model reports the
    error only; which of the rows enqueued before it survive is left
    open. *)
Fixpoint queueAll (now : Time) (pipelineRunId : string) (inherited : Z)
    (nextTaskIds : list string) (acc : list string * Store)
    : result (list string * Store) :=
  match nextTaskIds with
  | [] => Ok acc
  | nextTaskId :: rest =>
      acc' ← queueOne now pipelineRunId inherited acc nextTaskId;
      queueAll now pipelineRunId inherited rest acc'
  end.

Definition queueDownstreamTasks (now : Time) (completedTaskRunId : string)
    (selectedNext : option (list string)) (s : Store)
    : result (list string * Store) :=
  match find_run completedTaskRunId s with
  | None => Throw ("Task run '" +:+ completedTaskRunId +:+ "' not found")
  | Some taskRun =>
      if truthy (tr_pipeline_run_id taskRun) then
        let pipelineRunId := default EmptyString (tr_pipeline_run_id taskRun) in
        match tasks s !! tr_task_id taskRun with
        | None => Throw ("Task '" +:+ tr_task_id taskRun +:+ "' not found")
        | Some task =>
            let nextTaskIds :=
              match selectedNext with
              | Some ((_ :: _) as sel) =>
                  List.filter (includes (t_allowed_next task)) sel
              | _ => t_allowed_next task
              end in
            match nextTaskIds with
            | [] => Ok ([], checkPipelineCompletion now pipelineRunId s)
            | _ =>
                queueAll now pipelineRunId (tr_priority taskRun) nextTaskIds ([], s)
            end
        end
      else Ok ([], s)
  end.

(** The row written by [INSERT INTO pipeline_runs]. *)
Definition new_pipeline_run (now : Time) (options : TriggerPipelineOptions)
    (pipeline : Pipeline) (inputPath : string) : PipelineRun :=
  (* the destructuring default: [failureMode = 'fail-fast'] *)
  let failureMode : option FailureMode :=
    Some (default fail_fast (failureMode options)) in
  {| pr_pipeline_id := pipelineId options;
     pr_pipeline_version := p_version pipeline;
     pr_structure_snapshot := p_structure pipeline;
     pr_status := prun_running;
     pr_input_path := inputPath;
     (* [failureMode ?? pipeline.failure_mode] *)
     pr_failure_mode := default (p_failure_mode pipeline) failureMode;
     pr_created_at := now;
     pr_completed_at := None;
     pr_metadata := default "{}" (metadata options) |}.

Fixpoint queueEntryTasks (now : Time) (options : TriggerPipelineOptions)
    (pipelineRunId : string) (entry : list string) (acc : list string * Store)
    : result (list string * Store) :=
  match entry with
  | [] => Ok acc
  | taskId :: rest =>
      '(queued, s') ←
        QueueManager.enqueue nanoid now
          {| QueueManager.taskId := taskId;
             QueueManager.input := input options;
             QueueManager.priority := priority options;
             QueueManager.pipelineRunId := Some pipelineRunId;
             QueueManager.upstreamRefs := None;
             QueueManager.metadata := metadata options;
             QueueManager.idempotencyKey := None;
             QueueManager.scheduledFor := None |} (snd acc);
      queueEntryTasks now options pipelineRunId rest
        (fst acc ++ [QueueManager.q_runId queued], s')
  end.

(** When a step throws, the model reports the error only; which of
    the writes made so far survive is left open. *)
Definition triggerPipeline (now : Time) (options : TriggerPipelineOptions)
    (s : Store) : result (PipelineRunInfo * Store) :=
  match pipelines s !! pipelineId options with
  | None => Throw ("Pipeline '" +:+ pipelineId options +:+ "' not found")
  | Some pipeline =>
      let validation :=
        PipelineValidator.validatePipeline (p_entry_tasks pipeline) s in
      if PipelineValidator.valid validation then
        let pipelineRunId := "prun_" +:+ nanoid (minted s) in
        let inputPath := "runs/" +:+ pipelineRunId +:+ "/input.json" in
        let s1 :=
          {| tasks := tasks s; task_runs := task_runs s; pipelines := pipelines s;
             pipeline_runs :=
               <[pipelineRunId := new_pipeline_run now options pipeline inputPath]>
                 (pipeline_runs s);
             dlq := dlq s; idempotency_cache := idempotency_cache s;
             task_code_history := task_code_history s; services := services s;
             maintenance_state := maintenance_state s; minted := S (minted s) |} in
        '(queued, s2) ←
          queueEntryTasks now options pipelineRunId (p_entry_tasks pipeline) ([], s1);
        Ok ({| pipelineRunId := pipelineRunId;
               info_pipelineId := pipelineId options;
               status := prun_running;
               inputPath := inputPath;
               entryTaskIds := p_entry_tasks pipeline;
               queuedTasks := queued |}, s2)
      else
        Throw ("Pipeline validation failed: "
               +:+ PipelineValidator.join ", " (PipelineValidator.errors validation))
  end.

End Enqueueing.

End PipelineExecutor.

(** ** PipelineGraph (pipeline/graph.ts) *)

Module PipelineGraph.

(** The graph is the validator's [Map<string, TaskNode>], kept as the
    list of its nodes in insertion order, each under its own [taskId].
    The reverse graph is a [Map<string, Set<string>>]: an association
    list in insertion order whose sets are lists without repetition, in
    insertion order too. *)
Definition ReverseGraph : Type := list (string * list string).

Definition includes (l : list string) (x : string) : bool :=
  List.existsb (String.eqb x) l.

Definition rev_has (reverse : ReverseGraph) (key : string) : bool :=
  List.existsb (fun kv => String.eqb (fst kv) key) reverse.

Definition rev_get (reverse : ReverseGraph) (key : string) : option (list string) :=
  snd <$> List.find (fun kv => String.eqb (fst kv) key) reverse.

(** [if (!reverse.has(key)) reverse.set(key, new Set())]. *)
Definition rev_ensure (reverse : ReverseGraph) (key : string) : ReverseGraph :=
  if rev_has reverse key then reverse else reverse ++ [(key, [])].

(** [reverse.get(key)!.add(value)]. *)
Definition rev_add (reverse : ReverseGraph) (key value : string) : ReverseGraph :=
  List.map
    (fun kv =>
       if String.eqb (fst kv) key
       then (fst kv, if includes (snd kv) value then snd kv else snd kv ++ [value])
       else kv)
    reverse.

Definition buildReverseGraph (graph : list PipelineValidator.TaskNode) : ReverseGraph :=
  let initial :=
    List.fold_left (fun reverse node => rev_ensure reverse (PipelineValidator.taskId node))
      graph [] in
  List.fold_left
    (fun reverse node =>
       List.fold_left
         (fun reverse nextId =>
            rev_add (rev_ensure reverse nextId) nextId (PipelineValidator.taskId node))
         (PipelineValidator.allowedNext node) reverse)
    graph initial.

(** [this.reverseGraph.get(taskId) ?? new Set()]. *)
Definition predecessors (graph : list PipelineValidator.TaskNode) (taskId : string)
    : list string :=
  default [] (rev_get (buildReverseGraph graph) taskId).

Definition isReadyToRun (graph : list PipelineValidator.TaskNode) (taskId : string)
    (completedTasks : gset string) : bool :=
  match predecessors graph taskId with
  | [] => true
  | preds => List.forallb (fun predId => bool_decide (predId ∈ completedTasks)) preds
  end.

Definition getNextRunnableTasks (graph : list PipelineValidator.TaskNode)
    (completedTasks : gset string) : list string :=
  List.filter
    (fun taskId =>
       negb (bool_decide (taskId ∈ completedTasks))
       && isReadyToRun graph taskId completedTasks)
    (List.map PipelineValidator.taskId graph).

Definition findJoinTasks (graph : list PipelineValidator.TaskNode) : list string :=
  List.map fst
    (List.filter (fun kv => Nat.ltb 1 (List.length (snd kv))) (buildReverseGraph graph)).

(** [getDownstreamTasks]: the breadth-first loop.  [downstream] and
    [visited] are sets kept in insertion order.  Nodes are expanded on
    their first visit only, so the loop body runs at most once per queue
    entry and the queue receives at most one entry per edge; [fuel]
    bounds the number of iterations. *)
Fixpoint downstream_loop (fuel : nat) (graph : list PipelineValidator.TaskNode)
    (queue downstream visited : list string) : list string :=
  match fuel, queue with
  | S fuel', currentId :: rest =>
      if includes visited currentId
      then downstream_loop fuel' graph rest downstream visited
      else
        match PipelineValidator.get graph currentId with
        | Some task =>
            downstream_loop fuel' graph
              (rest ++ PipelineValidator.allowedNext task)
              (List.fold_left
                 (fun acc nextId => if includes acc nextId then acc else acc ++ [nextId])
                 (PipelineValidator.allowedNext task) downstream)
              (visited ++ [currentId])
        | None => downstream_loop fuel' graph rest downstream (visited ++ [currentId])
        end
  | _, _ => downstream
  end.

Definition edge_count (graph : list PipelineValidator.TaskNode) : nat :=
  List.length (List.concat (List.map PipelineValidator.allowedNext graph)).

Definition getDownstreamTasks (graph : list PipelineValidator.TaskNode)
    (taskId : string) : list string :=
  downstream_loop (S (edge_count graph)) graph [taskId] [] [].

End PipelineGraph.

(** ** The readiness rule in the specification's words *)

Module Spec.

(** A completed task run of task [pred] in the pipeline run. *)
Definition completed_of (pipelineRunId pred : string) (r : TaskRun) : bool :=
  in_pipeline_run pipelineRunId r
  && String.eqb (tr_task_id r) pred
  && has_status completed r.

(** A join task is ready when every predecessor in the structure
    snapshot has at least one task run with status [completed] in the
    same pipeline run. *)
Definition every_predecessor_completed (taskId pipelineRunId : string) (s : Store)
    : bool :=
  match pipeline_runs s !! pipelineRunId with
  | None => false
  | Some pipelineRun =>
      List.forallb
        (fun pred => List.existsb (completed_of pipelineRunId pred) (task_runs s))
        (PipelineExecutor.predecessorsOf taskId (pr_structure_snapshot pipelineRun))
  end.

(** The most recent completed run of [predTaskId] in the pipeline
    run: the one with the greatest [completed_at]. *)
Definition latest_completed (predTaskId pipelineRunId : string) (s : Store)
    : option TaskRun :=
  List.fold_left
    (fun best r =>
       if completed_of pipelineRunId predTaskId r
       then match best with
            | None => Some r
            | Some b =>
                if default 0 (tr_completed_at b) <? default 0 (tr_completed_at r)
                then Some r else best
            end
       else best)
    (task_runs s) None.

(** The status progression the data model prescribes: [pending] to
    [running] or [cancelled]; [running] to [completed], [failed] or
    [timeout]; a terminal status back to [pending]. *)
Definition allowed (from to : Status) : bool :=
  match from, to with
  | pending, running | pending, cancelled => true
  | running, completed | running, failed | running, timeout => true
  | completed, pending | failed, pending | timeout, pending
  | cancelled, pending => true
  | _, _ => false
  end.

End Spec.

(** ** The operations that move a task run between statuses *)

Module Lifecycle.

Inductive Op : Type :=
| MarkRunning (runId : string)
| MarkCompleted (runId outputPath : string) (outputSize : option Z)
    (assets : option Json) (logsPath : option string)
| MarkFailed (runId error : string) (errorCode : option string)
| ScheduleRetry (options : RetryManager.RetryOptions)
| HeartbeatTimeout (runId : string).

(** The run an operation addresses. *)
Definition target (op : Op) : string :=
  match op with
  | MarkRunning runId => runId
  | MarkCompleted runId _ _ _ _ => runId
  | MarkFailed runId _ _ => runId
  | ScheduleRetry options => RetryManager.runId options
  | HeartbeatTimeout runId => runId
  end.

(** An operation that throws leaves the store as it was. *)
Definition apply
    (other_date : Time -> RetryManager.RetryOptions -> result (option Time))
    (now : Time) (op : Op) (ms : HeartbeatMonitor.Monitor * Store)
    : HeartbeatMonitor.Monitor * Store :=
  match op with
  | MarkRunning runId => (fst ms, QueueManager.markRunning now runId (snd ms))
  | MarkCompleted runId outputPath outputSize assets logsPath =>
      (fst ms,
       QueueManager.markCompleted now runId outputPath outputSize assets logsPath
         (snd ms))
  | MarkFailed runId error errorCode =>
      (fst ms, QueueManager.markFailed now runId error errorCode (snd ms))
  | ScheduleRetry options =>
      match RetryManager.scheduleRetry other_date now options (snd ms) with
      | Ok (_, s') => (fst ms, s')
      | Throw _ => ms
      end
  | HeartbeatTimeout runId => HeartbeatMonitor.handleTimeout now runId ms
  end.

(** What [queueDownstreamTasks] hands back and what it leaves in
    [task_runs]. *)
Definition queued_and_runs (r : result (list string * Store))
    : result (list string * list TaskRun) :=
  match r with
  | Ok (queued, s) => Ok (queued, task_runs s)
  | Throw msg => Throw msg
  end.

(** Two stores that [queueDownstreamTasks] cannot tell apart: they
    agree on everything it reads except the status, timestamps and
    failure mode of pipeline runs. *)
Definition same_queue_view (s s' : Store) : Prop :=
  tasks s = tasks s'
  /\ task_runs s = task_runs s'
  /\ idempotency_cache s = idempotency_cache s'
  /\ minted s = minted s'
  /\ forall p, (pr_structure_snapshot <$> pipeline_runs s !! p)
               = (pr_structure_snapshot <$> pipeline_runs s' !! p).

End Lifecycle.

(** ** Concrete executions *)

Module Scenario.

(** Identifiers are handed out as "0", "1", "2", ... *)
Definition nanoid (n : nat) : string := NilZero.string_of_uint (Nat.to_uint n).

Definition task_def (allowed_next : list string) (retries concurrency : Z) : TaskDef :=
  {| t_service_id := "svc"; t_code_hash := "0123456789abcdef"; t_code_version := 1;
     t_allowed_next := allowed_next; t_timeout_seconds := 300; t_retries := retries;
     t_retry_backoff := exponential; t_retry_delay_ms := 100;
     t_max_retry_delay_ms := 10000; t_heartbeat_interval_ms := 60000;
     t_concurrency := concurrency; t_priority := 100;
     t_idempotency_ttl_seconds := None; t_description := None;
     t_registered_at := 0; t_updated_at := 0 |}.

Definition empty_store : Store :=
  {| tasks := ∅; task_runs := []; pipelines := ∅; pipeline_runs := ∅; dlq := [];
     idempotency_cache := ∅; task_code_history := []; services := ∅;
     maintenance_state := mode_running; minted := 0 |}.

Definition with_tasks (ts : gmap string TaskDef) (s : Store) : Store :=
  {| tasks := ts; task_runs := task_runs s; pipelines := pipelines s;
     pipeline_runs := pipeline_runs s; dlq := dlq s;
     idempotency_cache := idempotency_cache s;
     task_code_history := task_code_history s; services := services s;
     maintenance_state := maintenance_state s; minted := minted s |}.

Definition request (taskId : string) (pipelineRunId key : option string)
    : QueueManager.QueueTaskOptions :=
  {| QueueManager.taskId := taskId; QueueManager.input := "{}";
     QueueManager.priority := None; QueueManager.pipelineRunId := pipelineRunId;
     QueueManager.upstreamRefs := None; QueueManager.metadata := None;
     QueueManager.idempotencyKey := key; QueueManager.scheduledFor := None |}.

(** The store a step leaves behind; a step that throws leaves it as
    it was. *)
Definition after {A} (r : result (A * Store)) (s : Store) : Store :=
  match r with
  | Ok (_, s') => s'
  | Throw _ => s
  end.

Definition returned {A} (r : result (A * Store)) : option A :=
  match r with
  | Ok (a, _) => Some a
  | Throw _ => None
  end.

(** A database that rejects every date
    [RetryManager.scheduled_date] leaves to it. *)
Definition strict_dates (_ : Time) (_ : RetryManager.RetryOptions)
    : result (option Time) :=
  Throw "invalid input syntax for type timestamp".

Definition always_up (_ : QueueManager.PendingTask) : option string := None.
Definition always_down (_ : QueueManager.PendingTask) : option string := Some "E1".

Definition running_run (snapshot : gmap string (list string)) (mode : FailureMode)
    : PipelineRun :=
  {| pr_pipeline_id := "P"; pr_pipeline_version := "1.0.0";
     pr_structure_snapshot := snapshot; pr_status := prun_running;
     pr_input_path := "runs/prun_x/input.json"; pr_failure_mode := mode;
     pr_created_at := 0; pr_completed_at := None; pr_metadata := "{}" |}.

(** What the examples show of a task run. *)
Definition summary (r : TaskRun) : string * string * Status :=
  (tr_id r, tr_task_id r, tr_status r).

(** *** The diamond A -> {B, C} -> D *)

Definition diamond : gmap string (list string) :=
  <["A" := ["B"; "C"]]> (<["B" := ["D"]]> (<["C" := ["D"]]> (<["D" := []]> ∅))).

Definition diamond_tasks : gmap string TaskDef :=
  <["A" := task_def ["B"; "C"] 3 0]> (<["B" := task_def ["D"] 3 0]>
    (<["C" := task_def ["D"] 3 0]> (<["D" := task_def [] 3 0]> ∅))).

Definition diamond0 : Store :=
  PipelineExecutor.with_pipeline_runs
    (fun _ => <["prun_x" := running_run diamond continue]> ∅)
    (with_tasks diamond_tasks empty_store).

(** A is enqueued, runs and completes; its completion is reported
    twice, so B and C are each enqueued twice. *)
Definition diamond1 : Store :=
  let s := after (QueueManager.enqueue nanoid 1000 (request "A" (Some "prun_x") None)
                    diamond0) diamond0 in
  let s := QueueManager.markRunning 1100 "trun_0" s in
  let s := QueueManager.markCompleted 2000 "trun_0" "oA" None None None s in
  let s := after (PipelineExecutor.queueDownstreamTasks nanoid 2000 "trun_0" None s) s in
  after (PipelineExecutor.queueDownstreamTasks nanoid 2100 "trun_0" None s) s.

(** The first run of B completes. *)
Definition diamond2 : Store :=
  let s := QueueManager.markRunning 3000 "trun_1" diamond1 in
  let s := QueueManager.markRunning 3000 "trun_2" s in
  let s := QueueManager.markRunning 3000 "trun_3" s in
  QueueManager.markCompleted 4000 "trun_1" "oB1" None None None s.

(** The second run of B completes; C is still running. *)
Definition diamond3 : Store :=
  QueueManager.markCompleted 5000 "trun_3" "oB2" None None None
    (after (PipelineExecutor.queueDownstreamTasks nanoid 4000 "trun_1" None diamond2)
       diamond2).

(** C completes as well. *)
Definition diamond4 : Store :=
  QueueManager.markCompleted 6000 "trun_2" "oC" None None None diamond3.

(** *** Retry then dead-letter queue: task X with [retries = 2] *)

Definition retry0 : Store :=
  with_tasks (<["X" := task_def [] 2 0]> ∅) empty_store.

Definition retry1 : Store :=
  after (QueueManager.enqueue nanoid 1000 (request "X" None None) retry0) retry0.

(** The first dispatch fails at time 2000, the second at time 3000. *)
Definition retry2 : HeartbeatMonitor.Monitor * Store :=
  snd (TaskPoller.poll nanoid always_down strict_dates 2000 10
         (HeartbeatMonitor.empty, retry1)).

Definition retry3 : HeartbeatMonitor.Monitor * Store :=
  snd (TaskPoller.poll nanoid always_down strict_dates 3000 10 retry2).

(** *** Concurrency: task T with [concurrency = 1] and three pending runs *)

Definition capped0 : Store :=
  let s := with_tasks (<["T" := task_def [] 3 1]> ∅) empty_store in
  let s := after (QueueManager.enqueue nanoid 1000 (request "T" None None) s) s in
  let s := after (QueueManager.enqueue nanoid 1001 (request "T" None None) s) s in
  after (QueueManager.enqueue nanoid 1002 (request "T" None None) s) s.

Definition capped1 : HeartbeatMonitor.Monitor * Store :=
  snd (TaskPoller.poll nanoid always_up strict_dates 2000 10
         (HeartbeatMonitor.empty, capped0)).

(** *** A pipeline with a single task, defined with failure mode [continue] *)

Definition solo_pipeline : Pipeline :=
  {| p_name := "solo"; p_entry_tasks := ["A"]; p_structure := <["A" := []]> ∅;
     p_version := "1.0.0"; p_failure_mode := continue |}.

Definition solo0 : Store :=
  let s := with_tasks (<["A" := task_def [] 3 0]> ∅) empty_store in
  {| tasks := tasks s; task_runs := task_runs s;
     pipelines := <["P" := solo_pipeline]> ∅;
     pipeline_runs := pipeline_runs s; dlq := dlq s;
     idempotency_cache := idempotency_cache s;
     task_code_history := task_code_history s; services := services s;
     maintenance_state := maintenance_state s; minted := minted s |}.

Definition solo_trigger : PipelineExecutor.TriggerPipelineOptions :=
  {| PipelineExecutor.pipelineId := "P"; PipelineExecutor.input := "{}";
     PipelineExecutor.failureMode := None; PipelineExecutor.priority := None;
     PipelineExecutor.metadata := None |}.

(** *** Fail-fast: A -> {B, C, F}, C -> E *)

Definition fork : gmap string (list string) :=
  <["A" := ["B"; "C"; "F"]]> (<["B" := []]> (<["C" := ["E"]]>
    (<["E" := []]> (<["F" := []]> ∅)))).

Definition fork_tasks : gmap string TaskDef :=
  <["A" := task_def ["B"; "C"; "F"] 0 0]> (<["B" := task_def [] 0 0]>
    (<["C" := task_def ["E"] 0 0]> (<["E" := task_def [] 0 0]>
      (<["F" := task_def [] 0 0]> ∅)))).

Definition failfast0 : Store :=
  PipelineExecutor.with_pipeline_runs
    (fun _ => <["prun_x" := running_run fork fail_fast]> ∅)
    (with_tasks fork_tasks empty_store).

(** A completes; B, C and F are enqueued; B and C start, F stays
    pending. *)
Definition failfast1 : Store :=
  let s := after (QueueManager.enqueue nanoid 1000 (request "A" (Some "prun_x") None)
                    failfast0) failfast0 in
  let s := QueueManager.markRunning 1100 "trun_0" s in
  let s := QueueManager.markCompleted 2000 "trun_0" "oA" None None None s in
  let s := after (PipelineExecutor.queueDownstreamTasks nanoid 2000 "trun_0" None s) s in
  let s := QueueManager.markRunning 2100 "trun_1" s in
  QueueManager.markRunning 2100 "trun_2" s.

(** B fails and the failure is handled. *)
Definition failfast2 : Store :=
  PipelineExecutor.handleTaskFailure 3000 "trun_1"
    (QueueManager.markFailed 3000 "trun_1" "boom" None failfast1).

(** C, which was running all along, completes. *)
Definition failfast3 : Store :=
  QueueManager.markCompleted 4000 "trun_2" "oC" None None None failfast2.

(** *** Idempotent payment *)

Definition cache_row (taskRunId outputPath : string) (expires : Time) : CacheRow :=
  {| ic_task_id := "pay"; ic_task_run_id := taskRunId; ic_code_version := 1;
     ic_output_path := outputPath; ic_output_size := None; ic_assets := None;
     ic_cached_at := 0; ic_expires_at := expires |}.

Definition pay0 : Store :=
  let s := with_tasks (<["pay" := task_def [] 3 0]> ∅) empty_store in
  {| tasks := tasks s; task_runs := task_runs s; pipelines := pipelines s;
     pipeline_runs := pipeline_runs s; dlq := dlq s;
     idempotency_cache :=
       <["v1-o1" := cache_row "trun_first" "o_pay" 3600000]>
         (<[EmptyString := cache_row "trun_blank" "o_blank" 3600000]> ∅);
     task_code_history := task_code_history s; services := services s;
     maintenance_state := maintenance_state s; minted := minted s |}.

(** *** Registration *)

Definition registration (taskId description : string)
    : ServiceRegistry.TaskRegistration :=
  {| ServiceRegistry.id := taskId; ServiceRegistry.allowedNext := None;
     ServiceRegistry.timeout := None; ServiceRegistry.retries := None;
     ServiceRegistry.retryBackoff := None; ServiceRegistry.retryDelayMs := None;
     ServiceRegistry.maxRetryDelayMs := None;
     ServiceRegistry.heartbeatIntervalMs := None;
     ServiceRegistry.concurrency := None; ServiceRegistry.priority := None;
     ServiceRegistry.idempotencyTTL := None;
     ServiceRegistry.description := Some description |}.

Definition register_tasks (l : list ServiceRegistry.TaskRegistration)
    : ServiceRegistry.RegisterServiceRequest :=
  {| ServiceRegistry.serviceId := "svc"; ServiceRegistry.version := "1.0.0";
     ServiceRegistry.baseUrl := "http://worker:8080"; ServiceRegistry.reg_tasks := l |}.

(** The same task id listed twice with different descriptions. *)
Definition twice_listed : ServiceRegistry.RegisterServiceRequest :=
  register_tasks [registration "t" "first"; registration "t" "second"].

Definition two_tasks : ServiceRegistry.RegisterServiceRequest :=
  register_tasks [registration "t" "first"; registration "u" "second"].

(** *** A staged pipeline: the single entry task A hands over to B and C *)

Definition staged_pipeline : Pipeline :=
  {| p_name := "staged"; p_entry_tasks := ["A"]; p_structure := diamond;
     p_version := "1.0.0"; p_failure_mode := fail_fast |}.

Definition staged0 : Store :=
  let s := with_tasks diamond_tasks empty_store in
  {| tasks := tasks s; task_runs := task_runs s;
     pipelines := <["P" := staged_pipeline]> ∅;
     pipeline_runs := pipeline_runs s; dlq := dlq s;
     idempotency_cache := idempotency_cache s;
     task_code_history := task_code_history s; services := services s;
     maintenance_state := maintenance_state s; minted := minted s |}.

End Scenario.

(** * Properties *)

(** ** Basic facts *)

Lemma Status_eqb_eq (a b : Status) : Status_eqb a b = true <-> a = b.
Proof. destruct a, b; simpl; split; intros H; try reflexivity; discriminate H. Qed.

Lemma Status_eqb_refl (a : Status) : Status_eqb a a = true.
Proof. destruct a; reflexivity. Qed.

Lemma task_runs_onTaskStatusChange (s : Store) :
  task_runs (onTaskStatusChange s) = task_runs s.
Proof.
  unfold onTaskStatusChange.
  destruct (maintenance_state s); try reflexivity.
  destruct (_ && _); reflexivity.
Qed.

(** The standard test vectors for one and for two message blocks. *)
Example sha256_abc :
  SHA256.hexdigest "abc"
  = "ba7816bf8f01cfea414140de5dae2223b00361a396177a9cb410ff61f20015ad".
Proof. vm_compute. reflexivity. Qed.

Example sha256_empty :
  SHA256.hexdigest EmptyString
  = "e3b0c44298fc1c149afbf4c8996fb92427ae41e4649b934ca495991b7852b855".
Proof. vm_compute. reflexivity. Qed.

Example sha256_two_blocks :
  SHA256.hexdigest "abcdbcdecdefdefgefghfghighijhijkijkljklmklmnlmnomnopnopq"
  = "248d6a61d20638b8e5c026930c3e6039a33ce45964ff2167f6ecedd419db06c1".
Proof. vm_compute. reflexivity. Qed.

(** ** Join readiness *)

Lemma map_is_fmap {A B} (f : A -> B) (l : list A) : List.map f l = f <$> l.
Proof. induction l as [|a l IH]; [reflexivity|]. simpl. rewrite IH. reflexivity. Qed.

Lemma NoDup_map_fst_filter {A B} (f : A * B -> bool) (l : list (A * B)) :
  List.NoDup (List.map fst l) -> List.NoDup (List.map fst (List.filter f l)).
Proof.
  induction l as [|x l IH]; simpl; intros H; [constructor|].
  inversion H as [|? ? Hx Hl]; subst.
  destruct (f x); simpl; [|auto].
  constructor; [|auto].
  intros Hin. apply Hx.
  apply List.in_map_iff in Hin as (y & Hy & Hin).
  apply List.filter_In in Hin as [Hin _].
  apply List.in_map_iff. eauto.
Qed.

Lemma predecessorsOf_NoDup (taskId : string) (snapshot : gmap string (list string)) :
  List.NoDup (PipelineExecutor.predecessorsOf taskId snapshot).
Proof.
  unfold PipelineExecutor.predecessorsOf. apply NoDup_map_fst_filter.
  rewrite map_is_fmap. apply NoDup_ListNoDup. apply NoDup_fst_map_to_list.
Qed.


Lemma filter_length_disjoint {A} (P Q : A -> bool) (l : list A) :
  (forall x, In x l -> P x && Q x = false) ->
  List.length (List.filter (fun x => P x || Q x) l)
  = (List.length (List.filter P l) + List.length (List.filter Q l))%nat.
Proof.
  induction l as [|x l IH]; simpl; intros H; [reflexivity|].
  pose proof (H x (or_introl eq_refl)) as Hx.
  specialize (IH (fun y Hy => H y (or_intror Hy))).
  destruct (P x), (Q x); simpl in *; try discriminate; lia.
Qed.

Lemma completed_upstream_count (p : string) (rows : list TaskRun) (preds : list string) :
  List.NoDup preds ->
  List.length (List.filter (PipelineExecutor.completed_upstream p preds) rows)
  = List.fold_right
      (fun pred n => (List.length (List.filter (Spec.completed_of p pred) rows) + n)%nat)
      0%nat preds.
Proof.
  induction preds as [|x preds IH]; intros Hnd; simpl.
  - induction rows as [|r rows IHr]; simpl; [reflexivity|].
    unfold PipelineExecutor.completed_upstream at 1. simpl.
    rewrite andb_false_r. simpl. exact IHr.
  - inversion Hnd as [|? ? Hx Hnd']; subst.
    rewrite <- IH by exact Hnd'.
    rewrite <- filter_length_disjoint.
    + f_equal. apply List.filter_ext. intros r.
      unfold PipelineExecutor.completed_upstream, Spec.completed_of,
        PipelineExecutor.includes. simpl.
      destruct (in_pipeline_run p r), (String.eqb (tr_task_id r) x),
        (has_status completed r); simpl; try reflexivity;
        rewrite ?andb_true_r, ?andb_false_r; reflexivity.
    + intros r _. unfold Spec.completed_of, PipelineExecutor.completed_upstream.
      destruct (String.eqb (tr_task_id r) x) eqn:E;
        [|rewrite andb_false_r; reflexivity].
      apply String.eqb_eq in E. rewrite E.
      assert (PipelineExecutor.includes preds x = false) as ->.
      { apply not_true_is_false. intros Hinc.
        apply List.existsb_exists in Hinc as (y & Hy & Heq).
        apply String.eqb_eq in Heq. subst y. contradiction. }
      rewrite andb_false_r, andb_false_l, andb_false_r. reflexivity.
Qed.

Lemma sum_at_most_length (g : string -> nat) (l : list string) :
  (forall x, In x l -> (g x <= 1)%nat) ->
  (List.fold_right (fun x n => (g x + n)%nat) 0%nat l <= List.length l)%nat.
Proof.
  induction l as [|x l IH]; simpl; intros H; [lia|].
  pose proof (H x (or_introl eq_refl)).
  specialize (IH (fun y Hy => H y (or_intror Hy))). lia.
Qed.

Lemma sum_full (g : string -> nat) (l : list string) :
  (forall x, In x l -> (g x <= 1)%nat) ->
  List.fold_right (fun x n => (g x + n)%nat) 0%nat l = List.length l
  <-> forall x, In x l -> (1 <= g x)%nat.
Proof.
  induction l as [|x l IH]; simpl; intros H.
  - split; [intros _ y []|reflexivity].
  - pose proof (H x (or_introl eq_refl)) as Hx.
    pose proof (sum_at_most_length g l (fun y Hy => H y (or_intror Hy))) as Hle.
    specialize (IH (fun y Hy => H y (or_intror Hy))).
    split.
    + intros Hsum y [<-|Hy]; [lia|]. apply IH; [lia|exact Hy].
    + intros Hall. pose proof (Hall x (or_introl eq_refl)).
      assert (List.fold_right (fun x n => (g x + n)%nat) 0%nat l = List.length l)
        by (apply IH; intros y Hy; apply Hall; right; exact Hy).
      lia.
Qed.

Lemma existsb_filter_length {A} (f : A -> bool) (l : list A) :
  List.existsb f l = true <-> (1 <= List.length (List.filter f l))%nat.
Proof.
  induction l as [|x l IH]; simpl; [split; [discriminate|lia]|].
  destruct (f x); simpl; [split; [lia|reflexivity]|exact IH].
Qed.

(** Where the row count and the per-predecessor rule coincide: for a
    join task none of whose predecessors has completed more than once
    in the pipeline run, [isJoinTaskReady] answers exactly whether every
    predecessor has a completed run. *)
Lemma join_ready_agrees_when_completions_unique (taskId p : string) (s : Store)
    (run : PipelineRun) :
  pipeline_runs s !! p = Some run ->
  (2 <= List.length
          (PipelineExecutor.predecessorsOf taskId (pr_structure_snapshot run)))%nat ->
  (forall pred,
      In pred (PipelineExecutor.predecessorsOf taskId (pr_structure_snapshot run)) ->
      count_where (Spec.completed_of p pred) (task_runs s) <= 1) ->
  PipelineExecutor.isJoinTaskReady taskId p s
  = Spec.every_predecessor_completed taskId p s.
Proof.
  intros Hrun Hjoin Huniq.
  unfold PipelineExecutor.isJoinTaskReady, Spec.every_predecessor_completed.
  rewrite Hrun.
  set (preds := PipelineExecutor.predecessorsOf taskId (pr_structure_snapshot run)) in *.
  assert (Hcount :
    (count_where (PipelineExecutor.completed_upstream p preds) (task_runs s)
     =? Z.of_nat (List.length preds))
    = List.forallb
        (fun pred => List.existsb (Spec.completed_of p pred) (task_runs s)) preds).
  { unfold count_where.
    rewrite (completed_upstream_count p (task_runs s) preds)
      by apply predecessorsOf_NoDup.
    apply eq_true_iff_eq.
    rewrite Z.eqb_eq, Nat2Z.inj_iff, List.forallb_forall.
    rewrite (sum_full
               (fun pred => List.length
                              (List.filter (Spec.completed_of p pred) (task_runs s)))).
    - split; intros H x Hx; apply existsb_filter_length; apply H; exact Hx.
    - intros x Hx. specialize (Huniq x Hx). unfold count_where in Huniq. lia. }
  destruct preds as [|a [|b rest]]; simpl in Hjoin; try lia.
  exact Hcount.
Qed.

(** C1.  Join readiness as the code computes it is a count of completed
    rows, not a check per predecessor.  In the diamond A -> {B, C} -> D,
    once B has completed twice while C is still running, D has two
    completed predecessor rows: [isJoinTaskReady] answers true and
    [queueDownstreamTasks] enqueues D although C has no completed run.
    Once C completes too there are three such rows and D is no longer
    ready although every predecessor has completed. *)
Theorem C1_join_readiness_counts_rows :
  List.map Scenario.summary (task_runs Scenario.diamond3)
  = [("trun_0", "A", completed); ("trun_1", "B", completed);
     ("trun_2", "C", running); ("trun_3", "B", completed);
     ("trun_4", "C", pending)]
  /\ Spec.every_predecessor_completed "D" "prun_x" Scenario.diamond3 = false
  /\ PipelineExecutor.isJoinTaskReady "D" "prun_x" Scenario.diamond3 = true
  /\ List.map Scenario.summary
       (task_runs
          (Scenario.after
             (PipelineExecutor.queueDownstreamTasks Scenario.nanoid 5000 "trun_3" None
                Scenario.diamond3)
             Scenario.diamond3))
     = [("trun_0", "A", completed); ("trun_1", "B", completed);
        ("trun_2", "C", running); ("trun_3", "B", completed);
        ("trun_4", "C", pending); ("trun_5", "D", pending)]
  /\ Spec.every_predecessor_completed "D" "prun_x" Scenario.diamond4 = true
  /\ PipelineExecutor.isJoinTaskReady "D" "prun_x" Scenario.diamond4 = false.
Proof. repeat split; vm_compute; reflexivity. Qed.

(** ** Upstream references *)

(** C4.  [buildUpstreamRefs] reads the completed runs latest first and
    lets each one overwrite the entry of its task, so the entry that
    remains is the one of the earliest completion.  B completed at 4000
    with output oB1 and again at 5000 with output oB2; the reference
    handed to D is oB1. *)
Theorem C4_upstream_refs_keep_earliest_completion :
  (tr_id <$> Spec.latest_completed "B" "prun_x" Scenario.diamond3) = Some "trun_3"
  /\ (tr_output_path <$> Spec.latest_completed "B" "prun_x" Scenario.diamond3)
     = Some (Some "oB2")
  /\ PipelineExecutor.buildUpstreamRefs "D" "prun_x" Scenario.diamond3 !! "B"
     = Some {| outputPath := "oB1"; assets := "{}" |}
  /\ List.map (fun r => (tr_id r, tr_upstream_refs r !! "B"))
       (List.filter (fun r => String.eqb (tr_task_id r) "D")
          (task_runs
             (Scenario.after
                (PipelineExecutor.queueDownstreamTasks Scenario.nanoid 5000 "trun_3"
                   None Scenario.diamond3)
                Scenario.diamond3)))
     = [("trun_5", Some {| outputPath := "oB1"; assets := "{}" |})].
Proof. repeat split; vm_compute; reflexivity. Qed.

(** ** Retries *)

(** C3.  With [maxRetries = 2] the second failure already ends the run.
    The first failure (at time 2000) schedules attempt 2 for
    2000 + 100; at the second failure [attempt = 2] is not below
    [maxRetries = 2], so the poller sends the run to the dead-letter
    queue and marks it failed.  No third attempt is scheduled (its
    delay would have been the 200 the backoff formula gives) and
    [previous_attempts] holds a single entry. *)
Theorem C3_retries_exhausted_at_second_failure :
  List.map (fun r => (tr_status r, tr_attempt r, tr_scheduled_for r,
                      List.map ar_attempt (tr_previous_attempts r)))
    (task_runs (snd Scenario.retry2))
  = [(pending, 2, Some 2100, [1])]
  /\ (forall other_date now s error errorCode,
        RetryManager.scheduleRetry other_date now
          {| RetryManager.runId := "trun_0"; RetryManager.taskId := "X";
             RetryManager.attempt := 2; RetryManager.maxRetries := 2;
             RetryManager.retryBackoff := exponential;
             RetryManager.retryDelayMs := 100;
             RetryManager.maxRetryDelayMs := 10000;
             RetryManager.error := error; RetryManager.errorCode := errorCode |} s
        = Ok (false, s))
  /\ (forall error errorCode,
        RetryManager.calculateDelay
          {| RetryManager.runId := "trun_0"; RetryManager.taskId := "X";
             RetryManager.attempt := 2; RetryManager.maxRetries := 2;
             RetryManager.retryBackoff := exponential;
             RetryManager.retryDelayMs := 100;
             RetryManager.maxRetryDelayMs := 10000;
             RetryManager.error := error; RetryManager.errorCode := errorCode |}
        = 200)
  /\ List.map (fun r => (tr_status r, tr_attempt r, tr_error r,
                         List.map ar_attempt (tr_previous_attempts r)))
       (task_runs (snd Scenario.retry3))
     = [(failed, 2, Some "E1", [1])]
  /\ List.map (fun d => (dlq_task_run_id d, dlq_attempts d)) (dlq (snd Scenario.retry3))
     = [("trun_0", 2)].
Proof. repeat split; vm_compute; reflexivity. Qed.

(** ** Concurrency *)

Lemma insert_by_In (le : TaskRun -> TaskRun -> bool) (x y : TaskRun)
    (l : list TaskRun) :
  In y (QueueManager.insert_by le x l) <-> y = x \/ In y l.
Proof.
  induction l as [|z l IH]; simpl.
  - intuition.
  - destruct (le z x); simpl; rewrite ?IH; intuition.
Qed.

Lemma order_by_In (le : TaskRun -> TaskRun -> bool) (l : list TaskRun) (y : TaskRun) :
  In y (QueueManager.order_by le l) <-> In y l.
Proof.
  unfold QueueManager.order_by.
  assert (H : forall acc, In y (List.fold_left
                (fun acc x => QueueManager.insert_by le x acc) l acc)
              <-> In y acc \/ In y l).
  { induction l as [|x l IH]; intros acc; simpl; [intuition|].
    rewrite IH, insert_by_In. intuition. }
  rewrite H. simpl. intuition.
Qed.

(** What [getNext] may return: rows of [task_runs] that are pending,
    due, and whose task is uncapped or has fewer running runs than its
    cap at the time of the query. *)
Lemma getNext_returns_eligible (now : Time) (limit : Z) (s : Store)
    (claimed : list QueueManager.PendingTask) :
  QueueManager.getNext now limit s = Ok claimed ->
  forall task, In task claimed ->
    exists r, In r (task_runs s)
              /\ task = QueueManager.toPendingTask r
              /\ QueueManager.eligible now s r = true.
Proof.
  unfold QueueManager.getNext. destruct (limit <? 0); [discriminate|].
  intros [= <-] task Hin.
  apply List.in_map_iff in Hin as (r & <- & Hin).
  assert (Hall : In r (QueueManager.order_by QueueManager.before
                         (List.filter (QueueManager.eligible now s) (task_runs s)))).
  { rewrite <- (List.firstn_skipn (Z.to_nat limit)). apply List.in_or_app. left.
    exact Hin. }
  clear Hin. rename Hall into Hin. apply order_by_In in Hin.
  apply List.filter_In in Hin as [Hin Hel].
  exists r. auto.
Qed.

(** C5.  [getNext] compares the number of running runs with the cap
    once for the whole batch.  Task T has [concurrency = 1], nothing
    running and three pending runs: all three are returned by one
    [getNext], the poller marks each of them running, and three runs of
    T are running at once. *)
Theorem C5_one_batch_exceeds_the_cap :
  (t_concurrency <$> tasks Scenario.capped0 !! "T") = Some 1
  /\ QueueManager.running_count (task_runs Scenario.capped0) "T" = 0
  /\ (match QueueManager.getNext 2000 10 Scenario.capped0 with
      | Ok claimed => List.map QueueManager.pt_runId claimed
      | Throw _ => []
      end) = ["trun_0"; "trun_1"; "trun_2"]
  /\ List.map Scenario.summary (task_runs (snd Scenario.capped1))
     = [("trun_0", "T", running); ("trun_1", "T", running); ("trun_2", "T", running)]
  /\ QueueManager.running_count (task_runs (snd Scenario.capped1)) "T" = 3.
Proof. repeat split; vm_compute; reflexivity. Qed.

(** ** Bulk updates *)

Lemma update_where_length (cond : TaskRun -> bool) (upd : TaskRun -> TaskRun)
    (rows : list TaskRun) :
  List.length (update_where cond upd rows) = List.length rows.
Proof. unfold update_where. apply List.length_map. Qed.

Lemma update_where_Forall2 (cond : TaskRun -> bool) (upd : TaskRun -> TaskRun)
    (rows : list TaskRun) :
  List.Forall2 (fun r r' => r' = if cond r then upd r else r)
    rows (update_where cond upd rows).
Proof.
  induction rows as [|r rows IH]; simpl; constructor; auto.
Qed.

Lemma update_where_none (cond : TaskRun -> bool) (upd : TaskRun -> TaskRun)
    (rows : list TaskRun) :
  (forall r, In r rows -> cond r = false) -> update_where cond upd rows = rows.
Proof.
  induction rows as [|r rows IH]; simpl; intros H; [reflexivity|].
  rewrite (H r) by (left; reflexivity).
  f_equal. apply IH. intros r' Hr'. apply H. right. exact Hr'.
Qed.

(** ** Heartbeat timeout *)

Lemma js_scaled_finite (z : Z) :
  - 2 ^ 1024 < z < 2 ^ 1024 -> js_scaled z = JsInt z.
Proof.
  intros H. unfold js_scaled.
  destruct (2 ^ 1024 <=? z) eqn:E1; [lia|].
  destruct (z <=? - 2 ^ 1024) eqn:E2; [lia|]. reflexivity.
Qed.

Lemma armed_delay_scaled (z : Z) :
  HeartbeatMonitor.armed_delay (js_scaled z)
  = if (1 <=? z) && (z <=? 2147483647) then JsInt z else JsInt 1.
Proof.
  assert (Hbig : 2147483647 < 2 ^ 1024) by (vm_compute; reflexivity).
  unfold js_scaled. set (big := 2 ^ 1024) in *.
  destruct (big <=? z) eqn:E1.
  - simpl. destruct (1 <=? z) eqn:E2; simpl; [|reflexivity].
    destruct (z <=? 2147483647) eqn:E3; [lia|reflexivity].
  - destruct (z <=? - big) eqn:E2.
    + simpl. destruct (1 <=? z) eqn:E3; [lia|reflexivity].
    + reflexivity.
Qed.

(** C9 (counterexample).  A heartbeat interval of [2 ^ 30] ms asks for
    a timeout of [2 ^ 31] ms, one more than the timers of the runtime
    take: the tracker records [2 ^ 31], but the timer is armed for
    1 ms, not for twice the interval.  The timer of an interval of 0 is
    armed for 1 ms as well. *)
Lemma C9_counterexample_interval_beyond_the_timer_range :
  let armed heartbeatIntervalMs :=
    HeartbeatMonitor.startTracking 2000 "trun_0" "T" heartbeatIntervalMs
      HeartbeatMonitor.empty in
  (HeartbeatMonitor.timeoutMs
     <$> HeartbeatMonitor.trackers (armed 1073741824) !! "trun_0")
  = Some (JsInt 2147483648)
  /\ HeartbeatMonitor.timers (armed 1073741824) !! 0%nat
     = Some {| HeartbeatMonitor.timer_runId := "trun_0";
               HeartbeatMonitor.timer_delay := JsInt 1;
               HeartbeatMonitor.timer_armed_at := 2000 |}
  /\ HeartbeatMonitor.timers (armed 0) !! 0%nat
     = Some {| HeartbeatMonitor.timer_runId := "trun_0";
               HeartbeatMonitor.timer_delay := JsInt 1;
               HeartbeatMonitor.timer_armed_at := 2000 |}.
Proof. cbv zeta. repeat split; vm_compute; reflexivity. Qed.

(** C9 (amended).  [startTracking] stores the tracker under the handle
    of the timer it arms.  When twice the heartbeat interval lies
    between 1 ms and [2 ^ 31 - 1] ms, the delays the timers of the
    runtime take, the tracker records that timeout and the timer is
    armed with exactly that delay.  When the timer fires, the
    run it was armed for is rewritten to status [timeout] with error
    "Task heartbeat timeout", code "TIMEOUT" and [completed_at = now]
    if its status is [running]; every row in any other status, and
    every other run, is left as it was.  Whatever the monitor holds,
    [handleTimeout] changes no row that is not a running row of that
    run. *)
Theorem C9_heartbeat_timeout_only_from_running
    (now : Time) (runId taskId : string) (heartbeatIntervalMs : Z)
    (m : HeartbeatMonitor.Monitor) :
  let armed := HeartbeatMonitor.startTracking now runId taskId heartbeatIntervalMs m in
  let handle := HeartbeatMonitor.next_handle m in
  (1 <= 2 * heartbeatIntervalMs <= 2147483647 ->
   (HeartbeatMonitor.timeoutMs <$> HeartbeatMonitor.trackers armed !! runId)
   = Some (JsInt (2 * heartbeatIntervalMs))
   /\ HeartbeatMonitor.timers armed !! handle
      = Some {| HeartbeatMonitor.timer_runId := runId;
                HeartbeatMonitor.timer_delay := JsInt (2 * heartbeatIntervalMs);
                HeartbeatMonitor.timer_armed_at := now |})
  /\ (HeartbeatMonitor.timeoutHandle <$> HeartbeatMonitor.trackers armed !! runId)
     = Some handle
  /\ (forall (fired : Time) (s : Store),
        List.Forall2
          (fun r r' =>
             if has_id runId r && has_status running r
             then r' = HeartbeatMonitor.timeout_row fired r
                  /\ tr_status r' = timeout
                  /\ tr_error r' = Some "Task heartbeat timeout"
                  /\ tr_error_code r' = Some "TIMEOUT"
                  /\ tr_completed_at r' = Some fired
             else r' = r)
          (task_runs s)
          (task_runs (snd (HeartbeatMonitor.fire fired handle (armed, s)))))
  /\ (forall (fired : Time) (other : HeartbeatMonitor.Monitor) (s : Store),
        List.Forall2
          (fun r r' =>
             r' = r
             \/ (tr_id r = runId /\ tr_status r = running
                 /\ r' = HeartbeatMonitor.timeout_row fired r))
          (task_runs s)
          (task_runs (snd (HeartbeatMonitor.handleTimeout fired runId (other, s))))).
Proof.
  cbv zeta.
  assert (Hbig : 2147483647 < 2 ^ 1024) by (vm_compute; reflexivity).
  unfold HeartbeatMonitor.startTracking; simpl.
  rewrite !lookup_insert_eq. simpl.
  rewrite armed_delay_scaled.
  replace (heartbeatIntervalMs * 2) with (2 * heartbeatIntervalMs) by lia.
  split; [|split; [|split]].
  - intros Hrange. rewrite js_scaled_finite by lia.
    assert ((1 <=? 2 * heartbeatIntervalMs)
            && (2 * heartbeatIntervalMs <=? 2147483647) = true) as ->
      by (apply andb_true_iff; lia).
    auto.
  - reflexivity.
  - intros fired s.
    unfold HeartbeatMonitor.fire. simpl.
    eapply List.Forall2_impl; [|apply update_where_Forall2].
    intros r r' ->. simpl.
    destruct (has_id runId r && has_status running r); auto.
  - intros fired other s.
    unfold HeartbeatMonitor.handleTimeout.
    destruct (HeartbeatMonitor.trackers other !! runId); simpl.
    + eapply List.Forall2_impl; [|apply update_where_Forall2].
      intros r r' ->. simpl.
      destruct (has_id runId r && has_status running r) eqn:E; auto.
      right. apply andb_true_iff in E as [E1 E2].
      apply String.eqb_eq in E1. apply Status_eqb_eq in E2. auto.
    + clear. induction (task_runs s); constructor; auto.
Qed.

(** C9 (witness).  A heartbeat interval of one minute: the timer is
    armed for two minutes. *)
Lemma C9_witness_interval_of_one_minute :
  HeartbeatMonitor.timers
    (HeartbeatMonitor.startTracking 2000 "trun_0" "T" 60000 HeartbeatMonitor.empty)
    !! 0%nat
  = Some {| HeartbeatMonitor.timer_runId := "trun_0";
            HeartbeatMonitor.timer_delay := JsInt 120000;
            HeartbeatMonitor.timer_armed_at := 2000 |}.
Proof.
  refine (proj2 (proj1 (C9_heartbeat_timeout_only_from_running
                          2000 "trun_0" "T" 60000 HeartbeatMonitor.empty) _)).
  lia.
Defined.


(** ** Enqueue *)

Lemma enqueue_without_key (nanoid : nat -> string) (now : Time)
    (options : QueueManager.QueueTaskOptions) (s : Store) (task : TaskDef) :
  tasks s !! QueueManager.taskId options = Some task ->
  QueueManager.idempotencyKey options = None ->
  let runId := "trun_" +:+ nanoid (minted s) in
  let inputPath := QueueManager.inputPathFor (QueueManager.pipelineRunId options) runId in
  QueueManager.enqueue nanoid now options s
  = Ok ({| QueueManager.q_runId := runId;
           QueueManager.q_taskId := QueueManager.taskId options;
           QueueManager.q_status := pending;
           QueueManager.q_inputPath := inputPath |},
        QueueManager.insert_run
          (QueueManager.new_run now options task runId inputPath) s).
Proof.
  intros Ht Hk. unfold QueueManager.enqueue. rewrite Ht, Hk. reflexivity.
Qed.

(** ** Validation *)

Lemma has_loadTasks_registered (taskIds : list string) (s : Store) (x : string) :
  PipelineValidator.has (PipelineValidator.loadTasks taskIds s) x = true ->
  is_Some (tasks s !! x).
Proof.
  unfold PipelineValidator.has, PipelineValidator.loadTasks.
  destruct taskIds as [|t0 rest]; [discriminate|].
  rewrite List.existsb_exists. intros [n [Hin Heq]].
  apply String.eqb_eq in Heq. subst x.
  apply List.in_map_iff in Hin as [[k d] [<- Hin]].
  apply List.filter_In in Hin as [Hin _]. simpl.
  apply list_elem_of_In in Hin. apply elem_of_map_to_list in Hin.
  rewrite Hin. eauto.
Qed.

Lemma valid_entry_tasks_registered (taskIds : list string) (s : Store) :
  PipelineValidator.valid (PipelineValidator.validatePipeline taskIds s) = true ->
  forall x, In x taskIds -> is_Some (tasks s !! x).
Proof.
  unfold PipelineValidator.validatePipeline.
  destruct (List.filter _ taskIds) as [|y ys] eqn:Hmissing; [|discriminate].
  intros _ x Hx.
  apply has_loadTasks_registered with (taskIds := taskIds).
  destruct (PipelineValidator.has (PipelineValidator.loadTasks taskIds s) x) eqn:E;
    [reflexivity|].
  assert (Hin : In x (List.filter
            (fun x =>
               negb (PipelineValidator.has (PipelineValidator.loadTasks taskIds s) x))
            taskIds)).
  { apply List.filter_In. split; [exact Hx|]. rewrite E. reflexivity. }
  rewrite Hmissing in Hin. destruct Hin.
Qed.

(** ** Triggering a pipeline *)

Lemma queueEntryTasks_registered (nanoid : nat -> string) (now : Time)
    (options : PipelineExecutor.TriggerPipelineOptions) (pipelineRunId : string)
    (entry : list string) :
  forall (acc : list string * Store),
    (forall x, In x entry -> is_Some (tasks (snd acc) !! x)) ->
    exists queued s',
      PipelineExecutor.queueEntryTasks nanoid now options pipelineRunId entry acc
      = Ok (queued, s')
      /\ pipeline_runs s' = pipeline_runs (snd acc)
      /\ tasks s' = tasks (snd acc).
Proof.
  induction entry as [|taskId rest IH]; intros [ids s] Hreg; simpl in *.
  - eauto.
  - destruct (Hreg taskId) as [task Htask]; [left; reflexivity|].
    erewrite enqueue_without_key by (simpl; eauto). simpl.
    edestruct IH as (queued & s' & -> & Hruns & Htasks).
    2: { exists queued, s'. split; [reflexivity|]. simpl in *. split; assumption. }
    simpl. intros x Hx. apply Hreg. right. exact Hx.
Qed.

(** C10.  A trigger that supplies no [failureMode] creates a run whose
    failure mode is fail-fast, whatever the pipeline definition says:
    for a stored pipeline that passes validation the call returns, and
    the run it inserted carries [fail_fast].  For every call the stored
    mode is the option's value or else fail-fast; the definition's
    [failure_mode] is never read. *)
Theorem C10_trigger_defaults_to_fail_fast
    (nanoid : nat -> string) (now : Time)
    (options : PipelineExecutor.TriggerPipelineOptions) (s : Store)
    (pipeline : Pipeline) :
  PipelineExecutor.failureMode options = None ->
  pipelines s !! PipelineExecutor.pipelineId options = Some pipeline ->
  PipelineValidator.valid
    (PipelineValidator.validatePipeline (p_entry_tasks pipeline) s) = true ->
  (exists info s',
     PipelineExecutor.triggerPipeline nanoid now options s = Ok (info, s')
     /\ PipelineExecutor.pipelineRunId info = "prun_" +:+ nanoid (minted s)
     /\ (pr_failure_mode <$> pipeline_runs s' !! PipelineExecutor.pipelineRunId info)
        = Some fail_fast)
  /\ (forall now' options' pipeline' inputPath,
        pr_failure_mode
          (PipelineExecutor.new_pipeline_run now' options' pipeline' inputPath)
        = default fail_fast (PipelineExecutor.failureMode options')).
Proof.
  intros Hmode Hp Hvalid. split; [|reflexivity].
  unfold PipelineExecutor.triggerPipeline. rewrite Hp, Hvalid.
  pose proof (valid_entry_tasks_registered _ _ Hvalid) as Hreg.
  match goal with
  | |- context [PipelineExecutor.queueEntryTasks _ _ _ ?p ?e ?acc] =>
      destruct (queueEntryTasks_registered nanoid now options p e acc)
        as (queued & s' & Hq & Hruns & _)
  end.
  { simpl. exact Hreg. }
  rewrite Hq. simpl.
  eexists _, _. split; [reflexivity|]. simpl. split; [reflexivity|].
  rewrite Hruns. simpl. rewrite lookup_insert_eq. simpl.
  unfold PipelineExecutor.new_pipeline_run. simpl. rewrite Hmode. reflexivity.
Qed.

(** ** Idempotent enqueue *)

(** C6 (counterexample).  A live cache entry is not enough for the
    fast path.  The store [pay0] caches ["v1-o1"] and the empty key,
    both unexpired at time 1000.  An enqueue for the unregistered task
    ["ghost"] carrying ["v1-o1"] throws before the cache is consulted;
    an enqueue for ["pay"] carrying the empty key skips the cache and
    inserts a new pending run. *)
Lemma C6_counterexample_live_entry_not_served :
  (IdempotencyManager.taskRunId
     <$> IdempotencyManager.checkIdempotency 1000 "v1-o1" Scenario.pay0)
  = Some "trun_first"
  /\ QueueManager.enqueue Scenario.nanoid 1000
       (Scenario.request "ghost" None (Some "v1-o1")) Scenario.pay0
     = Throw "Task 'ghost' not found"
  /\ (IdempotencyManager.taskRunId
        <$> IdempotencyManager.checkIdempotency 1000 EmptyString Scenario.pay0)
     = Some "trun_blank"
  /\ (QueueManager.q_status
        <$> Scenario.returned
              (QueueManager.enqueue Scenario.nanoid 1000
                 (Scenario.request "pay" None (Some EmptyString)) Scenario.pay0))
     = Some pending
  /\ List.map Scenario.summary
       (task_runs
          (Scenario.after
             (QueueManager.enqueue Scenario.nanoid 1000
                (Scenario.request "pay" None (Some EmptyString)) Scenario.pay0)
             Scenario.pay0))
     = [("trun_0", "pay", pending)].
Proof. repeat split; vm_compute; reflexivity. Qed.

(** C6 (amended).  For a registered task: when the call carries a
    non-empty idempotency key whose cache entry expires strictly after
    now, [enqueue] returns the cached run id and output path with status
    [completed] and leaves the store, hence [task_runs], unchanged; when
    every entry for a non-empty key it carries has expired (or there is
    no key, an empty key or no entry), it appends exactly one row, a
    pending run of the task with [attempt = 1], and returns its id. *)
Theorem C6_enqueue_serves_live_cache_entry
    (nanoid : nat -> string) (now : Time)
    (options : QueueManager.QueueTaskOptions) (s : Store) (task : TaskDef) :
  tasks s !! QueueManager.taskId options = Some task ->
  (forall key c,
      QueueManager.idempotencyKey options = Some key ->
      key <> EmptyString ->
      idempotency_cache s !! key = Some c ->
      now < ic_expires_at c ->
      QueueManager.enqueue nanoid now options s
      = Ok ({| QueueManager.q_runId := ic_task_run_id c;
               QueueManager.q_taskId := QueueManager.taskId options;
               QueueManager.q_status := completed;
               QueueManager.q_inputPath := ic_output_path c |}, s))
  /\ ((forall key c,
          QueueManager.idempotencyKey options = Some key ->
          key <> EmptyString ->
          idempotency_cache s !! key = Some c ->
          ic_expires_at c <= now) ->
      exists r s',
        QueueManager.enqueue nanoid now options s
        = Ok ({| QueueManager.q_runId := tr_id r;
                 QueueManager.q_taskId := QueueManager.taskId options;
                 QueueManager.q_status := pending;
                 QueueManager.q_inputPath := tr_input_path r |}, s')
        /\ task_runs s' = task_runs s ++ [r]
        /\ tr_task_id r = QueueManager.taskId options
        /\ tr_status r = pending
        /\ tr_attempt r = 1).
Proof.
  intros Htask. split.
  - intros key c Hkey Hne Hc Hlive.
    unfold QueueManager.enqueue. rewrite Htask, Hkey. simpl.
    apply String.eqb_neq in Hne. rewrite Hne. simpl.
    unfold IdempotencyManager.checkIdempotency. rewrite Hc.
    assert ((now <? ic_expires_at c) = true) as -> by (apply Z.ltb_lt; lia).
    reflexivity.
  - intros Hstale.
    assert (Hmiss :
      match QueueManager.idempotencyKey options with
      | Some key =>
          if truthy (QueueManager.idempotencyKey options)
          then IdempotencyManager.checkIdempotency now key s
          else None
      | None => None
      end = None).
    { destruct (QueueManager.idempotencyKey options) as [key|] eqn:Hkey; [|reflexivity].
      simpl. destruct (String.eqb key EmptyString) eqn:E; [reflexivity|]. simpl.
      apply String.eqb_neq in E.
      unfold IdempotencyManager.checkIdempotency.
      destruct (idempotency_cache s !! key) as [c|] eqn:Hc; [|reflexivity].
      pose proof (Hstale key c eq_refl E Hc) as Hexp.
      assert ((now <? ic_expires_at c) = false) as -> by (apply Z.ltb_ge; lia).
      reflexivity. }
    unfold QueueManager.enqueue. rewrite Htask, Hmiss.
    set (runId := "trun_" +:+ nanoid (minted s)).
    set (path := QueueManager.inputPathFor (QueueManager.pipelineRunId options) runId).
    exists (QueueManager.new_run now options task runId path),
           (QueueManager.insert_run
              (QueueManager.new_run now options task runId path) s).
    simpl. auto.
Qed.

(** C6 (witness).  The second enqueue of the idempotent-payment
    scenario: key
    ["v1-o1"] is cached for run [trun_first] with output [o_pay]. *)
Lemma C6_witness_cached_payment :
  QueueManager.enqueue Scenario.nanoid 1000
    (Scenario.request "pay" None (Some "v1-o1")) Scenario.pay0
  = Ok ({| QueueManager.q_runId := "trun_first"; QueueManager.q_taskId := "pay";
           QueueManager.q_status := completed;
           QueueManager.q_inputPath := "o_pay" |}, Scenario.pay0).
Proof.
  refine (proj1 (C6_enqueue_serves_live_cache_entry Scenario.nanoid 1000
                   (Scenario.request "pay" None (Some "v1-o1")) Scenario.pay0
                   (Scenario.task_def [] 3 0) _)
            "v1-o1" (Scenario.cache_row "trun_first" "o_pay" 3600000) _ _ _ _).
  - vm_compute. reflexivity.
  - reflexivity.
  - discriminate.
  - vm_compute. reflexivity.
  - simpl. lia.
Defined.

(** ** Status transitions *)

(** C8 (counterexample).  The run of task X is pending after enqueue.
    The poller marks it running and, when the dispatch fails, calls
    [scheduleRetry], which sets it back to pending with attempt 2: a
    transition from [running] straight to [pending], which the
    prescribed progression does not allow.  The store reached is the
    one the poll cycle itself leaves. *)
Lemma C8_counterexample_running_to_pending :
  let start := (HeartbeatMonitor.empty, Scenario.retry1) in
  let started :=
    Lifecycle.apply Scenario.strict_dates 2000 (Lifecycle.MarkRunning "trun_0") start in
  let retried :=
    Lifecycle.apply Scenario.strict_dates 2000
      (Lifecycle.ScheduleRetry
         {| RetryManager.runId := "trun_0"; RetryManager.taskId := "X";
            RetryManager.attempt := 1; RetryManager.maxRetries := 2;
            RetryManager.retryBackoff := exponential;
            RetryManager.retryDelayMs := 100;
            RetryManager.maxRetryDelayMs := 10000;
            RetryManager.error := "E1";
            RetryManager.errorCode := Some "DISPATCH_FAILED" |}) started in
  List.map tr_status (task_runs (snd start)) = [pending]
  /\ List.map tr_status (task_runs (snd started)) = [running]
  /\ List.map (fun r => (tr_status r, tr_attempt r)) (task_runs (snd retried))
     = [(pending, 2)]
  /\ snd retried = snd Scenario.retry2
  /\ Spec.allowed running pending = false.
Proof. cbv zeta. repeat split; vm_compute; reflexivity. Qed.

(** C8 (amended).  Each operation, applied to a run in the status from
    which the orchestrator moves on with it, makes one step of the
    progression and leaves every other run alone: [markRunning] takes
    a pending run to [running]; [markCompleted] and [markFailed] take
    a running run to [completed] and to [failed]; [scheduleRetry]
    takes a running run (the retry path of the poller) or a run in a
    terminal status back to [pending], with [attempt] one above the
    attempt it was given, both error fields cleared and the failed
    attempt appended to the history, and does nothing once
    [attempt >= maxRetries] or when the database rejects the date; the
    heartbeat timeout takes a tracked run to [timeout] from [running]
    and changes a run in no other status. *)
Theorem C8_operations_in_turn_follow_the_progression
    (other_date : Time -> RetryManager.RetryOptions -> result (option Time))
    (now : Time) (op : Lifecycle.Op) (m : HeartbeatMonitor.Monitor) (s : Store) :
  List.Forall2
    (fun r r' =>
       if has_id (Lifecycle.target op) r then
         match op with
         | Lifecycle.MarkRunning _ =>
             tr_status r = pending ->
             tr_status r' = running /\ tr_attempt r' = tr_attempt r
         | Lifecycle.MarkCompleted _ _ _ _ _ =>
             tr_status r = running ->
             tr_status r' = completed /\ tr_attempt r' = tr_attempt r
         | Lifecycle.MarkFailed _ _ _ =>
             tr_status r = running ->
             tr_status r' = failed /\ tr_attempt r' = tr_attempt r
         | Lifecycle.ScheduleRetry options =>
             tr_status r = running \/ Spec.allowed (tr_status r) pending = true ->
             if RetryManager.maxRetries options <=? RetryManager.attempt options
             then r' = r
             else match RetryManager.scheduled_date other_date now options with
                  | Ok _ =>
                      tr_status r' = pending
                      /\ tr_attempt r' = RetryManager.attempt options + 1
                      /\ tr_error r' = None
                      /\ tr_error_code r' = None
                      /\ List.map ar_attempt (tr_previous_attempts r')
                         = List.map ar_attempt (tr_previous_attempts r)
                           ++ [RetryManager.attempt options]
                  | Throw _ => r' = r
                  end
         | Lifecycle.HeartbeatTimeout runId =>
             if has_status running r
                && bool_decide (is_Some (HeartbeatMonitor.trackers m !! runId))
             then tr_status r' = timeout /\ tr_attempt r' = tr_attempt r
             else r' = r
         end
       else r' = r)
    (task_runs s)
    (task_runs (snd (Lifecycle.apply other_date now op (m, s)))).
Proof.
  assert (Hsame : forall (P : TaskRun -> TaskRun -> Prop),
            (forall r, P r r) -> List.Forall2 P (task_runs s) (task_runs s)).
  { intros P HP. apply Forall_Forall2_diag, List.Forall_forall. auto. }
  destruct op as [runId|runId outputPath outputSize assets logsPath
                 |runId error errorCode|options|runId]; simpl.
  - eapply List.Forall2_impl; [|apply update_where_Forall2].
    intros r r' ->. simpl. destruct (has_id runId r); auto.
  - unfold QueueManager.markCompleted. rewrite task_runs_onTaskStatusChange. simpl.
    eapply List.Forall2_impl; [|apply update_where_Forall2].
    intros r r' ->. simpl. destruct (has_id runId r); auto.
  - unfold QueueManager.markFailed. rewrite task_runs_onTaskStatusChange. simpl.
    eapply List.Forall2_impl; [|apply update_where_Forall2].
    intros r r' ->. simpl. destruct (has_id runId r); auto.
  - unfold RetryManager.scheduleRetry.
    destruct (RetryManager.maxRetries options <=? RetryManager.attempt options); simpl.
    + apply Hsame. intros r.
      destruct (has_id (RetryManager.runId options) r); auto.
    + destruct (RetryManager.scheduled_date other_date now options)
        as [scheduledFor|msg]; simpl.
      * eapply List.Forall2_impl; [|apply update_where_Forall2].
        intros r r' ->. simpl.
        destruct (has_id (RetryManager.runId options) r); auto.
        simpl. rewrite List.map_app. auto.
      * apply Hsame. intros r.
        destruct (has_id (RetryManager.runId options) r); auto.
  - unfold HeartbeatMonitor.handleTimeout.
    destruct (HeartbeatMonitor.trackers m !! runId) as [tracker|] eqn:Htr; simpl.
    + eapply List.Forall2_impl; [|apply update_where_Forall2].
      intros r r' ->. simpl.
      destruct (has_id runId r); simpl; [|reflexivity].
      destruct (has_status running r); simpl; [|reflexivity].
      auto.
    + apply Hsame. intros r.
      destruct (has_id runId r); [|reflexivity].
      rewrite andb_false_r. reflexivity.
Qed.

(** ** Fail-fast *)

Lemma task_runs_checkPipelineCompletion (now : Time) (p : string) (s : Store) :
  task_runs (PipelineExecutor.checkPipelineCompletion now p s) = task_runs s.
Proof.
  unfold PipelineExecutor.checkPipelineCompletion.
  destruct (pipeline_runs s !! p) as [run|]; [|reflexivity].
  destruct (pr_status run); try reflexivity.
  destruct (0 <? _); reflexivity.
Qed.

Lemma same_queue_view_refl (s : Store) : Lifecycle.same_queue_view s s.
Proof. repeat split. Qed.

Lemma same_queue_view_finished (t : Time) (st : PipelineStatus) (p : string) (s : Store) :
  Lifecycle.same_queue_view
    (PipelineExecutor.with_pipeline_runs
       (alter (PipelineExecutor.finished_run t st) p) s) s.
Proof.
  repeat split. intros q. simpl. rewrite lookup_alter.
  case_decide; [subst q|reflexivity].
  destruct (pipeline_runs s !! p); reflexivity.
Qed.

Lemma isJoinTaskReady_view (taskId p : string) (s s' : Store) :
  Lifecycle.same_queue_view s s' ->
  PipelineExecutor.isJoinTaskReady taskId p s
  = PipelineExecutor.isJoinTaskReady taskId p s'.
Proof.
  intros (_ & Hruns & _ & _ & Hsnap).
  unfold PipelineExecutor.isJoinTaskReady. specialize (Hsnap p).
  destruct (pipeline_runs s !! p) as [r|], (pipeline_runs s' !! p) as [r'|];
    simpl in Hsnap; try discriminate; [|reflexivity].
  injection Hsnap as ->. rewrite Hruns. reflexivity.
Qed.

Lemma buildUpstreamRefs_view (taskId p : string) (s s' : Store) :
  Lifecycle.same_queue_view s s' ->
  PipelineExecutor.buildUpstreamRefs taskId p s
  = PipelineExecutor.buildUpstreamRefs taskId p s'.
Proof.
  intros (_ & Hruns & _ & _ & Hsnap).
  unfold PipelineExecutor.buildUpstreamRefs. specialize (Hsnap p).
  destruct (pipeline_runs s !! p) as [r|], (pipeline_runs s' !! p) as [r'|];
    simpl in Hsnap; try discriminate; [|reflexivity].
  injection Hsnap as ->. rewrite Hruns. reflexivity.
Qed.

Lemma enqueue_view (nanoid : nat -> string) (now : Time)
    (options : QueueManager.QueueTaskOptions) (s s' : Store) :
  Lifecycle.same_queue_view s s' ->
  match QueueManager.enqueue nanoid now options s,
        QueueManager.enqueue nanoid now options s' with
  | Ok (q, s1), Ok (q', s1') => q = q' /\ Lifecycle.same_queue_view s1 s1'
  | Throw msg, Throw msg' => msg = msg'
  | _, _ => False
  end.
Proof.
  intros Hview. pose proof Hview as (Htasks & Hruns & Hcache & Hminted & Hsnap).
  unfold QueueManager.enqueue. rewrite <- Htasks.
  destruct (tasks s !! QueueManager.taskId options) as [task|]; [|reflexivity].
  unfold IdempotencyManager.checkIdempotency. rewrite <- Hcache.
  destruct (match QueueManager.idempotencyKey options with
            | Some key => _
            | None => None
            end) as [c|].
  - split; [reflexivity|exact Hview].
  - rewrite <- Hminted. split; [reflexivity|].
    unfold QueueManager.insert_run. repeat split; simpl; congruence.
Qed.

Lemma queueAll_view (nanoid : nat -> string) (now : Time) (p : string)
    (inherited : Z) (next : list string) :
  forall (ids : list string) (s s' : Store),
    Lifecycle.same_queue_view s s' ->
    Lifecycle.queued_and_runs
      (PipelineExecutor.queueAll nanoid now p inherited next (ids, s))
    = Lifecycle.queued_and_runs
        (PipelineExecutor.queueAll nanoid now p inherited next (ids, s')).
Proof.
  induction next as [|taskId rest IH]; intros ids s s' Hview; simpl.
  - destruct Hview as (_ & -> & _). reflexivity.
  - unfold PipelineExecutor.queueOne.
    rewrite <- (isJoinTaskReady_view taskId p s s' Hview).
    destruct (PipelineExecutor.isJoinTaskReady taskId p s); simpl.
    + rewrite <- (buildUpstreamRefs_view taskId p s s' Hview).
      match goal with
      | |- context [QueueManager.enqueue nanoid now ?o s] =>
          pose proof (enqueue_view nanoid now o s s' Hview) as He;
          destruct (QueueManager.enqueue nanoid now o s) as [[q s1]|msg],
                   (QueueManager.enqueue nanoid now o s') as [[q' s1']|msg'];
          simpl in *; try contradiction
      end.
      * destruct He as [-> Hview1]. apply IH. exact Hview1.
      * congruence.
    + apply IH. exact Hview.
Qed.

Lemma queueDownstreamTasks_view (nanoid : nat -> string) (now : Time)
    (completedTaskRunId : string) (selectedNext : option (list string))
    (s s' : Store) :
  Lifecycle.same_queue_view s s' ->
  Lifecycle.queued_and_runs
    (PipelineExecutor.queueDownstreamTasks nanoid now completedTaskRunId selectedNext s)
  = Lifecycle.queued_and_runs
      (PipelineExecutor.queueDownstreamTasks nanoid now completedTaskRunId
         selectedNext s').
Proof.
  intros Hview. pose proof Hview as (Htasks & Hruns & _).
  unfold PipelineExecutor.queueDownstreamTasks, find_run.
  rewrite <- Hruns, <- Htasks.
  destruct (List.find (has_id completedTaskRunId) (task_runs s)) as [taskRun|];
    [|reflexivity].
  destruct (truthy (tr_pipeline_run_id taskRun)); [|simpl; congruence].
  destruct (tasks s !! tr_task_id taskRun) as [task|]; [|reflexivity].
  destruct (match selectedNext with
            | Some ((_ :: _) as sel) =>
                List.filter (PipelineExecutor.includes (t_allowed_next task)) sel
            | _ => t_allowed_next task
            end) as [|nextTaskId rest].
  - simpl. rewrite !task_runs_checkPipelineCompletion. congruence.
  - apply queueAll_view. exact Hview.
Qed.

(** C2 (counterexample).  Pipeline run [prun_x] runs A -> {B, C, F},
    C -> E in fail-fast mode.  B fails while C is running and F is
    pending: F is cancelled and the run is marked failed.  C then
    completes, and [queueDownstreamTasks] enqueues its downstream task
    E in the failed run. *)
Lemma C2_counterexample_downstream_enqueued_after_failure :
  List.map (fun r => (Scenario.summary r, tr_error r)) (task_runs Scenario.failfast2)
  = [("trun_0", "A", completed, None);
     ("trun_1", "B", failed, Some "boom");
     ("trun_2", "C", running, None);
     ("trun_3", "F", cancelled, Some "Pipeline failed in fail-fast mode")]
  /\ (pr_status <$> pipeline_runs Scenario.failfast2 !! "prun_x") = Some prun_failed
  /\ Scenario.returned
       (PipelineExecutor.queueDownstreamTasks Scenario.nanoid 4000 "trun_2" None
          Scenario.failfast3)
     = Some ["trun_4"]
  /\ List.map (fun r => (Scenario.summary r, tr_pipeline_run_id r))
       (task_runs
          (Scenario.after
             (PipelineExecutor.queueDownstreamTasks Scenario.nanoid 4000 "trun_2" None
                Scenario.failfast3)
             Scenario.failfast3))
     = [("trun_0", "A", completed, Some "prun_x");
        ("trun_1", "B", failed, Some "prun_x");
        ("trun_2", "C", completed, Some "prun_x");
        ("trun_3", "F", cancelled, Some "prun_x");
        ("trun_4", "E", pending, Some "prun_x")].
Proof. repeat split; vm_compute; reflexivity. Qed.

(** C2 (amended).  For a task run of a fail-fast pipeline run,
    [handleTaskFailure] cancels exactly the pending task runs of that
    pipeline run, with error "Pipeline failed in fail-fast mode", leaves
    every other task run (a running one in particular) as it was, and
    marks the pipeline run failed.  [queueDownstreamTasks] never reads
    the status of the pipeline run: marking a run finished changes
    neither the run ids it returns nor the rows it leaves in
    [task_runs], so the downstream tasks of a sibling that completes
    after the failure are enqueued as in a run that has not failed. *)
Theorem C2_fail_fast_cancels_pending_only
    (nanoid : nat -> string) (now : Time) (taskRunId p : string) (s : Store)
    (taskRun : TaskRun) (run : PipelineRun) :
  find_run taskRunId s = Some taskRun ->
  tr_pipeline_run_id taskRun = Some p ->
  p <> EmptyString ->
  pipeline_runs s !! p = Some run ->
  pr_failure_mode run = fail_fast ->
  List.Forall2
    (fun r r' =>
       if in_pipeline_run p r && has_status pending r
       then r' = cancelled_row now "Pipeline failed in fail-fast mode" r
            /\ tr_status r' = cancelled
            /\ tr_error r' = Some "Pipeline failed in fail-fast mode"
       else r' = r)
    (task_runs s)
    (task_runs (PipelineExecutor.handleTaskFailure now taskRunId s))
  /\ (pr_status
        <$> pipeline_runs (PipelineExecutor.handleTaskFailure now taskRunId s) !! p)
     = Some prun_failed
  /\ (forall (after : Store) (later finishedAt : Time) (st : PipelineStatus)
             (completedTaskRunId : string) (selectedNext : option (list string)),
        Lifecycle.queued_and_runs
          (PipelineExecutor.queueDownstreamTasks nanoid later completedTaskRunId
             selectedNext
             (PipelineExecutor.with_pipeline_runs
                (alter (PipelineExecutor.finished_run finishedAt st) p) after))
        = Lifecycle.queued_and_runs
            (PipelineExecutor.queueDownstreamTasks nanoid later completedTaskRunId
               selectedNext after)).
Proof.
  intros Hfind Hp Hne Hrun Hmode.
  assert (Hs : PipelineExecutor.handleTaskFailure now taskRunId s
               = PipelineExecutor.with_pipeline_runs
                   (alter (PipelineExecutor.finished_run now prun_failed) p)
                   (with_task_runs
                      (update_where
                         (fun r => in_pipeline_run p r && has_status pending r)
                         (cancelled_row now "Pipeline failed in fail-fast mode"))
                      s)).
  { unfold PipelineExecutor.handleTaskFailure. rewrite Hfind, Hp. simpl.
    apply String.eqb_neq in Hne. rewrite Hne. simpl.
    rewrite Hrun, Hmode. reflexivity. }
  rewrite Hs. simpl. repeat split.
  - eapply List.Forall2_impl; [|apply update_where_Forall2].
    intros r r' ->. simpl.
    destruct (in_pipeline_run p r && has_status pending r); auto.
  - rewrite lookup_alter. case_decide; [|congruence]. rewrite Hrun. reflexivity.
  - intros. apply queueDownstreamTasks_view. apply same_queue_view_finished.
Qed.

(** C2 (witness).  The failure of B in the fail-fast scenario. *)
Lemma C2_witness_failure_of_B :
  let s := QueueManager.markFailed 3000 "trun_1" "boom" None Scenario.failfast1 in
  List.Forall2
    (fun r r' =>
       if in_pipeline_run "prun_x" r && has_status pending r
       then r' = cancelled_row 3000 "Pipeline failed in fail-fast mode" r
            /\ tr_status r' = cancelled
            /\ tr_error r' = Some "Pipeline failed in fail-fast mode"
       else r' = r)
    (task_runs s)
    (task_runs (PipelineExecutor.handleTaskFailure 3000 "trun_1" s))
  /\ (pr_status
        <$> pipeline_runs (PipelineExecutor.handleTaskFailure 3000 "trun_1" s)
            !! "prun_x")
     = Some prun_failed.
Proof.
  cbv zeta.
  refine ((fun H => conj (proj1 H) (proj1 (proj2 H)))
            (C2_fail_fast_cancels_pending_only Scenario.nanoid 3000 "trun_1" "prun_x"
               (QueueManager.markFailed 3000 "trun_1" "boom" None Scenario.failfast1)
               _ (Scenario.running_run Scenario.fork fail_fast) _ _ _ _ _)).
  - vm_compute. reflexivity.
  - reflexivity.
  - discriminate.
  - vm_compute. reflexivity.
  - reflexivity.
Defined.

(** ** Registration *)

Lemma registerService_tables (now : Time)
    (request : ServiceRegistry.RegisterServiceRequest) (s : Store) :
  let folded :=
    List.fold_left
      (ServiceRegistry.upsert_task now (ServiceRegistry.serviceId request)
         (ServiceRegistry.version request))
      (ServiceRegistry.reg_tasks request) (tasks s, task_code_history s, []) in
  tasks (snd (ServiceRegistry.registerService now request s)) = fst (fst folded)
  /\ task_code_history (snd (ServiceRegistry.registerService now request s))
     = snd (fst folded)
  /\ ServiceRegistry.codeChanges (fst (ServiceRegistry.registerService now request s))
     = snd folded.
Proof.
  cbv zeta. unfold ServiceRegistry.registerService.
  destruct (if match services s !! ServiceRegistry.serviceId request with
               | Some existingService => _
               | None => false
               end then _ else _) as [orphaned runs].
  destruct (List.fold_left _ (ServiceRegistry.reg_tasks request) _)
    as [[ts hist] changes].
  simpl. auto.
Qed.

(** One upsert: the row written for the task, and the version rule. *)
Lemma upsert_task_tasks (now : Time) (serviceId version : string)
    (ts : gmap string TaskDef) (hist : list HistoryRow)
    (changes : list ServiceRegistry.CodeChange)
    (task : ServiceRegistry.TaskRegistration) :
  fst (fst (ServiceRegistry.upsert_task now serviceId version (ts, hist, changes) task))
  = <[ServiceRegistry.id task :=
        ServiceRegistry.task_row now serviceId (ServiceRegistry.codeHashOf task)
          (match ts !! ServiceRegistry.id task with
           | Some old =>
               if String.eqb (t_code_hash old) (ServiceRegistry.codeHashOf task)
               then t_code_version old
               else t_code_version old + 1
           | None => 1
           end)
          (ts !! ServiceRegistry.id task) task]> ts.
Proof.
  unfold ServiceRegistry.upsert_task.
  destruct (ts !! ServiceRegistry.id task) as [old|]; [|reflexivity].
  destruct (String.eqb (t_code_hash old) (ServiceRegistry.codeHashOf task));
    reflexivity.
Qed.

Lemma upsert_task_unchanged_hash (now : Time) (serviceId version : string)
    (ts : gmap string TaskDef) (hist : list HistoryRow)
    (changes : list ServiceRegistry.CodeChange)
    (task : ServiceRegistry.TaskRegistration) (old : TaskDef) :
  ts !! ServiceRegistry.id task = Some old ->
  t_code_hash old = ServiceRegistry.codeHashOf task ->
  ServiceRegistry.upsert_task now serviceId version (ts, hist, changes) task
  = (<[ServiceRegistry.id task :=
         ServiceRegistry.task_row now serviceId (ServiceRegistry.codeHashOf task)
           (t_code_version old) (Some old) task]> ts,
     hist, changes).
Proof.
  intros Hold Hhash. unfold ServiceRegistry.upsert_task.
  rewrite Hold, Hhash, String.eqb_refl. reflexivity.
Qed.

(** After the task loop every listed task is stored with the hash
    computed for it. *)
Lemma upsert_all_stores_hashes (now : Time) (serviceId version : string)
    (l : list ServiceRegistry.TaskRegistration) :
  ServiceRegistry.consistent_hashes l ->
  forall acc t, In t l ->
    (t_code_hash
       <$> fst (fst (List.fold_left
                       (ServiceRegistry.upsert_task now serviceId version) l acc))
           !! ServiceRegistry.id t)
    = Some (ServiceRegistry.codeHashOf t).
Proof.
  induction l as [|x l' IH] using List.rev_ind; intros Hcons acc t Hin; [destruct Hin|].
  rewrite List.fold_left_app. simpl.
  destruct (List.fold_left _ l' acc) as [[ts hist] changes] eqn:Hfold.
  rewrite upsert_task_tasks.
  destruct (decide (ServiceRegistry.id x = ServiceRegistry.id t)) as [Heq|Hne].
  - rewrite Heq, lookup_insert_eq. simpl. f_equal.
    apply Hcons; [apply List.in_or_app; right; left; reflexivity|exact Hin|exact Heq].
  - rewrite lookup_insert_ne by exact Hne.
    apply List.in_app_or in Hin as [Hin|[->|[]]]; [|congruence].
    specialize (IH (fun t1 t2 H1 H2 =>
                      Hcons t1 t2 (List.in_or_app _ _ _ (or_introl H1))
                        (List.in_or_app _ _ _ (or_introl H2))) acc t Hin).
    rewrite Hfold in IH. exact IH.
Qed.

(** Running the task loop on tables that already hold the computed
    hashes changes neither a version nor a hash, records no change and
    appends no history row. *)
Lemma upsert_all_stable (now : Time) (serviceId version : string)
    (l : list ServiceRegistry.TaskRegistration) :
  ServiceRegistry.consistent_hashes l ->
  forall (ts : gmap string TaskDef) (hist : list HistoryRow)
         (changes : list ServiceRegistry.CodeChange),
    (forall t, In t l ->
       (t_code_hash <$> ts !! ServiceRegistry.id t)
       = Some (ServiceRegistry.codeHashOf t)) ->
    exists ts',
      List.fold_left (ServiceRegistry.upsert_task now serviceId version) l
        (ts, hist, changes)
      = (ts', hist, changes)
      /\ forall tid,
           (t_code_version <$> ts' !! tid) = (t_code_version <$> ts !! tid)
           /\ (t_code_hash <$> ts' !! tid) = (t_code_hash <$> ts !! tid).
Proof.
  induction l as [|x rest IH]; intros Hcons ts hist changes Hstored;
    cbn [List.fold_left].
  - exists ts. auto.
  - destruct (ts !! ServiceRegistry.id x) as [old|] eqn:Hold.
    2: { specialize (Hstored x (or_introl eq_refl)). rewrite Hold in Hstored.
         discriminate. }
    assert (Hhash : t_code_hash old = ServiceRegistry.codeHashOf x).
    { specialize (Hstored x (or_introl eq_refl)). rewrite Hold in Hstored.
      simpl in Hstored. congruence. }
    rewrite (upsert_task_unchanged_hash now serviceId version ts hist changes x old
               Hold Hhash).
    set (row := ServiceRegistry.task_row now serviceId (ServiceRegistry.codeHashOf x)
                  (t_code_version old) (Some old) x).
    destruct (IH (fun t1 t2 H1 H2 => Hcons t1 t2 (or_intror H1) (or_intror H2))
                (<[ServiceRegistry.id x := row]> ts) hist changes)
      as (ts' & Hfold & Hsame).
    { intros t Hin.
      destruct (decide (ServiceRegistry.id x = ServiceRegistry.id t)) as [Heq|Hne].
      - rewrite <- Heq, lookup_insert_eq. simpl. f_equal.
        apply Hcons; [left; reflexivity|right; exact Hin|exact Heq].
      - rewrite lookup_insert_ne by exact Hne. apply Hstored. right. exact Hin. }
    exists ts'. split; [exact Hfold|].
    intros tid. destruct (Hsame tid) as [Hv Hh]. rewrite Hv, Hh.
    destruct (decide (ServiceRegistry.id x = tid)) as [<-|Hne].
    + rewrite lookup_insert_eq, Hold. simpl. rewrite Hhash. auto.
    + rewrite lookup_insert_ne by exact Hne. auto.
Qed.

(** C7 (counterexample).  The request [twice_listed] names task "t"
    twice, with two descriptions, hence two hashes.  Registered on an
    empty store and then registered again unchanged, the second call
    finds for each entry the hash the other entry left behind: it
    reports two code changes, moves the version from 2 to 4 and appends
    a history row. *)
Lemma C7_counterexample_task_listed_twice :
  let first := ServiceRegistry.registerService 1000 Scenario.twice_listed
                 Scenario.empty_store in
  let second := ServiceRegistry.registerService 2000 Scenario.twice_listed (snd first) in
  List.map ServiceRegistry.codeHashOf (ServiceRegistry.reg_tasks Scenario.twice_listed)
  = ["3ca30f595467d300"; "9f2b8a0cd74fc926"]
  /\ (t_code_version <$> tasks (snd first) !! "t") = Some 2
  /\ (t_code_version <$> tasks (snd second) !! "t") = Some 4
  /\ List.map (fun c => (ServiceRegistry.oldVersion c, ServiceRegistry.newVersion c))
       (ServiceRegistry.codeChanges (fst second))
     = [(2, 3); (3, 4)]
  /\ List.length (task_code_history (snd first)) = 1%nat
  /\ List.length (task_code_history (snd second)) = 2%nat.
Proof. cbv zeta. repeat split; vm_compute; reflexivity. Qed.

(** C7 (amended).  For a request in which entries with the same task
    id have the same hash (so for every request whose task ids are
    pairwise distinct), registering it a second time computes for each
    task the hash the first call stored, leaves every task's
    [code_version] and [code_hash] unchanged, reports no code change
    and appends no history row.  In a single upsert the stored version
    goes up, by exactly 1, exactly when the task exists with a
    different hash; it is kept when the hash is the same and is 1 for a
    new task. *)
Theorem C7_reregistration_keeps_versions
    (now1 now2 : Time) (request : ServiceRegistry.RegisterServiceRequest) (s : Store) :
  ServiceRegistry.consistent_hashes (ServiceRegistry.reg_tasks request) ->
  let first := ServiceRegistry.registerService now1 request s in
  let second := ServiceRegistry.registerService now2 request (snd first) in
  (forall t, In t (ServiceRegistry.reg_tasks request) ->
     (t_code_hash <$> tasks (snd first) !! ServiceRegistry.id t)
     = Some (ServiceRegistry.codeHashOf t))
  /\ ServiceRegistry.codeChanges (fst second) = []
  /\ task_code_history (snd second) = task_code_history (snd first)
  /\ (forall tid,
        (t_code_version <$> tasks (snd second) !! tid)
        = (t_code_version <$> tasks (snd first) !! tid)
        /\ (t_code_hash <$> tasks (snd second) !! tid)
           = (t_code_hash <$> tasks (snd first) !! tid))
  /\ (forall now serviceId version ts hist changes task,
        (t_code_version
           <$> fst (fst (ServiceRegistry.upsert_task now serviceId version
                           (ts, hist, changes) task))
               !! ServiceRegistry.id task)
        = Some (match ts !! ServiceRegistry.id task with
                | Some old =>
                    if String.eqb (t_code_hash old) (ServiceRegistry.codeHashOf task)
                    then t_code_version old
                    else t_code_version old + 1
                | None => 1
                end)).
Proof.
  intros Hcons. cbv zeta.
  destruct (registerService_tables now1 request s) as (Ht1 & Hh1 & _).
  destruct (registerService_tables now2 request
              (snd (ServiceRegistry.registerService now1 request s)))
    as (Ht2 & Hh2 & Hc2).
  assert (Hstored : forall t, In t (ServiceRegistry.reg_tasks request) ->
            (t_code_hash
               <$> tasks (snd (ServiceRegistry.registerService now1 request s))
                   !! ServiceRegistry.id t)
            = Some (ServiceRegistry.codeHashOf t)).
  { intros t Hin. rewrite Ht1. apply upsert_all_stores_hashes; assumption. }
  destruct (upsert_all_stable now2 (ServiceRegistry.serviceId request)
              (ServiceRegistry.version request) (ServiceRegistry.reg_tasks request)
              Hcons
              (tasks (snd (ServiceRegistry.registerService now1 request s)))
              (task_code_history (snd (ServiceRegistry.registerService now1 request s)))
              [] Hstored)
    as (ts' & Hfold & Hsame).
  rewrite Hfold in Ht2, Hh2, Hc2. simpl in Ht2, Hh2, Hc2.
  split; [exact Hstored|].
  split; [exact Hc2|].
  split; [exact Hh2|].
  split.
  - intros tid. rewrite Ht2. apply Hsame.
  - intros. rewrite upsert_task_tasks, lookup_insert_eq. reflexivity.
Qed.

(** C7 (witness).  Two tasks with distinct ids, registered twice on an
    empty store. *)
Lemma C7_witness_two_tasks :
  let first := ServiceRegistry.registerService 1000 Scenario.two_tasks
                 Scenario.empty_store in
  let second := ServiceRegistry.registerService 2000 Scenario.two_tasks (snd first) in
  ServiceRegistry.codeChanges (fst second) = []
  /\ task_code_history (snd second) = task_code_history (snd first).
Proof.
  cbv zeta.
  refine ((fun H => conj (proj1 (proj2 H)) (proj1 (proj2 (proj2 H))))
            (C7_reregistration_keeps_versions 1000 2000 Scenario.two_tasks
               Scenario.empty_store _)).
  intros t1 t2 H1 H2 Hid.
  simpl in H1, H2.
  destruct H1 as [<-|[<-|[]]], H2 as [<-|[<-|[]]];
    try reflexivity; discriminate Hid.
Defined.

(** C10 (witness).  The pipeline "solo" is defined with failure mode
    [continue]; a
    trigger without [failureMode] creates a fail-fast run. *)
Lemma C10_witness_solo_pipeline :
  p_failure_mode Scenario.solo_pipeline = continue
  /\ exists info s',
       PipelineExecutor.triggerPipeline Scenario.nanoid 1000 Scenario.solo_trigger
         Scenario.solo0
       = Ok (info, s')
       /\ PipelineExecutor.pipelineRunId info = "prun_0"
       /\ (pr_failure_mode <$> pipeline_runs s' !! PipelineExecutor.pipelineRunId info)
          = Some fail_fast.
Proof.
  split; [reflexivity|].
  refine (proj1 (C10_trigger_defaults_to_fail_fast Scenario.nanoid 1000
                   Scenario.solo_trigger Scenario.solo0 Scenario.solo_pipeline _ _ _)).
  - reflexivity.
  - vm_compute. reflexivity.
  - vm_compute. reflexivity.
Defined.

(** * Further properties of the code *)

(** ** Retry delays *)

(** Where the delay is an integer.  From attempt 1 on, for a base
    delay above 0, or a base delay of 0 up to attempt 1024, and a cap
    below [2 ^ 1024], the exponential delay is the smaller of
    [retryDelayMs * 2 ^ (attempt - 1)] and the cap. *)
Lemma calculateDelay_exponential (options : RetryManager.RetryOptions) :
  RetryManager.retryBackoff options = exponential ->
  1 <= RetryManager.attempt options ->
  0 <= RetryManager.retryDelayMs options ->
  (RetryManager.retryDelayMs options = 0 -> RetryManager.attempt options <= 1024) ->
  RetryManager.maxRetryDelayMs options < 2 ^ 1024 ->
  RetryManager.calculateDelay options
  = JsInt (Z.min (RetryManager.retryDelayMs options
                  * 2 ^ (RetryManager.attempt options - 1))
             (RetryManager.maxRetryDelayMs options)).
Proof.
  intros Hexp Hone Hbase Hzero Hcap. unfold RetryManager.calculateDelay.
  rewrite Hexp. cbv zeta.
  set (r := RetryManager.retryDelayMs options) in *.
  set (c := RetryManager.maxRetryDelayMs options) in *.
  set (e := RetryManager.attempt options - 1).
  assert (He : 0 <= e) by (unfold e; lia).
  assert (Hpow : 0 < 2 ^ e) by (apply Z.pow_pos_nonneg; lia).
  unfold js_pow2.
  destruct (1024 <=? e) eqn:E1.
  - assert (Hr : 0 < r) by (unfold e in E1; lia).
    assert (Hbig : 2 ^ 1024 <= 2 ^ e) by (apply Z.pow_le_mono_r; lia).
    unfold js_times.
    assert ((r =? 0) = false) as -> by lia.
    assert ((0 <? r) = true) as -> by lia.
    unfold js_min. f_equal.
    assert (2 ^ e <= r * 2 ^ e) by nia. lia.
  - assert ((0 <=? e) = true) as -> by lia.
    unfold js_times, js_scaled.
    assert (Hprod : 0 <= r * 2 ^ e) by nia.
    destruct (2 ^ 1024 <=? r * 2 ^ e) eqn:E2.
    + unfold js_min. f_equal. lia.
    + assert (H1024 : 0 < 2 ^ 1024) by (apply Z.pow_pos_nonneg; lia).
      assert ((r * 2 ^ e <=? - 2 ^ 1024) = false) as -> by lia.
      reflexivity.
Qed.

(** With a base delay of 0 the product [0 * Infinity] is NaN from
    attempt 1025 on, and so is the delay. *)
Lemma calculateDelay_NaN (options : RetryManager.RetryOptions) :
  RetryManager.retryBackoff options = exponential ->
  RetryManager.retryDelayMs options = 0 ->
  1025 <= RetryManager.attempt options ->
  RetryManager.calculateDelay options = JsNaN.
Proof.
  intros Hexp Hzero Hlate. unfold RetryManager.calculateDelay.
  rewrite Hexp, Hzero. cbv zeta. unfold js_pow2.
  assert ((1024 <=? RetryManager.attempt options - 1) = true) as -> by lia.
  reflexivity.
Qed.

(** X1.  From attempt 1 on, for a base delay above 0 (or a base delay
    of 0 up to attempt 1024) and a cap below [2 ^ 1024], the delay
    under exponential backoff is the integer
    [min (retryDelayMs * 2 ^ (attempt - 1)) maxRetryDelayMs]: it never
    exceeds [maxRetryDelayMs], never decreases from one attempt to a
    later one, and is exactly [retryDelayMs * 2 ^ (attempt - 1)] as
    long as that stays within the cap.  Under fixed backoff the delay
    is [retryDelayMs] whatever the cap is. *)
Theorem X1_exponential_delay_is_capped_and_monotone
    (runId taskId error : string) (errorCode : option string)
    (attempt later maxRetries retryDelayMs maxRetryDelayMs : Z) :
  1 <= attempt -> attempt <= later -> 0 <= retryDelayMs ->
  (retryDelayMs = 0 -> later <= 1024) ->
  maxRetryDelayMs < 2 ^ 1024 ->
  let options backoff n :=
    {| RetryManager.runId := runId; RetryManager.taskId := taskId;
       RetryManager.attempt := n; RetryManager.maxRetries := maxRetries;
       RetryManager.retryBackoff := backoff;
       RetryManager.retryDelayMs := retryDelayMs;
       RetryManager.maxRetryDelayMs := maxRetryDelayMs;
       RetryManager.error := error; RetryManager.errorCode := errorCode |} in
  exists delay delay',
    RetryManager.calculateDelay (options exponential attempt) = JsInt delay
    /\ RetryManager.calculateDelay (options exponential later) = JsInt delay'
    /\ delay = Z.min (retryDelayMs * 2 ^ (attempt - 1)) maxRetryDelayMs
    /\ delay <= maxRetryDelayMs
    /\ delay <= delay'
    /\ (retryDelayMs * 2 ^ (attempt - 1) <= maxRetryDelayMs ->
        delay = retryDelayMs * 2 ^ (attempt - 1))
    /\ RetryManager.calculateDelay (options fixed attempt) = JsInt retryDelayMs.
Proof.
  intros Hone Hlater Hbase Hzero Hcap. cbv zeta.
  exists (Z.min (retryDelayMs * 2 ^ (attempt - 1)) maxRetryDelayMs),
         (Z.min (retryDelayMs * 2 ^ (later - 1)) maxRetryDelayMs).
  split; [apply calculateDelay_exponential; simpl; auto; lia|].
  split; [apply calculateDelay_exponential; simpl; auto; lia|].
  assert (Hpow : 2 ^ (attempt - 1) <= 2 ^ (later - 1))
    by (apply Z.pow_le_mono_r; lia).
  assert (Hpos : 0 < 2 ^ (attempt - 1)) by (apply Z.pow_pos_nonneg; lia).
  assert (retryDelayMs * 2 ^ (attempt - 1) <= retryDelayMs * 2 ^ (later - 1))
    by (apply Z.mul_le_mono_nonneg_l; lia).
  repeat split; try lia.
Qed.

(** X1 (witness).  Base 100, cap 10000: attempt 3 waits 400, attempt 9
    is capped at 10000. *)
Lemma X1_witness_delays :
  exists delay delay',
    RetryManager.calculateDelay
      {| RetryManager.runId := "r"; RetryManager.taskId := "t";
         RetryManager.attempt := 3; RetryManager.maxRetries := 10;
         RetryManager.retryBackoff := exponential;
         RetryManager.retryDelayMs := 100; RetryManager.maxRetryDelayMs := 10000;
         RetryManager.error := "e"; RetryManager.errorCode := None |}
    = JsInt delay
    /\ RetryManager.calculateDelay
         {| RetryManager.runId := "r"; RetryManager.taskId := "t";
            RetryManager.attempt := 9; RetryManager.maxRetries := 10;
            RetryManager.retryBackoff := exponential;
            RetryManager.retryDelayMs := 100; RetryManager.maxRetryDelayMs := 10000;
            RetryManager.error := "e"; RetryManager.errorCode := None |}
       = JsInt delay'
    /\ delay = 400
    /\ delay <= delay'.
Proof.
  destruct (X1_exponential_delay_is_capped_and_monotone
              "r" "t" "e" None 3 9 10 100 10000)
    as (delay & delay' & H1 & H2 & H3 & _ & H5 & _);
    [lia|lia|lia|lia|vm_compute; reflexivity|].
  exists delay, delay'. repeat split; [exact H1|exact H2| |exact H5].
  rewrite H3. reflexivity.
Defined.


(** ** The idempotency cache *)


Lemma cleanupExpired_lookup (now : Time) (s : Store) (key : string) :
  idempotency_cache (snd (IdempotencyManager.cleanupExpired now s)) !! key
  = match idempotency_cache s !! key with
    | Some c => if now <=? ic_expires_at c then Some c else None
    | None => None
    end.
Proof.
  unfold IdempotencyManager.cleanupExpired. simpl.
  destruct (idempotency_cache s !! key) as [c|] eqn:Hc.
  - destruct (now <=? ic_expires_at c) eqn:E.
    + apply map_lookup_filter_Some. split; [exact Hc|]. simpl. lia.
    + apply map_lookup_filter_None. right. intros c' Hc'. simpl.
      rewrite Hc in Hc'. injection Hc' as <-. lia.
  - apply map_lookup_filter_None. left. exact Hc.
Qed.

(** X3.  [cleanupExpired] never removes an entry that could still be
    served: at the time of the cleanup and at any later time
    [checkIdempotency] answers the same before and after.  The count it
    returns is never negative, and it is zero exactly when the cleanup
    removed nothing; a second cleanup at the same time removes nothing.
    An entry that expires exactly at [now] is no longer served but is
    not deleted either. *)
Theorem X3_cleanup_removes_only_dead_entries (now : Time) (s : Store) :
  let cleaned := IdempotencyManager.cleanupExpired now s in
  (forall later key, now <= later ->
     IdempotencyManager.checkIdempotency later key (snd cleaned)
     = IdempotencyManager.checkIdempotency later key s)
  /\ 0 <= fst cleaned
  /\ (fst cleaned = 0 <-> idempotency_cache (snd cleaned) = idempotency_cache s)
  /\ IdempotencyManager.cleanupExpired now (snd cleaned) = (0, snd cleaned)
  /\ (forall key c, idempotency_cache s !! key = Some c -> ic_expires_at c = now ->
        IdempotencyManager.checkIdempotency now key s = None
        /\ idempotency_cache (snd cleaned) !! key = Some c).
Proof.
  cbv zeta.
  assert (Hsub : idempotency_cache (snd (IdempotencyManager.cleanupExpired now s))
                 ⊆ idempotency_cache s).
  { apply map_filter_subseteq. }
  pose proof (map_subseteq_size _ _ Hsub) as Hsize.
  split; [|split; [|split; [|split]]].
  - intros later key Hlater. unfold IdempotencyManager.checkIdempotency.
    rewrite cleanupExpired_lookup.
    destruct (idempotency_cache s !! key) as [c|]; [|reflexivity].
    destruct (now <=? ic_expires_at c) eqn:E; [reflexivity|].
    assert ((later <? ic_expires_at c) = false) as -> by lia. reflexivity.
  - unfold IdempotencyManager.cleanupExpired in *. simpl in *. lia.
  - split.
    + intros Hzero. apply map_subseteq_size_eq; [exact Hsub|].
      unfold IdempotencyManager.cleanupExpired in *. simpl in *. lia.
    + intros Heq. unfold IdempotencyManager.cleanupExpired in *. simpl in *.
      rewrite Heq. lia.
  - unfold IdempotencyManager.cleanupExpired. simpl.
    rewrite map_filter_filter_r by (intros i x _ Hx; exact Hx).
    f_equal. lia.
  - intros key c Hc Hexp. split.
    + unfold IdempotencyManager.checkIdempotency. rewrite Hc.
      assert ((now <? ic_expires_at c) = false) as -> by lia. reflexivity.
    + rewrite cleanupExpired_lookup, Hc.
      assert ((now <=? ic_expires_at c) = true) as -> by lia. reflexivity.
Qed.

(** ** The queue *)

Lemma before_total (a b : TaskRun) :
  QueueManager.before a b = false -> QueueManager.before b a = true.
Proof. unfold QueueManager.before. intros H. lia. Qed.

Lemma before_trans (a b c : TaskRun) :
  QueueManager.before a b = true -> QueueManager.before b c = true ->
  QueueManager.before a c = true.
Proof. unfold QueueManager.before. intros H1 H2. lia. Qed.

Lemma insert_by_Permutation (le : TaskRun -> TaskRun -> bool) (x : TaskRun)
    (l : list TaskRun) :
  Permutation (QueueManager.insert_by le x l) (x :: l).
Proof.
  induction l as [|y l IH]; simpl; [reflexivity|].
  destruct (le y x); [|reflexivity].
  rewrite IH. apply perm_swap.
Qed.

Lemma order_by_Permutation (le : TaskRun -> TaskRun -> bool) (l : list TaskRun) :
  Permutation (QueueManager.order_by le l) l.
Proof.
  unfold QueueManager.order_by.
  assert (H : forall acc, Permutation
                (List.fold_left (fun acc x => QueueManager.insert_by le x acc) l acc)
                (acc ++ l)).
  { induction l as [|x l IH]; intros acc; simpl.
    - rewrite List.app_nil_r. reflexivity.
    - rewrite IH, insert_by_Permutation. apply Permutation_middle. }
  apply (H []).
Qed.

Lemma insert_by_sorted (x : TaskRun) (l : list TaskRun) :
  StronglySorted (fun a b => QueueManager.before a b = true) l ->
  StronglySorted (fun a b => QueueManager.before a b = true)
    (QueueManager.insert_by QueueManager.before x l).
Proof.
  induction 1 as [|y l Hs IH Hy]; simpl.
  - constructor; constructor.
  - destruct (QueueManager.before y x) eqn:E.
    + constructor; [exact IH|].
      apply List.Forall_forall. intros z Hz. apply insert_by_In in Hz as [->|Hz].
      * exact E.
      * rewrite List.Forall_forall in Hy. auto.
    + apply before_total in E. constructor.
      * constructor; assumption.
      * constructor; [exact E|].
        apply List.Forall_forall. intros z Hz. rewrite List.Forall_forall in Hy.
        eapply before_trans; eauto.
Qed.

Lemma order_by_sorted (l : list TaskRun) :
  StronglySorted (fun a b => QueueManager.before a b = true)
    (QueueManager.order_by QueueManager.before l).
Proof.
  unfold QueueManager.order_by.
  assert (H : forall acc,
             StronglySorted (fun a b => QueueManager.before a b = true) acc ->
             StronglySorted (fun a b => QueueManager.before a b = true)
               (List.fold_left
                  (fun acc x => QueueManager.insert_by QueueManager.before x acc) l acc)).
  { induction l as [|x l IH]; intros acc Hacc; simpl; [exact Hacc|].
    apply IH, insert_by_sorted, Hacc. }
  apply H. constructor.
Qed.

Lemma StronglySorted_app_inv {A} (R : A -> A -> Prop) (l1 l2 : list A) :
  StronglySorted R (l1 ++ l2) ->
  StronglySorted R l1 /\ (forall a b, In a l1 -> In b l2 -> R a b).
Proof.
  induction l1 as [|x l1 IH]; simpl; intros H.
  - split; [constructor|]. intros a b [].
  - apply StronglySorted_inv in H as [Hs Hx]. destruct (IH Hs) as [IH1 IH2].
    split.
    + constructor; [exact IH1|]. apply List.Forall_app in Hx. tauto.
    + intros a b [<-|Ha] Hb.
      * rewrite List.Forall_forall in Hx. apply Hx, List.in_or_app. auto.
      * auto.
Qed.

(** X4.  [getNext] refuses a negative limit.  Otherwise the runs it
    claims are the first [limit] eligible rows in the order of
    [(priority, created_at)]: together with the eligible rows it leaves
    behind they are exactly the eligible rows, there are
    [min limit (number of eligible rows)] of them, they come out sorted,
    and no row left behind is strictly ahead of a claimed one. *)
Theorem X4_getNext_claims_the_first_eligible_runs
    (now : Time) (limit : Z) (s : Store) :
  match QueueManager.getNext now limit s with
  | Throw _ => limit < 0
  | Ok claimed =>
      0 <= limit
      /\ exists rows rest,
           claimed = List.map QueueManager.toPendingTask rows
           /\ Permutation (rows ++ rest)
                (List.filter (QueueManager.eligible now s) (task_runs s))
           /\ Z.of_nat (List.length rows)
              = Z.min limit
                  (Z.of_nat (List.length
                     (List.filter (QueueManager.eligible now s) (task_runs s))))
           /\ StronglySorted (fun a b => QueueManager.before a b = true) rows
           /\ (forall a b, In a rows -> In b rest -> QueueManager.before a b = true)
  end.
Proof.
  unfold QueueManager.getNext. destruct (limit <? 0) eqn:E; [lia|].
  split; [lia|].
  set (sorted := QueueManager.order_by QueueManager.before
                   (List.filter (QueueManager.eligible now s) (task_runs s))).
  exists (List.firstn (Z.to_nat limit) sorted), (List.skipn (Z.to_nat limit) sorted).
  pose proof (order_by_sorted
                (List.filter (QueueManager.eligible now s) (task_runs s))) as Hs.
  fold sorted in Hs. rewrite <- (List.firstn_skipn (Z.to_nat limit) sorted) in Hs.
  apply StronglySorted_app_inv in Hs as [Hs1 Hs2].
  split; [reflexivity|]. split; [|split; [|split]].
  - rewrite List.firstn_skipn. apply order_by_Permutation.
  - rewrite List.length_firstn.
    rewrite <- (Permutation_length
                  (order_by_Permutation QueueManager.before
                     (List.filter (QueueManager.eligible now s) (task_runs s)))).
    fold sorted. lia.
  - exact Hs1.
  - exact Hs2.
Qed.

(** X5.  The concurrency test [getNext] applies in SQL is the one
    [canRunTask] computes: a run is eligible exactly when it is pending,
    due, and [canRunTask] answers yes for its task.  In particular a run
    of an unregistered task is never eligible, and a cap of 0 means no
    cap. *)
Theorem X5_getNext_and_canRunTask_agree (now : Time) (s : Store) (r : TaskRun) :
  QueueManager.eligible now s r
  = has_status pending r
    && match tr_scheduled_for r with
       | None => true
       | Some t => t <=? now
       end
    && QueueManager.canRunTask (tr_task_id r) s.
Proof.
  unfold QueueManager.eligible, QueueManager.canRunTask.
  destruct (tasks s !! tr_task_id r) as [t|]; [|reflexivity].
  destruct (t_concurrency t =? 0); reflexivity.
Qed.

Lemma enqueue_shape (nanoid : nat -> string) (now : Time)
    (options : QueueManager.QueueTaskOptions) (s : Store) :
  match QueueManager.enqueue nanoid now options s with
  | Ok (queued, s') =>
      QueueManager.q_taskId queued = QueueManager.taskId options
      /\ is_Some (tasks s !! QueueManager.taskId options)
      /\ tasks s' = tasks s
      /\ exists added,
           task_runs s' = task_runs s ++ added
           /\ minted s' = (minted s + List.length added)%nat
           /\ (List.length added <= 1)%nat
           /\ List.map tr_id added
              = List.map (fun k => "trun_" +:+ nanoid k)
                  (List.seq (minted s) (List.length added))
           /\ List.Forall (fun r => tr_status r = pending /\ tr_attempt r = 1) added
  | Throw msg =>
      tasks s !! QueueManager.taskId options = None
      /\ msg = "Task '" +:+ QueueManager.taskId options +:+ "' not found"
  end.
Proof.
  unfold QueueManager.enqueue.
  destruct (tasks s !! QueueManager.taskId options) as [task|]; [|auto].
  assert (Hnew : forall r : TaskRun,
            tr_status r = pending -> tr_attempt r = 1 ->
            tr_id r = "trun_" +:+ nanoid (minted s) ->
            exists added,
              task_runs s ++ [r] = task_runs s ++ added
              /\ S (minted s) = (minted s + List.length added)%nat
              /\ (List.length added <= 1)%nat
              /\ List.map tr_id added
                 = List.map (fun k => "trun_" +:+ nanoid k)
                     (List.seq (minted s) (List.length added))
              /\ List.Forall (fun r => tr_status r = pending /\ tr_attempt r = 1) added).
  { intros r Hst Hat Hid. exists [r]. simpl. rewrite Hid.
    repeat split; auto; lia. }
  destruct (QueueManager.idempotencyKey options) as [key|];
    [destruct (truthy (Some key));
     [destruct (IdempotencyManager.checkIdempotency now key s) as [c|]|]|];
    cbn [QueueManager.q_taskId QueueManager.insert_run tasks task_runs minted];
    (split; [reflexivity|]); (split; [eauto|]); (split; [reflexivity|]);
    try (apply Hnew; reflexivity).
  exists []. simpl. rewrite List.app_nil_r, Nat.add_0_r. repeat split; auto.
Qed.

(** X6.  [enqueueBatch] enqueues in input order.  When it succeeds every
    task of the batch is registered, there is one result per request and
    in the same order, the rows it appended to [task_runs] are pending
    first attempts, and their ids are consecutive identifiers of the
    generator; nothing else in [task_runs] changed.  When it fails, a
    request of the batch names a task that is not registered and the
    error is the one [enqueue] raises for it. *)
Theorem X6_enqueueBatch_keeps_input_order
    (nanoid : nat -> string) (now : Time)
    (batch : list QueueManager.QueueTaskOptions) (s : Store) :
  match QueueManager.enqueueBatch nanoid now batch s with
  | Ok (results, s') =>
      List.map QueueManager.q_taskId results = List.map QueueManager.taskId batch
      /\ List.Forall (fun o => is_Some (tasks s !! QueueManager.taskId o)) batch
      /\ exists added,
           task_runs s' = task_runs s ++ added
           /\ (List.length added <= List.length batch)%nat
           /\ List.map tr_id added
              = List.map (fun k => "trun_" +:+ nanoid k)
                  (List.seq (minted s) (List.length added))
           /\ List.Forall (fun r => tr_status r = pending /\ tr_attempt r = 1) added
  | Throw msg =>
      exists o, In o batch
                /\ tasks s !! QueueManager.taskId o = None
                /\ msg = "Task '" +:+ QueueManager.taskId o +:+ "' not found"
  end.
Proof.
  assert (H : forall batch s,
    match QueueManager.enqueueBatch nanoid now batch s with
    | Ok (results, s') =>
        List.map QueueManager.q_taskId results = List.map QueueManager.taskId batch
        /\ List.Forall (fun o => is_Some (tasks s !! QueueManager.taskId o)) batch
        /\ tasks s' = tasks s
        /\ exists added,
             task_runs s' = task_runs s ++ added
             /\ minted s' = (minted s + List.length added)%nat
             /\ (List.length added <= List.length batch)%nat
             /\ List.map tr_id added
                = List.map (fun k => "trun_" +:+ nanoid k)
                    (List.seq (minted s) (List.length added))
             /\ List.Forall (fun r => tr_status r = pending /\ tr_attempt r = 1) added
    | Throw msg =>
        exists o, In o batch
                  /\ tasks s !! QueueManager.taskId o = None
                  /\ msg = "Task '" +:+ QueueManager.taskId o +:+ "' not found"
    end).
  { clear batch s. induction batch as [|o batch IH]; intros s.
    - simpl. repeat split; auto. exists []. simpl.
      rewrite List.app_nil_r, Nat.add_0_r. repeat split; auto.
    - cbn [QueueManager.enqueueBatch].
      pose proof (enqueue_shape nanoid now o s) as Ho.
      destruct (QueueManager.enqueue nanoid now o s) as [[queued s1]|msg].
      + destruct Ho as (Hq & Hreg & Htasks & a1 & Hruns1 & Hmint1 & Hlen1 & Hids1 & Hall1).
        cbn. specialize (IH s1).
        destruct (QueueManager.enqueueBatch nanoid now batch s1) as [[results s2]|msg].
        * destruct IH as (Hres & Hregs & Htasks2 & a2 & Hruns2 & Hmint2 & Hlen2 & Hids2 & Hall2).
          cbn. split; [|split; [|split]].
          -- f_equal; assumption.
          -- constructor; [exact Hreg|].
             eapply List.Forall_impl; [|exact Hregs]. intros o'. simpl.
             rewrite Htasks. auto.
          -- congruence.
          -- exists (a1 ++ a2). rewrite Hruns2, Hruns1, Hmint2, Hmint1.
             rewrite <- List.app_assoc, List.length_app.
             split; [reflexivity|]. split; [lia|]. split; [simpl; lia|].
             split; [|apply List.Forall_app; auto].
             rewrite List.map_app, List.seq_app, List.map_app, Hids1, Hids2, Hmint1.
             reflexivity.
        * cbn. destruct IH as (o' & Hin & Hnone & Hmsg).
          exists o'. rewrite <- Htasks. simpl. auto.
      + cbn. destruct Ho as [Hnone Hmsg]. exists o. simpl. auto. }
  specialize (H batch s).
  destruct (QueueManager.enqueueBatch nanoid now batch s) as [[results s']|msg];
    [|exact H].
  destruct H as (H1 & H2 & _ & added & H3 & _ & H4 & H5 & H6).
  split; [exact H1|]. split; [exact H2|]. exists added. auto.
Qed.

(** X7.  A run that [scheduleRetry] has put back in the queue is not
    claimed before its delay has elapsed.  When the attempt is below
    [maxRetries], the delay [calculateDelay options] is an integer and
    [now + delay] is a date from the epoch on, the call reports the
    retry as scheduled, the rows of the run are pending and scheduled
    for [now + delay], every other row is as it was, and at every time
    earlier than [now + delay] no run with that id is returned by
    [getNext], whatever the limit. *)
Theorem X7_rescheduled_run_waits_for_its_delay
    (other_date : Time -> RetryManager.RetryOptions -> result (option Time))
    (now later limit delay : Z) (options : RetryManager.RetryOptions) (s : Store) :
  RetryManager.attempt options < RetryManager.maxRetries options ->
  RetryManager.calculateDelay options = JsInt delay ->
  0 <= now + delay <= MAX_DATE ->
  later < now + delay ->
  exists s',
    RetryManager.scheduleRetry other_date now options s = Ok (true, s')
    /\ List.Forall2
         (fun r r' =>
            if has_id (RetryManager.runId options) r
            then tr_status r' = pending
                 /\ tr_scheduled_for r' = Some (now + delay)
            else r' = r)
         (task_runs s) (task_runs s')
    /\ match QueueManager.getNext later limit s' with
       | Ok claimed =>
           forall task, In task claimed ->
             QueueManager.pt_runId task <> RetryManager.runId options
       | Throw _ => limit < 0
       end.
Proof.
  intros Hretry Hdelay Hdate Hearly. unfold RetryManager.scheduleRetry.
  assert ((RetryManager.maxRetries options <=? RetryManager.attempt options) = false)
    as -> by lia.
  cbv zeta. unfold RetryManager.scheduled_date. rewrite Hdelay.
  assert ((0 <=? now + delay) && (now + delay <=? MAX_DATE) = true) as ->
    by (apply andb_true_iff; lia).
  cbn [mbind result_bind].
  eexists. split; [reflexivity|].
  match goal with
  | |- _ /\ match QueueManager.getNext _ _ ?s' with _ => _ end => set (s1 := s')
  end.
  split.
  - unfold s1. cbn [task_runs with_task_runs].
    eapply List.Forall2_impl; [|apply update_where_Forall2].
    intros r r' ->. simpl.
    destruct (has_id (RetryManager.runId options) r); auto.
  - destruct (QueueManager.getNext later limit s1) as [claimed|msg] eqn:Hnext.
    + intros task Hin Hid.
      destruct (getNext_returns_eligible _ _ _ _ Hnext task Hin)
        as (r & Hr & -> & Hel).
      simpl in Hid. unfold s1 in Hr. simpl in Hr. unfold update_where in Hr.
      apply List.in_map_iff in Hr as (r0 & <- & _).
      unfold has_id in *.
      destruct (String.eqb (tr_id r0) (RetryManager.runId options)) eqn:E.
      * unfold QueueManager.eligible in Hel. simpl in Hel.
        rewrite !andb_true_iff in Hel. lia.
      * apply String.eqb_neq in E. contradiction.
    + unfold QueueManager.getNext in Hnext.
      destruct (limit <? 0) eqn:E; [lia|discriminate].
Qed.

(** X7 (witness).  The run of task X, marked running at time 2000 and
    rescheduled after its first attempt with a delay of 100 ms: it is
    pending, due at 2100, and not claimed at 2099. *)
Lemma X7_witness_retry_of_the_run_of_X :
  exists s',
    RetryManager.scheduleRetry Scenario.strict_dates 2000
      {| RetryManager.runId := "trun_0"; RetryManager.taskId := "X";
         RetryManager.attempt := 1; RetryManager.maxRetries := 2;
         RetryManager.retryBackoff := exponential;
         RetryManager.retryDelayMs := 100; RetryManager.maxRetryDelayMs := 10000;
         RetryManager.error := "E1";
         RetryManager.errorCode := Some "DISPATCH_FAILED" |}
      (QueueManager.markRunning 2000 "trun_0" Scenario.retry1)
    = Ok (true, s')
    /\ List.map (fun r => (tr_id r, tr_status r, tr_scheduled_for r)) (task_runs s')
       = [("trun_0", pending, Some 2100)]
    /\ match QueueManager.getNext 2099 10 s' with
       | Ok claimed =>
           forall task, In task claimed -> QueueManager.pt_runId task <> "trun_0"
       | Throw _ => 10 < 0
       end.
Proof.
  destruct (X7_rescheduled_run_waits_for_its_delay Scenario.strict_dates
              2000 2099 10 100
              {| RetryManager.runId := "trun_0"; RetryManager.taskId := "X";
                 RetryManager.attempt := 1; RetryManager.maxRetries := 2;
                 RetryManager.retryBackoff := exponential;
                 RetryManager.retryDelayMs := 100;
                 RetryManager.maxRetryDelayMs := 10000;
                 RetryManager.error := "E1";
                 RetryManager.errorCode := Some "DISPATCH_FAILED" |}
              (QueueManager.markRunning 2000 "trun_0" Scenario.retry1))
    as (s' & Hs & Hrows & Hnext).
  - simpl. lia.
  - vm_compute. reflexivity.
  - unfold MAX_DATE. lia.
  - lia.
  - exists s'. split; [exact Hs|]. split; [|exact Hnext].
    clear Hrows Hnext. vm_compute in Hs. injection Hs as <-.
    vm_compute. reflexivity.
Defined.

(** ** The heartbeat monitor *)

(** X8.  Cancelling disarms: once [cancelTracking] has run for a run
    that [startTracking] had begun to track, neither the timer that was
    armed for it nor any later [handleTimeout] for that run changes the
    monitor or the store. *)
Theorem X8_cancelled_tracking_never_times_out
    (now later : Time) (runId taskId : string) (heartbeatIntervalMs : Z)
    (m : HeartbeatMonitor.Monitor) (s : Store) :
  let m1 := HeartbeatMonitor.cancelTracking runId
              (HeartbeatMonitor.startTracking now runId taskId heartbeatIntervalMs m) in
  HeartbeatMonitor.fire later (HeartbeatMonitor.next_handle m) (m1, s) = (m1, s)
  /\ HeartbeatMonitor.handleTimeout later runId (m1, s) = (m1, s).
Proof.
  cbv zeta. unfold HeartbeatMonitor.fire, HeartbeatMonitor.handleTimeout,
    HeartbeatMonitor.cancelTracking, HeartbeatMonitor.startTracking.
  cbn [HeartbeatMonitor.trackers HeartbeatMonitor.timers HeartbeatMonitor.next_handle].
  rewrite lookup_insert_eq.
  cbn [HeartbeatMonitor.timeoutHandle].
  rewrite !lookup_delete_eq. split; reflexivity.
Qed.

(** X9.  [startTracking] does not clear a timer armed earlier for the
    same run.  When a run is tracked a second time without a cancel in
    between, the first timer is still pending, and when it fires the run
    is timed out on the first schedule: its running rows become
    [timeout] and its tracker is dropped, although the second timer has
    not elapsed. *)
Theorem X9_earlier_timer_survives_a_second_start
    (now1 now2 later : Time) (runId taskId : string) (interval1 interval2 : Z)
    (m : HeartbeatMonitor.Monitor) (s : Store) :
  let m2 := HeartbeatMonitor.startTracking now2 runId taskId interval2
              (HeartbeatMonitor.startTracking now1 runId taskId interval1 m) in
  let fired := HeartbeatMonitor.fire later (HeartbeatMonitor.next_handle m) (m2, s) in
  (HeartbeatMonitor.timer_armed_at
     <$> HeartbeatMonitor.timers m2 !! HeartbeatMonitor.next_handle m) = Some now1
  /\ (HeartbeatMonitor.timeoutHandle <$> HeartbeatMonitor.trackers m2 !! runId)
     = Some (S (HeartbeatMonitor.next_handle m))
  /\ HeartbeatMonitor.trackers (fst fired) !! runId = None
  /\ task_runs (snd fired)
     = update_where (fun r => has_id runId r && has_status running r)
         (HeartbeatMonitor.timeout_row later) (task_runs s).
Proof.
  cbv zeta. unfold HeartbeatMonitor.fire, HeartbeatMonitor.handleTimeout,
    HeartbeatMonitor.startTracking.
  cbn [HeartbeatMonitor.trackers HeartbeatMonitor.timers HeartbeatMonitor.next_handle].
  rewrite (lookup_insert_ne _ (S _)) by lia.
  rewrite !lookup_insert_eq.
  cbn [fmap option_fmap option_map HeartbeatMonitor.timer_armed_at
       HeartbeatMonitor.timer_runId HeartbeatMonitor.timeoutHandle
       HeartbeatMonitor.trackers fst snd].
  rewrite lookup_delete_eq. auto.
Qed.

(** X10.  A run is timed out at most once: [handleTimeout] drops the
    tracker it acted on, so a second [handleTimeout] for the same run,
    at whatever time, changes nothing. *)
Theorem X10_handleTimeout_acts_once
    (t1 t2 : Time) (runId : string) (ms : HeartbeatMonitor.Monitor * Store) :
  HeartbeatMonitor.handleTimeout t2 runId (HeartbeatMonitor.handleTimeout t1 runId ms)
  = HeartbeatMonitor.handleTimeout t1 runId ms.
Proof.
  destruct ms as [m s]. unfold HeartbeatMonitor.handleTimeout at 2 3.
  destruct (HeartbeatMonitor.trackers m !! runId) eqn:E.
  - unfold HeartbeatMonitor.handleTimeout. cbn [HeartbeatMonitor.trackers].
    rewrite lookup_delete_eq. reflexivity.
  - unfold HeartbeatMonitor.handleTimeout. rewrite E. reflexivity.
Qed.

(** X11.  After [cleanup] nothing is tracked, the timer of every run
    that was tracked is cleared, and whatever timer still fires leaves
    the store as it is. *)
Theorem X11_cleanup_silences_the_monitor
    (m : HeartbeatMonitor.Monitor) (s : Store) :
  HeartbeatMonitor.trackers (HeartbeatMonitor.cleanup m) = ∅
  /\ (forall runId tracker,
        HeartbeatMonitor.trackers m !! runId = Some tracker ->
        HeartbeatMonitor.timers (HeartbeatMonitor.cleanup m)
          !! HeartbeatMonitor.timeoutHandle tracker = None)
  /\ (forall later h,
        snd (HeartbeatMonitor.fire later h (HeartbeatMonitor.cleanup m, s)) = s).
Proof.
  split; [reflexivity|]. split.
  - unfold HeartbeatMonitor.cleanup. cbn [HeartbeatMonitor.timers].
    generalize (HeartbeatMonitor.timers m). intros timers0.
    induction (HeartbeatMonitor.trackers m) as [|k tr trackers0 Hk Hfold IH]
      using map_first_key_ind.
    + intros runId tracker H. rewrite lookup_empty in H. discriminate.
    + intros runId tracker H. rewrite map_fold_insert_first_key by assumption.
      destruct (decide (HeartbeatMonitor.timeoutHandle tr
                        = HeartbeatMonitor.timeoutHandle tracker)) as [Heq|Hne].
      * rewrite Heq. apply lookup_delete_eq.
      * rewrite lookup_delete_ne by exact Hne.
        apply lookup_insert_Some in H as [[_ ->]|[_ H]]; [contradiction|].
        eapply IH. exact H.
  - intros later h. unfold HeartbeatMonitor.fire.
    destruct (HeartbeatMonitor.timers (HeartbeatMonitor.cleanup m) !! h); [|reflexivity].
    unfold HeartbeatMonitor.handleTimeout, HeartbeatMonitor.cleanup.
    cbn [HeartbeatMonitor.trackers]. rewrite lookup_empty. reflexivity.
Qed.

(** ** The poller *)

Lemma update_where_twice (cond : TaskRun -> bool) (f g : TaskRun -> TaskRun)
    (rows : list TaskRun) :
  (forall r, cond (g r) = cond r) ->
  update_where cond f (update_where cond g rows)
  = update_where cond (fun r => f (g r)) rows.
Proof.
  intros Hg. unfold update_where. rewrite List.map_map.
  apply List.map_ext. intros r. destruct (cond r) eqn:E.
  - rewrite Hg, E. reflexivity.
  - rewrite E. reflexivity.
Qed.

Lemma update_by_id_frame (x : string) (upd : TaskRun -> TaskRun) (rows : list TaskRun) :
  (forall r, tr_id (upd r) = tr_id r) ->
  List.Forall2 (fun r r' => tr_id r' = tr_id r /\ (tr_id r <> x -> r' = r))
    rows (update_where (has_id x) upd rows).
Proof.
  intros Hid. induction rows as [|r rows IH]; simpl; constructor; [|exact IH].
  unfold has_id. destruct (String.eqb (tr_id r) x) eqn:E.
  - apply String.eqb_eq in E. split; [apply Hid|]. intros Hne. contradiction.
  - auto.
Qed.

Lemma dlq_onTaskStatusChange (s : Store) : dlq (onTaskStatusChange s) = dlq s.
Proof.
  unfold onTaskStatusChange.
  destruct (maintenance_state s); try reflexivity.
  destruct (_ && _); reflexivity.
Qed.

Lemma tasks_onTaskStatusChange (s : Store) : tasks (onTaskStatusChange s) = tasks s.
Proof.
  unfold onTaskStatusChange.
  destruct (maintenance_state s); try reflexivity.
  destruct (_ && _); reflexivity.
Qed.

(** What one dispatch does to the tables: it rewrites the rows of its
    own run, adds at most one dead-letter entry, and leaves the task
    definitions alone. *)
Lemma dispatchOne_tables (nanoid : nat -> string)
    (dispatch : QueueManager.PendingTask -> option string)
    (other_date : Time -> RetryManager.RetryOptions -> result (option Time))
    (now : Time)
    (task : QueueManager.PendingTask) (m : HeartbeatMonitor.Monitor) (s : Store) :
  let out := TaskPoller.dispatchOne nanoid dispatch other_date now task (m, s) in
  tasks (snd out) = tasks s
  /\ (exists g, (forall r, tr_id (g r) = tr_id r)
                /\ task_runs (snd out)
                   = update_where (has_id (QueueManager.pt_runId task)) g (task_runs s))
  /\ (exists added, dlq (snd out) = dlq s ++ added /\ (List.length added <= 1)%nat).
Proof.
  cbv zeta. unfold TaskPoller.dispatchOne.
  assert (Hnone : exists added : list DLQRow,
             dlq s = dlq s ++ added /\ (List.length added <= 1)%nat).
  { exists []. rewrite List.app_nil_r. simpl. auto. }
  assert (Hrun : exists g, (forall r, tr_id (g r) = tr_id r)
            /\ update_where (has_id (QueueManager.pt_runId task))
                 (QueueManager.running_row now) (task_runs s)
               = update_where (has_id (QueueManager.pt_runId task)) g (task_runs s)).
  { exists (QueueManager.running_row now). auto. }
  assert (Hdlq : let out :=
                   let '(_, s1) := DLQManager.add nanoid now task
                                     (default EmptyString (dispatch task))
                                     (QueueManager.markRunning now
                                        (QueueManager.pt_runId task) s) in
                   (m, QueueManager.markFailed now (QueueManager.pt_runId task)
                         (default EmptyString (dispatch task))
                         (Some "DISPATCH_FAILED") s1) in
            tasks (snd out) = tasks s
            /\ (exists g, (forall r, tr_id (g r) = tr_id r)
                  /\ task_runs (snd out)
                     = update_where (has_id (QueueManager.pt_runId task)) g (task_runs s))
            /\ (exists added, dlq (snd out) = dlq s ++ added
                              /\ (List.length added <= 1)%nat)).
  { cbn. unfold QueueManager.markFailed.
    rewrite tasks_onTaskStatusChange, task_runs_onTaskStatusChange,
      dlq_onTaskStatusChange. cbn.
    split; [reflexivity|]. split.
    - eexists. split; [|apply update_where_twice; reflexivity]. reflexivity.
    - eexists [_]. split; [reflexivity|]. simpl. lia. }
  destruct (dispatch task) as [msg|].
  - cbn [default] in Hdlq.
    cbn [QueueManager.markRunning tasks with_task_runs].
    destruct (tasks s !! QueueManager.pt_taskId task) as [taskDef|]; [|exact Hdlq].
    destruct (QueueManager.pt_attempt task <? QueueManager.pt_maxRetries task);
      [|exact Hdlq].
    unfold RetryManager.scheduleRetry.
    cbn [RetryManager.maxRetries RetryManager.attempt RetryManager.runId].
    destruct (QueueManager.pt_maxRetries task <=? QueueManager.pt_attempt task).
    + cbn. auto.
    + cbv zeta.
      destruct (RetryManager.scheduled_date other_date now _) as [scheduledFor|err];
        cbn [mbind result_bind]; [|cbn; auto].
      cbn. split; [reflexivity|]. split; [|exact Hnone].
      eexists. split; [|apply update_where_twice; reflexivity]. reflexivity.
  - cbn [QueueManager.markRunning tasks with_task_runs].
    destruct (tasks s !! QueueManager.pt_taskId task); cbn; auto.
Qed.

(** X12.  One poll cycle claims at most [maxConcurrency] runs and none
    at all unless the orchestrator accepts tasks; it never changes a
    task definition, never adds or removes a run, and rewrites only runs
    whose id is the id of a run that was eligible when the cycle began;
    the dead-letter queue only grows, by at most one entry per claimed
    run. *)
Theorem X12_poll_touches_only_eligible_runs
    (nanoid : nat -> string) (dispatch : QueueManager.PendingTask -> option string)
    (other_date : Time -> RetryManager.RetryOptions -> result (option Time))
    (now : Time) (maxConcurrency : Z) (m : HeartbeatMonitor.Monitor) (s : Store) :
  let out := TaskPoller.poll nanoid dispatch other_date now maxConcurrency (m, s) in
  0 <= fst out <= Z.max 0 maxConcurrency
  /\ (TaskPoller.canAcceptTasks s = false -> out = (0, (m, s)))
  /\ tasks (snd (snd out)) = tasks s
  /\ List.Forall2
       (fun r r' =>
          tr_id r' = tr_id r
          /\ ((forall q, In q (task_runs s) ->
                 QueueManager.eligible now s q = true -> tr_id q <> tr_id r) ->
              r' = r))
       (task_runs s) (task_runs (snd (snd out)))
  /\ exists added,
       dlq (snd (snd out)) = dlq s ++ added
       /\ Z.of_nat (List.length added) <= fst out.
Proof.
  cbv zeta.
  assert (Hrefl : forall ids : list string,
            List.Forall2 (fun r r' => tr_id r' = tr_id r
                                      /\ (~ In (tr_id r) ids -> r' = r))
              (task_runs s) (task_runs s)).
  { intros ids. induction (task_runs s); constructor; auto. }
  assert (Hidle :
    0 <= 0 <= Z.max 0 maxConcurrency
    /\ (TaskPoller.canAcceptTasks s = false -> (0, (m, s)) = (0, (m, s)))
    /\ tasks s = tasks s
    /\ List.Forall2
         (fun r r' =>
            tr_id r' = tr_id r
            /\ ((forall q, In q (task_runs s) ->
                   QueueManager.eligible now s q = true -> tr_id q <> tr_id r) ->
                r' = r))
         (task_runs s) (task_runs s)
    /\ exists added : list DLQRow, dlq s = dlq s ++ added
                                   /\ Z.of_nat (List.length added) <= 0).
  { split; [lia|]. split; [auto|]. split; [auto|]. split.
    - apply Forall_Forall2_diag, List.Forall_forall. auto.
    - exists []. rewrite List.app_nil_r. simpl. split; [reflexivity|lia]. }
  unfold TaskPoller.poll. cbn [snd].
  destruct (TaskPoller.canAcceptTasks s) eqn:Hacc; [|exact Hidle].
  destruct (QueueManager.getNext now maxConcurrency s) as [claimed|msg] eqn:Hnext;
    [|exact Hidle].
  cbn [fst snd].
  assert (Hfold : forall claimed m0 s0,
    let out := List.fold_left
                 (fun acc task =>
                    TaskPoller.dispatchOne nanoid dispatch other_date now task acc)
                 claimed (m0, s0) in
    tasks (snd out) = tasks s0
    /\ List.Forall2 (fun r r' => tr_id r' = tr_id r
                       /\ (~ In (tr_id r) (List.map QueueManager.pt_runId claimed)
                           -> r' = r))
         (task_runs s0) (task_runs (snd out))
    /\ exists added, dlq (snd out) = dlq s0 ++ added
                     /\ (List.length added <= List.length claimed)%nat).
  { clear. induction claimed as [|task claimed IH]; intros m0 s0; cbv zeta.
    - simpl. split; [reflexivity|]. split.
      + induction (task_runs s0); constructor; auto.
      + exists []. rewrite List.app_nil_r. auto.
    - cbn [List.fold_left].
      pose proof (dispatchOne_tables nanoid dispatch other_date now task m0 s0) as H1.
      cbv zeta in H1.
      destruct (TaskPoller.dispatchOne nanoid dispatch other_date now task (m0, s0))
        as [m1 s1].
      cbn [snd] in H1. destruct H1 as (Ht1 & (g & Hg & Hr1) & (a1 & Hd1 & Hl1)).
      specialize (IH m1 s1). cbv zeta in IH.
      destruct IH as (Ht2 & Hr2 & (a2 & Hd2 & Hl2)).
      split; [congruence|]. split.
      + eapply Forall2_trans; [| |exact Hr2].
        2:{ rewrite Hr1. apply update_by_id_frame. exact Hg. }
        simpl. intros x y z [Hxy1 Hxy2] [Hyz1 Hyz2]. split; [congruence|].
        intros Hnot.
        assert (y = x) as -> by (apply Hxy2; auto).
        apply Hyz2. auto.
      + exists (a1 ++ a2). rewrite Hd2, Hd1, <- List.app_assoc, List.length_app.
        split; [reflexivity|]. simpl. lia. }
  specialize (Hfold claimed m s). cbv zeta in Hfold.
  destruct Hfold as (Ht & Hr & (added & Hd & Hl)).
  assert (Hlen : Z.of_nat (List.length claimed) <= Z.max 0 maxConcurrency).
  { unfold QueueManager.getNext in Hnext.
    destruct (maxConcurrency <? 0) eqn:E; [discriminate|].
    injection Hnext as <-. rewrite List.length_map.
    pose proof (List.firstn_le_length (Z.to_nat maxConcurrency)
                  (QueueManager.order_by QueueManager.before
                     (List.filter (QueueManager.eligible now s) (task_runs s)))).
    rewrite List.length_firstn. lia. }
  split; [lia|]. split; [discriminate|]. split; [exact Ht|]. split.
  - eapply List.Forall2_impl; [|exact Hr]. simpl. intros r r' [Hid Hsame].
    split; [exact Hid|]. intros Hfree. apply Hsame. intros Hin.
    apply List.in_map_iff in Hin as (task & Htask & Hin).
    destruct (getNext_returns_eligible _ _ _ _ Hnext task Hin) as (q & Hq & -> & Hel).
    simpl in Htask. exact (Hfree q Hq Hel Htask).
  - exists added. split; [exact Hd|]. lia.
Qed.

(** X13.  When every dispatch of a poll cycle succeeds, the cycle
    reports the number of claimed runs, exactly the runs carrying a
    claimed id are rewritten, each to [running] with [started_at] set to
    the time of the cycle, nothing reaches the dead-letter queue, and
    every claimed run is tracked by the heartbeat monitor from that
    time on. *)
Theorem X13_successful_poll_starts_every_claimed_run
    (nanoid : nat -> string)
    (other_date : Time -> RetryManager.RetryOptions -> result (option Time))
    (now : Time) (maxConcurrency : Z)
    (m : HeartbeatMonitor.Monitor) (s : Store)
    (claimed : list QueueManager.PendingTask) :
  TaskPoller.canAcceptTasks s = true ->
  QueueManager.getNext now maxConcurrency s = Ok claimed ->
  let out :=
    TaskPoller.poll nanoid (fun _ => None) other_date now maxConcurrency (m, s) in
  fst out = Z.of_nat (List.length claimed)
  /\ task_runs (snd (snd out))
     = update_where
         (fun r => List.existsb (String.eqb (tr_id r))
                     (List.map QueueManager.pt_runId claimed))
         (QueueManager.running_row now) (task_runs s)
  /\ dlq (snd (snd out)) = dlq s
  /\ forall task, In task claimed ->
       exists tracker,
         HeartbeatMonitor.trackers (fst (snd out)) !! QueueManager.pt_runId task
         = Some tracker
         /\ HeartbeatMonitor.lastHeartbeat tracker = now.
Proof.
  intros Hacc Hnext. cbv zeta. unfold TaskPoller.poll. cbn [snd].
  rewrite Hacc, Hnext. cbn [fst snd].
  split; [reflexivity|].
  assert (Hreg : forall task, In task claimed ->
                   is_Some (tasks s !! QueueManager.pt_taskId task)).
  { intros task Hin.
    destruct (getNext_returns_eligible _ _ _ _ Hnext task Hin) as (r & _ & -> & Hel).
    unfold QueueManager.eligible in Hel. simpl.
    destruct (tasks s !! tr_task_id r); [eauto|].
    rewrite andb_false_r in Hel. discriminate. }
  clear Hnext Hacc. revert m s Hreg.
  assert (Hfold : forall (claimed : list QueueManager.PendingTask) m s,
    (forall task, In task claimed ->
       is_Some (tasks s !! QueueManager.pt_taskId task)) ->
    let out := List.fold_left
                 (fun acc task =>
                    TaskPoller.dispatchOne nanoid (fun _ => None) other_date now
                      task acc)
                 claimed (m, s) in
    tasks (snd out) = tasks s
    /\ task_runs (snd out)
       = update_where
           (fun r => List.existsb (String.eqb (tr_id r))
                       (List.map QueueManager.pt_runId claimed))
           (QueueManager.running_row now) (task_runs s)
    /\ dlq (snd out) = dlq s
    /\ forall runId,
         (In runId (List.map QueueManager.pt_runId claimed)
          \/ exists tracker, HeartbeatMonitor.trackers m !! runId = Some tracker
                             /\ HeartbeatMonitor.lastHeartbeat tracker = now) ->
         exists tracker, HeartbeatMonitor.trackers (fst out) !! runId = Some tracker
                         /\ HeartbeatMonitor.lastHeartbeat tracker = now).
  { clear. induction claimed as [|task claimed IH]; intros m s Hreg; cbv zeta.
    - simpl. split; [reflexivity|]. split.
      + unfold update_where. rewrite List.map_id. reflexivity.
      + split; [reflexivity|]. intros runId [[]|H]. exact H.
    - cbn [List.fold_left].
      destruct (Hreg task (or_introl eq_refl)) as [taskDef HtaskDef].
      assert (Hstep :
        TaskPoller.dispatchOne nanoid (fun _ => None) other_date now task (m, s)
        = (HeartbeatMonitor.startTracking now (QueueManager.pt_runId task)
             (QueueManager.pt_taskId task) (t_heartbeat_interval_ms taskDef) m,
           QueueManager.markRunning now (QueueManager.pt_runId task) s)).
      { unfold TaskPoller.dispatchOne.
        cbn [QueueManager.markRunning tasks with_task_runs].
        rewrite HtaskDef. reflexivity. }
      rewrite Hstep.
      match goal with
      | |- context [List.fold_left _ claimed (?m1, ?s1)] =>
          specialize (IH m1 s1); cbv zeta in IH
      end.
      destruct IH as (Ht & Hr & Hd & Htr).
      { intros t Hin. simpl. apply Hreg. right. exact Hin. }
      split; [exact Ht|]. split; [|split; [exact Hd|]].
      + etransitivity; [exact Hr|].
        cbn [task_runs with_task_runs QueueManager.markRunning]. unfold update_where.
        rewrite List.map_map. apply List.map_ext. intros r.
        cbn [List.map List.existsb]. unfold has_id.
        destruct (String.eqb (tr_id r) (QueueManager.pt_runId task)); cbn.
        * destruct (List.existsb _ _); reflexivity.
        * reflexivity.
      + intros runId H. apply Htr.
        destruct (decide (runId = QueueManager.pt_runId task)) as [->|Hne].
        * right. unfold HeartbeatMonitor.startTracking.
          cbn [HeartbeatMonitor.trackers]. rewrite lookup_insert_eq. eauto.
        * destruct H as [[Heq|Hin]|Hold].
          -- congruence.
          -- left. exact Hin.
          -- right. unfold HeartbeatMonitor.startTracking.
             cbn [HeartbeatMonitor.trackers]. rewrite lookup_insert_ne by congruence.
             exact Hold. }
  intros m s Hreg. specialize (Hfold claimed m s Hreg). cbv zeta in Hfold.
  destruct Hfold as (_ & Hr & Hd & Htr).
  split; [exact Hr|]. split; [exact Hd|].
  intros task Hin. apply Htr. left. apply List.in_map. exact Hin.
Qed.

(** X13 (witness).  The three pending runs of T are all started by one
    cycle. *)
Lemma X13_witness_three_runs_started :
  List.map Scenario.summary
    (task_runs (snd (snd (TaskPoller.poll Scenario.nanoid (fun _ => None)
                            Scenario.strict_dates 2000 10
                            (HeartbeatMonitor.empty, Scenario.capped0)))))
  = [("trun_0", "T", running); ("trun_1", "T", running); ("trun_2", "T", running)].
Proof.
  rewrite (proj1 (proj2 (X13_successful_poll_starts_every_claimed_run
             Scenario.nanoid Scenario.strict_dates 2000 10
             HeartbeatMonitor.empty Scenario.capped0
             (match QueueManager.getNext 2000 10 Scenario.capped0 with
              | Ok claimed => claimed
              | Throw _ => []
              end) eq_refl eq_refl))).
  vm_compute. reflexivity.
Defined.

(** X14.  A dispatch that fails never starts heartbeat tracking and
    touches no row of another run.  When the task is registered and
    the claimed attempt is below [maxRetries], the run is handed to
    [scheduleRetry] and the dead-letter queue is untouched: if the
    delay [calculateDelay] gives for the claimed attempt is an integer
    and [now + delay] a date from the epoch on, the rows of the run
    are pending again with the next attempt number, scheduled for
    [now + delay], with the failed attempt appended to their history;
    in every case they are rescheduled for the date the database took,
    or, when it rejected the date, left [running] as [markRunning]
    wrote them.  Otherwise exactly one dead-letter entry is added for
    the run, with the dispatch error and the claimed attempt number,
    and the rows of the run are [failed] with error code
    [DISPATCH_FAILED]. *)
Theorem X14_failed_dispatch_retries_or_dead_letters
    (nanoid : nat -> string)
    (other_date : Time -> RetryManager.RetryOptions -> result (option Time))
    (msg : string) (now : Time)
    (task : QueueManager.PendingTask) (m : HeartbeatMonitor.Monitor) (s : Store) :
  let out :=
    TaskPoller.dispatchOne nanoid (fun _ => Some msg) other_date now task (m, s) in
  let retried :=
    match tasks s !! QueueManager.pt_taskId task with
    | Some taskDef =>
        if QueueManager.pt_attempt task <? QueueManager.pt_maxRetries task
        then Some taskDef else None
    | None => None
    end in
  let options taskDef :=
    {| RetryManager.runId := QueueManager.pt_runId task;
       RetryManager.taskId := QueueManager.pt_taskId task;
       RetryManager.attempt := QueueManager.pt_attempt task;
       RetryManager.maxRetries := QueueManager.pt_maxRetries task;
       RetryManager.retryBackoff := t_retry_backoff taskDef;
       RetryManager.retryDelayMs := t_retry_delay_ms taskDef;
       RetryManager.maxRetryDelayMs := t_max_retry_delay_ms taskDef;
       RetryManager.error := msg;
       RetryManager.errorCode := Some "DISPATCH_FAILED" |} in
  fst out = m
  /\ List.Forall2
       (fun r r' =>
          if has_id (QueueManager.pt_runId task) r
          then tr_id r' = tr_id r
               /\ match retried with
                  | Some taskDef =>
                      (forall delay,
                         RetryManager.calculateDelay (options taskDef) = JsInt delay ->
                         0 <= now + delay <= MAX_DATE ->
                         tr_status r' = pending
                         /\ tr_attempt r' = QueueManager.pt_attempt task + 1
                         /\ tr_scheduled_for r' = Some (now + delay)
                         /\ tr_previous_attempts r'
                            = tr_previous_attempts r
                              ++ [{| ar_attempt := QueueManager.pt_attempt task;
                                     ar_error := msg;
                                     ar_errorCode := Some "DISPATCH_FAILED";
                                     ar_timestamp := now |}])
                      /\ match RetryManager.scheduled_date other_date now
                                 (options taskDef) with
                         | Ok scheduledFor =>
                             tr_status r' = pending
                             /\ tr_attempt r' = QueueManager.pt_attempt task + 1
                             /\ tr_scheduled_for r' = scheduledFor
                         | Throw _ => r' = QueueManager.running_row now r
                         end
                  | None =>
                      tr_status r' = failed
                      /\ tr_error r' = Some msg
                      /\ tr_error_code r' = Some "DISPATCH_FAILED"
                      /\ tr_attempt r' = tr_attempt r
                  end
          else r' = r)
       (task_runs s) (task_runs (snd out))
  /\ match retried with
     | Some _ => dlq (snd out) = dlq s
     | None =>
         exists entry,
           dlq (snd out) = dlq s ++ [entry]
           /\ dlq_task_run_id entry = QueueManager.pt_runId task
           /\ dlq_error entry = msg
           /\ dlq_attempts entry = QueueManager.pt_attempt task
     end.
Proof.
  cbv zeta. unfold TaskPoller.dispatchOne.
  cbn [QueueManager.markRunning tasks with_task_runs].
  assert (Hdead :
    let out :=
      let '(_, s1) := DLQManager.add nanoid now task msg
                        (QueueManager.markRunning now (QueueManager.pt_runId task) s) in
      (m, QueueManager.markFailed now (QueueManager.pt_runId task) msg
            (Some "DISPATCH_FAILED") s1) in
    fst out = m
    /\ List.Forall2
         (fun r r' =>
            if has_id (QueueManager.pt_runId task) r
            then tr_id r' = tr_id r
                 /\ tr_status r' = failed
                 /\ tr_error r' = Some msg
                 /\ tr_error_code r' = Some "DISPATCH_FAILED"
                 /\ tr_attempt r' = tr_attempt r
            else r' = r)
         (task_runs s) (task_runs (snd out))
    /\ exists entry,
         dlq (snd out) = dlq s ++ [entry]
         /\ dlq_task_run_id entry = QueueManager.pt_runId task
         /\ dlq_error entry = msg
         /\ dlq_attempts entry = QueueManager.pt_attempt task).
  { unfold DLQManager.add, QueueManager.markFailed, QueueManager.markRunning.
    cbn [fst snd].
    rewrite task_runs_onTaskStatusChange, dlq_onTaskStatusChange.
    cbn [fst snd task_runs dlq with_task_runs].
    split; [reflexivity|]. split.
    - rewrite update_where_twice by reflexivity.
      eapply List.Forall2_impl; [|apply update_where_Forall2].
      simpl. intros r r' ->. destruct (has_id _ r); simpl; auto.
    - eexists. split; [reflexivity|]. simpl. auto. }
  cbv zeta in Hdead.
  destruct (tasks s !! QueueManager.pt_taskId task) as [taskDef|]; [|exact Hdead].
  destruct (QueueManager.pt_attempt task <? QueueManager.pt_maxRetries task) eqn:E;
    [|exact Hdead].
  unfold RetryManager.scheduleRetry.
  cbn [RetryManager.maxRetries RetryManager.attempt RetryManager.runId].
  assert ((QueueManager.pt_maxRetries task <=? QueueManager.pt_attempt task) = false)
    as -> by lia.
  cbv zeta.
  match goal with
  | |- context [RetryManager.scheduled_date other_date now ?o] => set (opts := o)
  end.
  assert (Hdom : forall delay,
            RetryManager.calculateDelay opts = JsInt delay ->
            0 <= now + delay <= MAX_DATE ->
            RetryManager.scheduled_date other_date now opts = Ok (Some (now + delay))).
  { intros delay Hdelay Hdate. unfold RetryManager.scheduled_date. rewrite Hdelay.
    assert ((0 <=? now + delay) && (now + delay <=? MAX_DATE) = true) as ->
      by (apply andb_true_iff; lia).
    reflexivity. }
  unfold QueueManager.markRunning.
  destruct (RetryManager.scheduled_date other_date now opts) as [scheduledFor|err];
    cbn [mbind result_bind fst snd task_runs dlq with_task_runs].
  - split; [reflexivity|]. split; [|reflexivity].
    rewrite update_where_twice by reflexivity.
    eapply List.Forall2_impl; [|apply update_where_Forall2].
    simpl. intros r r' ->. destruct (has_id _ r); simpl; [|reflexivity].
    split; [reflexivity|]. split; [|auto].
    intros delay Hdelay Hdate. specialize (Hdom delay Hdelay Hdate).
    injection Hdom as ->. auto.
  - split; [reflexivity|]. split; [|reflexivity].
    eapply List.Forall2_impl; [|apply update_where_Forall2].
    simpl. intros r r' ->. destruct (has_id _ r); simpl; [|reflexivity].
    split; [reflexivity|]. split; [|reflexivity].
    intros delay Hdelay Hdate. specialize (Hdom delay Hdelay Hdate). discriminate.
Qed.

(** ** The registry *)

Lemma existing_task_ids_In (serviceId : string) (ts : gmap string TaskDef)
    (tid : string) :
  In tid (ServiceRegistry.existing_task_ids serviceId ts)
  <-> exists t, ts !! tid = Some t /\ t_service_id t = serviceId.
Proof.
  unfold ServiceRegistry.existing_task_ids. rewrite List.in_map_iff. split.
  - intros ([k t] & <- & Hin). apply List.filter_In in Hin as [Hin Hsvc].
    apply list_elem_of_In, elem_of_map_to_list in Hin. simpl in *.
    apply String.eqb_eq in Hsvc. eauto.
  - intros (t & Ht & Hsvc). exists (tid, t). split; [reflexivity|].
    apply List.filter_In. split.
    + apply list_elem_of_In, elem_of_map_to_list. exact Ht.
    + simpl. apply String.eqb_eq. exact Hsvc.
Qed.

Lemma includes_In (l : list string) (x : string) :
  ServiceRegistry.includes l x = true <-> In x l.
Proof.
  unfold ServiceRegistry.includes. rewrite List.existsb_exists. split.
  - intros (y & Hin & Heq). apply String.eqb_eq in Heq. congruence.
  - intros Hin. exists x. split; [exact Hin|apply String.eqb_refl].
Qed.

Lemma includes_snoc (l : list string) (e x : string) :
  ServiceRegistry.includes (l ++ [e]) x
  = ServiceRegistry.includes l x || String.eqb x e.
Proof.
  unfold ServiceRegistry.includes. rewrite List.existsb_app. simpl.
  rewrite orb_false_r. reflexivity.
Qed.

Lemma orphan_loop (now : Time) (version : string) (newTaskIds existing : list string)
    (rows : list TaskRun) :
  List.fold_left (ServiceRegistry.orphan_step now version newTaskIds) existing ([], rows)
  = (List.filter (fun e => negb (ServiceRegistry.includes newTaskIds e)) existing,
     update_where
       (fun r =>
          ServiceRegistry.includes
            (List.filter (fun e => negb (ServiceRegistry.includes newTaskIds e)) existing)
            (tr_task_id r)
          && has_status pending r)
       (cancelled_row now ("Task type removed in version " +:+ version)) rows).
Proof.
  assert (H : forall acc,
    List.fold_left (ServiceRegistry.orphan_step now version newTaskIds) existing
      (acc, update_where
              (fun r => ServiceRegistry.includes acc (tr_task_id r) && has_status pending r)
              (cancelled_row now ("Task type removed in version " +:+ version)) rows)
    = (acc ++ List.filter (fun e => negb (ServiceRegistry.includes newTaskIds e)) existing,
       update_where
         (fun r =>
            ServiceRegistry.includes
              (acc ++ List.filter
                        (fun e => negb (ServiceRegistry.includes newTaskIds e)) existing)
              (tr_task_id r)
            && has_status pending r)
         (cancelled_row now ("Task type removed in version " +:+ version)) rows)).
  { induction existing as [|e existing IH]; intros acc.
    - simpl. rewrite List.app_nil_r. reflexivity.
    - cbn [List.fold_left List.filter]. unfold ServiceRegistry.orphan_step at 2.
      destruct (ServiceRegistry.includes newTaskIds e); cbn [negb fst snd].
      + apply IH.
      + replace (acc ++ e :: List.filter _ existing)
          with ((acc ++ [e]) ++ List.filter
                  (fun e => negb (ServiceRegistry.includes newTaskIds e)) existing)
          by (rewrite <- List.app_assoc; reflexivity).
        rewrite <- IH. f_equal. f_equal.
        unfold update_where. rewrite List.map_map. apply List.map_ext. intros r.
        rewrite includes_snoc.
        destruct (ServiceRegistry.includes acc (tr_task_id r)) eqn:Ha;
          destruct (has_status pending r) eqn:Hp; cbn [andb orb];
          rewrite ?Hp, ?andb_false_r, ?andb_true_r; reflexivity. }
  specialize (H []).
  replace (update_where
             (fun r => ServiceRegistry.includes [] (tr_task_id r) && has_status pending r)
             (cancelled_row now ("Task type removed in version " +:+ version)) rows)
    with rows in H.
  - exact H.
  - unfold update_where. symmetry. rewrite <- (List.map_id rows) at 2.
    apply List.map_ext. intros r. reflexivity.
Qed.

(** X15.  Registration cancels runs of removed tasks only.  A stored
    task is reported as orphaned exactly when the service was already
    registered under a different version, the task belongs to the
    service and the request does not list it.  The pending runs of the
    orphaned tasks are cancelled with the message naming the new
    version; every other run is left as it was.  In particular a first
    registration, or one under the same version, changes no run and
    reports no orphan. *)
Theorem X15_registration_cancels_pending_runs_of_orphans
    (now : Time) (request : ServiceRegistry.RegisterServiceRequest) (s : Store) :
  let out := ServiceRegistry.registerService now request s in
  let orphans := default [] (ServiceRegistry.orphanedTasks (fst out)) in
  (forall tid,
     In tid orphans
     <-> (exists svc, services s !! ServiceRegistry.serviceId request = Some svc
                      /\ svc_version svc <> ServiceRegistry.version request)
         /\ (exists t, tasks s !! tid = Some t
                       /\ t_service_id t = ServiceRegistry.serviceId request)
         /\ ~ In tid (List.map ServiceRegistry.id (ServiceRegistry.reg_tasks request)))
  /\ task_runs (snd out)
     = update_where
         (fun r => ServiceRegistry.includes orphans (tr_task_id r)
                   && has_status pending r)
         (cancelled_row now
            ("Task type removed in version " +:+ ServiceRegistry.version request))
         (task_runs s)
  /\ ServiceRegistry.orphanedTasks (fst out) <> Some [].
Proof.
  cbv zeta. unfold ServiceRegistry.registerService.
  destruct (List.fold_left
              (ServiceRegistry.upsert_task now (ServiceRegistry.serviceId request)
                 (ServiceRegistry.version request))
              (ServiceRegistry.reg_tasks request) (tasks s, task_code_history s, []))
    as [[ts hist] changes].
  set (versionChanged :=
         match services s !! ServiceRegistry.serviceId request with
         | Some existingService =>
             negb (String.eqb (svc_version existingService)
                     (ServiceRegistry.version request))
         | None => false
         end).
  assert (Hchanged : versionChanged = true
            <-> exists svc, services s !! ServiceRegistry.serviceId request = Some svc
                            /\ svc_version svc <> ServiceRegistry.version request).
  { unfold versionChanged.
    destruct (services s !! ServiceRegistry.serviceId request) as [svc|].
    - rewrite negb_true_iff, String.eqb_neq. split; [eauto|].
      intros (svc' & [= <-] & Hne). exact Hne.
    - split; [discriminate|]. intros (svc' & Hnone & _). discriminate. }
  destruct versionChanged.
  - rewrite orphan_loop.
    set (orphaned := List.filter _ _).
    assert (Horph : default [] (match orphaned with
                                | [] => None
                                | _ :: _ => Some orphaned
                                end) = orphaned)
      by (destruct orphaned; reflexivity).
    cbn [fst snd task_runs ServiceRegistry.orphanedTasks]. rewrite Horph.
    split; [|split; [reflexivity|destruct orphaned; discriminate]].
    intros tid. unfold orphaned. rewrite List.filter_In, existing_task_ids_In.
    rewrite negb_true_iff, <- not_true_iff_false, includes_In.
    split.
    + intros [Ht Hnot]. split; [apply Hchanged; reflexivity|]. auto.
    + intros (_ & Ht & Hnot). auto.
  - cbn [fst snd task_runs ServiceRegistry.orphanedTasks default].
    split; [|split; [|discriminate]].
    + intros tid. split; [intros []|]. intros (Hsvc & _).
      apply Hchanged in Hsvc. discriminate.
    + unfold update_where. rewrite <- (List.map_id (task_runs s)) at 1.
      apply List.map_ext. intros r. reflexivity.
Qed.

(** What one upsert does to the three tables it threads. *)
Lemma upsert_task_step (now : Time) (serviceId version : string)
    (ts : gmap string TaskDef) (hist : list HistoryRow)
    (changes : list ServiceRegistry.CodeChange)
    (task : ServiceRegistry.TaskRegistration) :
  let out := ServiceRegistry.upsert_task now serviceId version (ts, hist, changes) task in
  (exists v,
     fst (fst out)
     = <[ServiceRegistry.id task :=
           ServiceRegistry.task_row now serviceId (ServiceRegistry.codeHashOf task) v
             (ts !! ServiceRegistry.id task) task]> ts
     /\ match ts !! ServiceRegistry.id task with
        | Some old => t_code_version old <= v <= t_code_version old + 1
        | None => v = 1
        end)
  /\ exists addedH addedC,
       snd (fst out) = hist ++ addedH
       /\ snd out = changes ++ addedC
       /\ (List.length addedH <= List.length addedC <= 1)%nat
       /\ List.Forall
            (fun c => ServiceRegistry.newVersion c = ServiceRegistry.oldVersion c + 1
                      /\ ServiceRegistry.oldHash c <> ServiceRegistry.newHash c
                      /\ ServiceRegistry.cc_taskId c = ServiceRegistry.id task
                      /\ (t_code_version <$> ts !! ServiceRegistry.id task)
                         = Some (ServiceRegistry.oldVersion c))
            addedC.
Proof.
  cbv zeta. unfold ServiceRegistry.upsert_task.
  assert (Hnil : exists (addedH : list HistoryRow)
                        (addedC : list ServiceRegistry.CodeChange),
             hist = hist ++ addedH /\ changes = changes ++ addedC
             /\ (List.length addedH <= List.length addedC <= 1)%nat
             /\ List.Forall
                  (fun c => ServiceRegistry.newVersion c = ServiceRegistry.oldVersion c + 1
                            /\ ServiceRegistry.oldHash c <> ServiceRegistry.newHash c
                            /\ ServiceRegistry.cc_taskId c = ServiceRegistry.id task
                            /\ (t_code_version <$> ts !! ServiceRegistry.id task)
                               = Some (ServiceRegistry.oldVersion c))
                  addedC).
  { exists [], []. rewrite !List.app_nil_r. simpl.
    split; [reflexivity|]. split; [reflexivity|]. split; [lia|constructor]. }
  destruct (ts !! ServiceRegistry.id task) as [old|] eqn:Hold.
  - destruct (String.eqb (t_code_hash old) (ServiceRegistry.codeHashOf task)) eqn:E;
      cbn [negb fst snd].
    + split; [|exact Hnil]. eexists. split; [reflexivity|]. lia.
    + split; [eexists; split; [reflexivity|lia]|].
      apply String.eqb_neq in E.
      destruct (ServiceRegistry.history_exists _ _ hist).
      * exists []. eexists [_]. rewrite List.app_nil_r. simpl.
        split; [reflexivity|]. split; [reflexivity|]. split; [lia|].
        constructor; [|constructor]. simpl. auto.
      * eexists [_], [_]. simpl.
        split; [reflexivity|]. split; [reflexivity|]. split; [lia|].
        constructor; [|constructor]. simpl. auto.
  - cbn [fst snd]. split; [|exact Hnil]. eexists. split; reflexivity.
Qed.

Lemma upsert_loop (now : Time) (serviceId version : string)
    (l : list ServiceRegistry.TaskRegistration) :
  forall (ts : gmap string TaskDef) (hist : list HistoryRow)
         (changes : list ServiceRegistry.CodeChange),
    let out := List.fold_left (ServiceRegistry.upsert_task now serviceId version) l
                 (ts, hist, changes) in
    (forall tid old, ts !! tid = Some old ->
       exists new, fst (fst out) !! tid = Some new
                   /\ t_code_version old <= t_code_version new
                   /\ t_registered_at new = t_registered_at old)
    /\ (forall tid, ~ In tid (List.map ServiceRegistry.id l) ->
          fst (fst out) !! tid = ts !! tid)
    /\ exists addedH addedC,
         snd (fst out) = hist ++ addedH
         /\ snd out = changes ++ addedC
         /\ (List.length addedH <= List.length addedC <= List.length l)%nat
         /\ List.Forall
              (fun c => ServiceRegistry.newVersion c = ServiceRegistry.oldVersion c + 1
                        /\ ServiceRegistry.oldHash c <> ServiceRegistry.newHash c
                        /\ In (ServiceRegistry.cc_taskId c)
                             (List.map ServiceRegistry.id l))
              addedC.
Proof.
  induction l as [|task l IH]; intros ts hist changes; cbv zeta.
  - simpl. split; [eauto with lia|]. split; [auto|].
    exists [], []. rewrite !List.app_nil_r. simpl.
    split; [reflexivity|]. split; [reflexivity|]. split; [lia|constructor].
  - cbn [List.fold_left].
    pose proof (upsert_task_step now serviceId version ts hist changes task) as Hstep.
    cbv zeta in Hstep.
    destruct (ServiceRegistry.upsert_task now serviceId version (ts, hist, changes) task)
      as [[ts1 hist1] changes1].
    cbn [fst snd] in Hstep.
    destruct Hstep as [(v & Hts1 & Hv) (aH1 & aC1 & Hh1 & Hc1 & Hlen1 & Hall1)].
    specialize (IH ts1 hist1 changes1). cbv zeta in IH.
    destruct IH as (Hmono & Hframe & aH2 & aC2 & Hh2 & Hc2 & Hlen2 & Hall2).
    split; [|split].
    + intros tid old Hold.
      assert (Hmid : exists mid, ts1 !! tid = Some mid
                                 /\ t_code_version old <= t_code_version mid
                                 /\ t_registered_at mid = t_registered_at old).
      { rewrite Hts1.
        destruct (decide (ServiceRegistry.id task = tid)) as [<-|Hne].
        - rewrite lookup_insert_eq. eexists. split; [reflexivity|].
          rewrite Hold in *. simpl. split; [lia|reflexivity].
        - rewrite lookup_insert_ne by exact Hne. exists old. split; [exact Hold|].
          split; [lia|reflexivity]. }
      destruct Hmid as (mid & Hmid & Hv1 & Hr1).
      destruct (Hmono tid mid Hmid) as (new & Hnew & Hv2 & Hr2).
      exists new. split; [exact Hnew|]. split; [lia|congruence].
    + intros tid Hnot. simpl in Hnot.
      rewrite Hframe by tauto. rewrite Hts1.
      apply lookup_insert_ne. tauto.
    + exists (aH1 ++ aH2), (aC1 ++ aC2).
      rewrite Hh2, Hc2, Hh1, Hc1, <- !List.app_assoc, !List.length_app.
      split; [reflexivity|]. split; [reflexivity|]. split; [simpl; lia|].
      apply List.Forall_app. split.
      * eapply List.Forall_impl; [|exact Hall1]. simpl.
        intros c (H1 & H2 & H3 & _). auto.
      * eapply List.Forall_impl; [|exact Hall2]. simpl.
        intros c (H1 & H2 & H3). auto.
Qed.

(** X16.  Registration only ever adds to the registry.  Every task that
    was stored stays stored, with a [code_version] that has not gone
    down and with its [registered_at] kept, also when the task is
    reported as orphaned; tasks the request does not list are not
    touched at all.  The code history is only appended to, by at most
    one row per reported code change, and there is at most one code
    change per listed task; each change raises the version by exactly
    one, between two different hashes, for a task of the request. *)
Theorem X16_registration_never_removes_or_downgrades
    (now : Time) (request : ServiceRegistry.RegisterServiceRequest) (s : Store) :
  let out := ServiceRegistry.registerService now request s in
  (forall tid old, tasks s !! tid = Some old ->
     exists new, ServiceRegistry.getTask tid (snd out) = Some new
                 /\ t_code_version old <= t_code_version new
                 /\ t_registered_at new = t_registered_at old)
  /\ (forall tid,
        ~ In tid (List.map ServiceRegistry.id (ServiceRegistry.reg_tasks request)) ->
        ServiceRegistry.getTask tid (snd out) = ServiceRegistry.getTask tid s)
  /\ (exists added,
        task_code_history (snd out) = task_code_history s ++ added
        /\ (List.length added
            <= List.length (ServiceRegistry.codeChanges (fst out))
            <= List.length (ServiceRegistry.reg_tasks request))%nat)
  /\ List.Forall
       (fun c => ServiceRegistry.newVersion c = ServiceRegistry.oldVersion c + 1
                 /\ ServiceRegistry.oldHash c <> ServiceRegistry.newHash c
                 /\ In (ServiceRegistry.cc_taskId c)
                      (List.map ServiceRegistry.id (ServiceRegistry.reg_tasks request)))
       (ServiceRegistry.codeChanges (fst out)).
Proof.
  cbv zeta. unfold ServiceRegistry.getTask.
  destruct (registerService_tables now request s) as (Ht & Hh & Hc).
  rewrite Ht, Hh, Hc.
  pose proof (upsert_loop now (ServiceRegistry.serviceId request)
                (ServiceRegistry.version request) (ServiceRegistry.reg_tasks request)
                (tasks s) (task_code_history s) []) as H.
  cbv zeta in H. destruct H as (Hmono & Hframe & aH & aC & HaH & HaC & Hlen & Hall).
  split; [exact Hmono|]. split; [exact Hframe|]. rewrite HaC. simpl. split.
  - exists aH. split; [exact HaH|]. exact Hlen.
  - exact Hall.
Qed.

Lemma upsert_loop_last (now : Time) (serviceId version : string)
    (l : list ServiceRegistry.TaskRegistration) :
  List.NoDup (List.map ServiceRegistry.id l) ->
  forall (ts : gmap string TaskDef) (hist : list HistoryRow)
         (changes : list ServiceRegistry.CodeChange) task,
    In task l ->
    exists v,
      fst (fst (List.fold_left (ServiceRegistry.upsert_task now serviceId version) l
                  (ts, hist, changes)))
        !! ServiceRegistry.id task
      = Some (ServiceRegistry.task_row now serviceId (ServiceRegistry.codeHashOf task) v
                (ts !! ServiceRegistry.id task) task)
      /\ match ts !! ServiceRegistry.id task with
         | Some old => t_code_version old <= v <= t_code_version old + 1
         | None => v = 1
         end.
Proof.
  induction l as [|x l IH]; intros Hnd ts hist changes task Hin; [destruct Hin|].
  cbn [List.fold_left]. simpl in Hnd. apply List.NoDup_cons_iff in Hnd as [Hx Hnd].
  pose proof (upsert_task_step now serviceId version ts hist changes x) as Hstep.
  cbv zeta in Hstep.
  destruct (ServiceRegistry.upsert_task now serviceId version (ts, hist, changes) x)
    as [[ts1 hist1] changes1].
  cbn [fst snd] in Hstep. destruct Hstep as [(v & Hts1 & Hv) _].
  destruct Hin as [->|Hin].
  - pose proof (upsert_loop now serviceId version l ts1 hist1 changes1) as Hloop.
    cbv zeta in Hloop. destruct Hloop as (_ & Hframe & _).
    rewrite (Hframe _ Hx), Hts1, lookup_insert_eq. exists v. split; [reflexivity|exact Hv].
  - assert (Hne : ServiceRegistry.id x <> ServiceRegistry.id task).
    { intros Heq. apply Hx. rewrite Heq. apply List.in_map. exact Hin. }
    destruct (IH Hnd ts1 hist1 changes1 task Hin) as (v' & Hrow & Hv').
    assert (Hlk : ts1 !! ServiceRegistry.id task = ts !! ServiceRegistry.id task)
      by (rewrite Hts1; apply lookup_insert_ne; exact Hne).
    rewrite Hlk in Hrow, Hv'.
    exists v'. split; [exact Hrow|exact Hv'].
Qed.

(** X17.  What [registerService] stores is what [getTask] returns.  For
    a request whose task ids are pairwise distinct, every listed task is
    stored under the service of the request with the hash computed for
    it, with the documented default for each setting the request leaves
    out, and with [updated_at] set to the time of the call; a task that
    was not stored before starts at version 1.  The service row is
    active, carries the version and URL of the request, and keeps the
    [registered_at] of an earlier registration. *)
Theorem X17_registered_task_is_stored_with_defaults
    (now : Time) (request : ServiceRegistry.RegisterServiceRequest) (s : Store)
    (task : ServiceRegistry.TaskRegistration) :
  List.NoDup (List.map ServiceRegistry.id (ServiceRegistry.reg_tasks request)) ->
  In task (ServiceRegistry.reg_tasks request) ->
  let out := ServiceRegistry.registerService now request s in
  (exists row,
     ServiceRegistry.getTask (ServiceRegistry.id task) (snd out) = Some row
     /\ t_service_id row = ServiceRegistry.serviceId request
     /\ t_code_hash row = ServiceRegistry.codeHashOf task
     /\ t_allowed_next row = default [] (ServiceRegistry.allowedNext task)
     /\ t_timeout_seconds row = default 300 (ServiceRegistry.timeout task)
     /\ t_retries row = default 3 (ServiceRegistry.retries task)
     /\ t_retry_backoff row = default exponential (ServiceRegistry.retryBackoff task)
     /\ t_retry_delay_ms row = default 1000 (ServiceRegistry.retryDelayMs task)
     /\ t_max_retry_delay_ms row
        = default 86400000 (ServiceRegistry.maxRetryDelayMs task)
     /\ t_heartbeat_interval_ms row
        = default 60000 (ServiceRegistry.heartbeatIntervalMs task)
     /\ t_concurrency row = default 0 (ServiceRegistry.concurrency task)
     /\ t_priority row = default 100 (ServiceRegistry.priority task)
     /\ t_updated_at row = now
     /\ (ServiceRegistry.getTask (ServiceRegistry.id task) s = None ->
         t_code_version row = 1 /\ t_registered_at row = now))
  /\ exists svc,
       services (snd out) !! ServiceRegistry.serviceId request = Some svc
       /\ svc_version svc = ServiceRegistry.version request
       /\ svc_base_url svc = ServiceRegistry.baseUrl request
       /\ svc_status svc = active
       /\ svc_last_heartbeat svc = now
       /\ svc_registered_at svc
          = match services s !! ServiceRegistry.serviceId request with
            | Some old => svc_registered_at old
            | None => now
            end.
Proof.
  intros Hnd Hin. cbv zeta. unfold ServiceRegistry.getTask. split.
  - destruct (registerService_tables now request s) as (Ht & _ & _). rewrite Ht.
    destruct (upsert_loop_last now (ServiceRegistry.serviceId request)
                (ServiceRegistry.version request) _ Hnd (tasks s)
                (task_code_history s) [] task Hin) as (v & Hrow & Hv).
    eexists. split; [exact Hrow|]. cbn.
    repeat split.
    + rewrite H in Hv. exact Hv.
    + rewrite H. reflexivity.
  - unfold ServiceRegistry.registerService.
    destruct (if match services s !! ServiceRegistry.serviceId request with
                 | Some existingService => _
                 | None => false
                 end then _ else _) as [orphaned runs].
    destruct (List.fold_left _ (ServiceRegistry.reg_tasks request) _)
      as [[ts hist] changes].
    cbn [snd services]. unfold ServiceRegistry.upsert_service.
    rewrite lookup_insert_eq. eexists. split; [reflexivity|]. simpl. auto.
Qed.

(** X17 (witness).  Two new tasks registered without settings: task t
    is stored with three retries. *)
Lemma X17_witness_two_new_tasks :
  (t_retries
     <$> ServiceRegistry.getTask "t"
           (snd (ServiceRegistry.registerService 1000 Scenario.two_tasks
                   Scenario.empty_store))) = Some 3.
Proof.
  destruct (X17_registered_task_is_stored_with_defaults 1000 Scenario.two_tasks
              Scenario.empty_store (Scenario.registration "t" "first"))
    as [(row & Hrow & _ & _ & _ & _ & Hretries & _) _].
  - repeat constructor; simpl; intuition discriminate.
  - simpl. auto.
  - simpl in Hrow. rewrite Hrow. simpl. rewrite Hretries. reflexivity.
Defined.

(** ** The code hash *)

Lemma compress_length (h block : list Z) :
  List.length h = 8%nat -> List.length (SHA256.compress h block) = 8%nat.
Proof.
  intros Hh. unfold SHA256.compress.
  rewrite List.length_map, List.length_combine, Hh. reflexivity.
Qed.

Lemma digest_words_length (s : string) : List.length (SHA256.digest_words s) = 8%nat.
Proof.
  unfold SHA256.digest_words.
  generalize (SHA256.blocks
                (List.length (SHA256.words_of_bytes (SHA256.pad (SHA256.bytes_of_string s))))
                (SHA256.words_of_bytes (SHA256.pad (SHA256.bytes_of_string s)))).
  intros bs.
  assert (H : forall h, List.length h = 8%nat ->
                        List.length (List.fold_left SHA256.compress bs h) = 8%nat).
  { induction bs as [|b bs IH]; intros h Hh; simpl; [exact Hh|].
    apply IH, compress_length, Hh. }
  apply H. reflexivity.
Qed.

Lemma hex_digit_lower (d : Z) :
  0 <= d < 16 ->
  In (SHA256.hex_digit d) (list_ascii_of_string "0123456789abcdef").
Proof.
  intros Hd.
  assert (H : d = 0 \/ d = 1 \/ d = 2 \/ d = 3 \/ d = 4 \/ d = 5 \/ d = 6 \/ d = 7
              \/ d = 8 \/ d = 9 \/ d = 10 \/ d = 11 \/ d = 12 \/ d = 13 \/ d = 14
              \/ d = 15) by lia.
  repeat (destruct H as [->|H]; [vm_compute; tauto|]). subst d. vm_compute. tauto.
Qed.

Lemma append_cons (c : ascii) (s t : string) :
  String c s +:+ t = String c (s +:+ t).
Proof. reflexivity. Qed.

Lemma append_chars (s t : string) (c : ascii) :
  In c (list_ascii_of_string (s +:+ t))
  <-> In c (list_ascii_of_string s) \/ In c (list_ascii_of_string t).
Proof.
  induction s as [|c0 s IH].
  - change (EmptyString +:+ t) with t. simpl. tauto.
  - rewrite append_cons. simpl. rewrite IH. tauto.
Qed.

Lemma append_length (s t : string) :
  String.length (s +:+ t) = (String.length s + String.length t)%nat.
Proof.
  induction s as [|c0 s IH].
  - reflexivity.
  - rewrite append_cons. simpl. rewrite IH. reflexivity.
Qed.

Lemma hex_of_shape (digits : nat) (x : Z) (acc : string) :
  exists front,
    SHA256.hex_of digits x acc = front +:+ acc
    /\ String.length front = digits
    /\ forall c, In c (list_ascii_of_string front) ->
                 In c (list_ascii_of_string "0123456789abcdef").
Proof.
  revert x acc. induction digits as [|n IH]; intros x acc; simpl.
  - exists EmptyString. simpl. split; [reflexivity|]. split; [reflexivity|]. intros c [].
  - destruct (IH (Z.shiftr x 4) (String (SHA256.hex_digit (x mod 16)) acc))
      as (front & Heq & Hlen & Hhex).
    exists (front +:+ String (SHA256.hex_digit (x mod 16)) EmptyString).
    split; [|split].
    + rewrite Heq. clear. induction front as [|c front IH]; [reflexivity|].
      rewrite !append_cons. f_equal. exact IH.
    + rewrite append_length. simpl. lia.
    + intros c Hc. apply append_chars in Hc as [Hc|Hc]; [exact (Hhex c Hc)|].
      change (In c [SHA256.hex_digit (x mod 16)]) in Hc.
      destruct Hc as [<-|Hc]; [|destruct Hc].
      apply hex_digit_lower. apply Z.mod_pos_bound. lia.
Qed.

Lemma hexdigest_shape (ws : list Z) :
  String.length
    (List.fold_right (fun w acc => SHA256.hex_of 8 w acc) EmptyString ws)
  = (8 * List.length ws)%nat
  /\ forall c,
       In c (list_ascii_of_string
               (List.fold_right (fun w acc => SHA256.hex_of 8 w acc) EmptyString ws)) ->
       In c (list_ascii_of_string "0123456789abcdef").
Proof.
  induction ws as [|w ws [IHlen IHhex]].
  - simpl. split; [reflexivity|]. intros c [].
  - cbn [List.fold_right].
    destruct (hex_of_shape 8 w
                (List.fold_right (fun w acc => SHA256.hex_of 8 w acc) EmptyString ws))
      as (front & -> & Hlen & Hhex).
    split.
    + rewrite append_length, Hlen, IHlen. simpl. lia.
    + intros c Hc. apply append_chars in Hc as [Hc|Hc];
        [exact (Hhex c Hc)|exact (IHhex c Hc)].
Qed.

Lemma substring_prefix (n : nat) (s : string) :
  (n <= String.length s)%nat ->
  String.length (String.substring 0 n s) = n
  /\ forall c, In c (list_ascii_of_string (String.substring 0 n s)) ->
               In c (list_ascii_of_string s).
Proof.
  revert s. induction n as [|n IH]; intros s Hlen.
  - destruct s; simpl; split; auto; intros c [].
  - destruct s as [|c0 s]; simpl in *; [exfalso; lia|].
    destruct (IH s ltac:(lia)) as [IH1 IH2]. split; [lia|].
    intros c [<-|Hc]; auto.
Qed.

(** X18.  A code hash is always 16 lower-case hexadecimal digits,
    whatever the content hashed, so the hash of a task registration is
    too. *)
Theorem X18_code_hash_is_sixteen_hex_digits (content : string) :
  String.length (ServiceRegistry.calculateCodeHash content) = 16%nat
  /\ forall c,
       In c (list_ascii_of_string (ServiceRegistry.calculateCodeHash content)) ->
       In c (list_ascii_of_string "0123456789abcdef").
Proof.
  unfold ServiceRegistry.calculateCodeHash, SHA256.hexdigest.
  destruct (hexdigest_shape (SHA256.digest_words content)) as [Hlen Hhex].
  rewrite digest_words_length in Hlen.
  destruct (substring_prefix 16
              (List.fold_right (fun w acc => SHA256.hex_of 8 w acc) EmptyString
                 (SHA256.digest_words content))) as [H1 H2].
  - rewrite Hlen. simpl. lia.
  - split; [exact H1|]. intros c Hc. apply Hhex, H2, Hc.
Qed.

(** ** Validation and triggering *)

Lemma validator_includes_In (l : list string) (x : string) :
  PipelineValidator.includes l x = true <-> In x l.
Proof.
  unfold PipelineValidator.includes. rewrite List.existsb_exists. split.
  - intros (y & Hin & Heq). apply String.eqb_eq in Heq. congruence.
  - intros Hin. exists x. split; [exact Hin|apply String.eqb_refl].
Qed.

Lemma loadTasks_In (taskIds : list string) (s : Store) (n : PipelineValidator.TaskNode) :
  In n (PipelineValidator.loadTasks taskIds s)
  <-> In (PipelineValidator.taskId n) taskIds
      /\ exists t, tasks s !! PipelineValidator.taskId n = Some t
                   /\ n = {| PipelineValidator.taskId := PipelineValidator.taskId n;
                             PipelineValidator.allowedNext := t_allowed_next t;
                             PipelineValidator.serviceId := t_service_id t |}.
Proof.
  unfold PipelineValidator.loadTasks. destruct taskIds as [|t0 rest].
  - simpl. tauto.
  - rewrite List.in_map_iff. split.
    + intros ([k d] & <- & Hin). apply List.filter_In in Hin as [Hin Hinc].
      apply list_elem_of_In, elem_of_map_to_list in Hin.
      apply validator_includes_In in Hinc. simpl in *. eauto.
    + intros (Hin & t & Ht & Hn). exists (PipelineValidator.taskId n, t).
      split; [symmetry; exact Hn|]. apply List.filter_In. split.
      * apply list_elem_of_In, elem_of_map_to_list. exact Ht.
      * apply validator_includes_In. exact Hin.
Qed.

Lemma has_In (g : list PipelineValidator.TaskNode) (x : string) :
  PipelineValidator.has g x = true
  <-> exists n, In n g /\ PipelineValidator.taskId n = x.
Proof.
  unfold PipelineValidator.has. rewrite List.existsb_exists. split.
  - intros (n & Hin & Heq). apply String.eqb_eq in Heq. eauto.
  - intros (n & Hin & Heq). exists n. split; [exact Hin|]. apply String.eqb_eq, Heq.
Qed.

Lemma concat_nil_inv {A} (ls : list (list A)) :
  List.concat ls = [] -> forall l, In l ls -> l = [].
Proof.
  induction ls as [|l0 ls IH]; simpl; intros H l Hin; [destruct Hin|].
  apply List.app_eq_nil in H as [H0 H1]. destruct Hin as [<-|Hin]; auto.
Qed.

(** What a successful validation establishes about the task ids it
    was given. *)
Lemma valid_pipeline_closed (taskIds : list string) (s : Store) :
  PipelineValidator.valid (PipelineValidator.validatePipeline taskIds s) = true ->
  (forall x t next,
     In x taskIds -> tasks s !! x = Some t -> In next (t_allowed_next t) ->
     In next taskIds)
  /\ PipelineValidator.detectCycles (PipelineValidator.loadTasks taskIds s) = []
  /\ PipelineValidator.entryNodes (PipelineValidator.loadTasks taskIds s) <> []
  /\ PipelineValidator.errors (PipelineValidator.validatePipeline taskIds s) = [].
Proof.
  unfold PipelineValidator.validatePipeline.
  destruct (List.filter _ taskIds) as [|y ys]; [|discriminate].
  cbn [PipelineValidator.valid PipelineValidator.errors].
  intros Hvalid. apply Nat.eqb_eq, List.length_zero_iff_nil in Hvalid.
  rewrite Hvalid.
  apply List.app_eq_nil in Hvalid as [Hrefs Hrest].
  apply List.app_eq_nil in Hrest as [Hcycles Hentry].
  split; [|split; [|split; [|reflexivity]]].
  - intros x t next Hx Ht Hnext.
    set (n := {| PipelineValidator.taskId := x;
                 PipelineValidator.allowedNext := t_allowed_next t;
                 PipelineValidator.serviceId := t_service_id t |}).
    assert (Hn : In n (PipelineValidator.loadTasks taskIds s)).
    { apply loadTasks_In. simpl. eauto. }
    pose proof (concat_nil_inv _ Hrefs _ (List.in_map _ _ _ Hn)) as Hnone.
    apply List.map_eq_nil in Hnone.
    destruct (PipelineValidator.has (PipelineValidator.loadTasks taskIds s) next) eqn:E.
    + apply has_In in E as (m & Hm & <-). apply loadTasks_In in Hm. tauto.
    + assert (Hbad : In next (List.filter
                (fun nextId =>
                   negb (PipelineValidator.has
                           (PipelineValidator.loadTasks taskIds s) nextId))
                (PipelineValidator.allowedNext n))).
      { apply List.filter_In. split; [exact Hnext|]. rewrite E. reflexivity. }
      rewrite Hnone in Hbad. destruct Hbad.
  - apply List.map_eq_nil in Hcycles. exact Hcycles.
  - intros Hno. rewrite Hno in Hentry. discriminate.
Qed.


(** X20.  [triggerPipeline] validates the entry tasks of the pipeline by
    themselves.  A stored pipeline one of whose entry tasks lists, in
    its [allowedNext], a task that is not itself an entry task cannot be
    triggered: the call throws "Pipeline validation failed: " followed
    by the errors of the validation, joined by ", ", and there is at
    least one such error. *)
Theorem X20_trigger_rejects_successors_outside_the_entry_tasks
    (nanoid : nat -> string) (now : Time)
    (options : PipelineExecutor.TriggerPipelineOptions) (s : Store)
    (pipeline : Pipeline) (entry next : string) (task : TaskDef) :
  pipelines s !! PipelineExecutor.pipelineId options = Some pipeline ->
  In entry (p_entry_tasks pipeline) ->
  tasks s !! entry = Some task ->
  In next (t_allowed_next task) ->
  ~ In next (p_entry_tasks pipeline) ->
  PipelineExecutor.triggerPipeline nanoid now options s
  = Throw ("Pipeline validation failed: "
           +:+ PipelineValidator.join ", "
                 (PipelineValidator.errors
                    (PipelineValidator.validatePipeline (p_entry_tasks pipeline) s)))
  /\ PipelineValidator.errors
       (PipelineValidator.validatePipeline (p_entry_tasks pipeline) s) <> [].
Proof.
  intros Hp Hentry Htask Hnext Hout.
  unfold PipelineExecutor.triggerPipeline. rewrite Hp.
  destruct (PipelineValidator.valid
              (PipelineValidator.validatePipeline (p_entry_tasks pipeline) s)) eqn:Hvalid.
  - destruct (valid_pipeline_closed _ _ Hvalid) as (Hclosed & _).
    destruct (Hout (Hclosed entry task next Hentry Htask Hnext)).
  - split; [reflexivity|]. intros Hnil.
    unfold PipelineValidator.validatePipeline in *.
    destruct (List.filter _ (p_entry_tasks pipeline)) as [|y ys]; [|discriminate].
    cbn [PipelineValidator.valid PipelineValidator.errors] in *.
    rewrite Hnil in Hvalid. discriminate.
Qed.

(** X20 (witness).  The pipeline "staged" has the single entry task A,
    which hands over to B and C: the trigger is refused. *)
Lemma X20_witness_staged_pipeline :
  Scenario.returned
    (PipelineExecutor.triggerPipeline Scenario.nanoid 1000 Scenario.solo_trigger
       Scenario.staged0) = None.
Proof.
  destruct (X20_trigger_rejects_successors_outside_the_entry_tasks
              Scenario.nanoid 1000 Scenario.solo_trigger Scenario.staged0
              Scenario.staged_pipeline "A" "B" (Scenario.task_def ["B"; "C"] 3 0))
    as [Hthrow _].
  - reflexivity.
  - simpl. auto.
  - reflexivity.
  - simpl. auto.
  - simpl. intuition discriminate.
  - rewrite Hthrow. reflexivity.
Defined.

Lemma queueEntryTasks_shape (nanoid : nat -> string) (now : Time)
    (options : PipelineExecutor.TriggerPipelineOptions) (p : string)
    (entry : list string) :
  p <> EmptyString ->
  forall (ids : list string) (s : Store),
    (forall x, In x entry -> is_Some (tasks s !! x)) ->
    exists added s',
      PipelineExecutor.queueEntryTasks nanoid now options p entry (ids, s)
      = Ok (ids ++ List.map tr_id added, s')
      /\ task_runs s' = task_runs s ++ added
      /\ pipeline_runs s' = pipeline_runs s
      /\ List.map tr_task_id added = entry
      /\ List.Forall
           (fun r => tr_status r = pending
                     /\ tr_attempt r = 1
                     /\ tr_pipeline_run_id r = Some p
                     /\ tr_upstream_refs r = ∅
                     /\ tr_input_path r
                        = "runs/" +:+ p +:+ "/tasks/" +:+ tr_id r +:+ "/input.json")
           added.
Proof.
  intros Hp. induction entry as [|taskId rest IH]; intros ids s Hreg.
  - exists [], s. simpl. rewrite !List.app_nil_r. auto.
  - destruct (Hreg taskId (or_introl eq_refl)) as [task Htask].
    cbn [PipelineExecutor.queueEntryTasks snd fst].
    erewrite enqueue_without_key by (simpl; eauto).
    cbn [mbind result_bind QueueManager.q_runId QueueManager.taskId
         QueueManager.pipelineRunId].
    match goal with
    | |- context [QueueManager.insert_run ?r s] => set (row := r)
    end.
    destruct (IH (ids ++ ["trun_" +:+ nanoid (minted s)]) (QueueManager.insert_run row s))
      as (added & s' & Hq & Hruns & Hpr & Hids & Hall).
    { intros x Hx. simpl. apply Hreg. right. exact Hx. }
    exists (row :: added), s'. split; [|split; [|split; [|split]]].
    + etransitivity; [exact Hq|]. rewrite <- List.app_assoc. reflexivity.
    + rewrite Hruns. simpl. rewrite <- List.app_assoc. reflexivity.
    + rewrite Hpr. reflexivity.
    + simpl. rewrite Hids. reflexivity.
    + constructor; [|exact Hall]. unfold row. simpl.
      repeat split. unfold QueueManager.inputPathFor. simpl.
      apply String.eqb_neq in Hp. rewrite Hp. reflexivity.
Qed.

(** X21.  A trigger that succeeds creates exactly one pipeline run, in
    status [running] with the pipeline's structure as its snapshot, and
    exactly one task run per entry task, in the order of the entry
    tasks: each is pending, a first attempt, belongs to the new pipeline
    run, has no upstream references, and reads its input from its own
    path under the run.  Nothing else in [task_runs] changes.  A trigger
    fails only because the pipeline is unknown or does not pass
    validation. *)
Theorem X21_trigger_enqueues_one_run_per_entry_task
    (nanoid : nat -> string) (now : Time)
    (options : PipelineExecutor.TriggerPipelineOptions) (s : Store) :
  match PipelineExecutor.triggerPipeline nanoid now options s with
  | Ok (info, s') =>
      exists pipeline added,
        pipelines s !! PipelineExecutor.pipelineId options = Some pipeline
        /\ PipelineExecutor.pipelineRunId info = "prun_" +:+ nanoid (minted s)
        /\ PipelineExecutor.status info = prun_running
        /\ PipelineExecutor.entryTaskIds info = p_entry_tasks pipeline
        /\ PipelineExecutor.queuedTasks info = List.map tr_id added
        /\ task_runs s' = task_runs s ++ added
        /\ List.map tr_task_id added = p_entry_tasks pipeline
        /\ List.Forall
             (fun r => tr_status r = pending
                       /\ tr_attempt r = 1
                       /\ tr_pipeline_run_id r = Some (PipelineExecutor.pipelineRunId info)
                       /\ tr_upstream_refs r = ∅
                       /\ tr_input_path r
                          = "runs/" +:+ PipelineExecutor.pipelineRunId info
                            +:+ "/tasks/" +:+ tr_id r +:+ "/input.json")
             added
        /\ pipeline_runs s'
           = <[PipelineExecutor.pipelineRunId info :=
                 PipelineExecutor.new_pipeline_run now options pipeline
                   (PipelineExecutor.inputPath info)]> (pipeline_runs s)
        /\ PipelineExecutor.inputPath info
           = "runs/" +:+ PipelineExecutor.pipelineRunId info +:+ "/input.json"
  | Throw msg =>
      pipelines s !! PipelineExecutor.pipelineId options = None
      \/ exists pipeline,
           pipelines s !! PipelineExecutor.pipelineId options = Some pipeline
           /\ PipelineValidator.valid
                (PipelineValidator.validatePipeline (p_entry_tasks pipeline) s) = false
  end.
Proof.
  unfold PipelineExecutor.triggerPipeline.
  destruct (pipelines s !! PipelineExecutor.pipelineId options) as [pipeline|];
    [|left; reflexivity].
  destruct (PipelineValidator.valid
              (PipelineValidator.validatePipeline (p_entry_tasks pipeline) s)) eqn:Hvalid;
    [|right; eauto].
  pose proof (valid_entry_tasks_registered _ _ Hvalid) as Hreg.
  match goal with
  | |- context [PipelineExecutor.queueEntryTasks _ _ _ ?p ?e ([], ?s1)] =>
      destruct (queueEntryTasks_shape nanoid now options p e) with (ids := @nil string)
        (s := s1) as (added & s' & Hq & Hruns & Hpr & Hids & Hall)
  end.
  { discriminate. }
  { exact Hreg. }
  rewrite Hq. cbn [mbind result_bind List.app].
  exists pipeline, added. cbn.
  repeat split; auto.
Qed.

(** ** Completion and failure *)

Lemma count_positive (f : TaskRun -> bool) (rows : list TaskRun) :
  (0 <? count_where f rows) = List.existsb f rows.
Proof.
  unfold count_where.
  pose proof (existsb_filter_length f rows) as H.
  destruct (List.existsb f rows).
  - apply Z.ltb_lt. destruct H as [H _]. specialize (H eq_refl). lia.
  - apply Z.ltb_ge. destruct (List.length (List.filter f rows)); [lia|].
    destruct H as [_ H]. discriminate H. lia.
Qed.

Lemma checkPipelineCompletion_status (now : Time) (p : string) (s : Store) :
  (pr_status <$> pipeline_runs (PipelineExecutor.checkPipelineCompletion now p s) !! p)
  = ((fun run =>
        match pr_status run with
        | prun_running =>
            if List.existsb (PipelineExecutor.active_in p) (task_runs s)
            then prun_running
            else if List.existsb (PipelineExecutor.failed_in p) (task_runs s)
                 then prun_failed
                 else prun_completed
        | st => st
        end) <$> pipeline_runs s !! p).
Proof.
  unfold PipelineExecutor.checkPipelineCompletion.
  destruct (pipeline_runs s !! p) as [run|] eqn:Hrun; [|rewrite Hrun; reflexivity].
  destruct (pr_status run) eqn:Hst.
  - rewrite !count_positive.
    destruct (List.existsb (PipelineExecutor.active_in p) (task_runs s)).
    + rewrite Hrun. simpl. rewrite Hst. reflexivity.
    + cbn [pipeline_runs PipelineExecutor.with_pipeline_runs].
      rewrite lookup_alter. case_decide; [|congruence]. rewrite Hrun. simpl.
      rewrite Hst. destruct (List.existsb _ _); reflexivity.
  - rewrite Hrun. simpl. rewrite Hst. reflexivity.
  - rewrite Hrun. simpl. rewrite Hst. reflexivity.
Qed.

(** X22.  [checkPipelineCompletion] settles a run once: after it has
    run, running it again at any time changes nothing.  It never touches
    a task run or another pipeline run.  A run that was [running] stays
    [running] exactly while one of its task runs is pending, running or
    waiting; otherwise it becomes [failed] when some task run of it is
    failed, timed out or cancelled, and [completed] if there is none,
    in particular when the run has no task run at all.  A run that is
    no longer [running] keeps its status. *)
Theorem X22_pipeline_completion_settles_once
    (now later : Time) (p : string) (s : Store) :
  let s' := PipelineExecutor.checkPipelineCompletion now p s in
  PipelineExecutor.checkPipelineCompletion later p s' = s'
  /\ task_runs s' = task_runs s
  /\ (forall q, q <> p -> pipeline_runs s' !! q = pipeline_runs s !! q)
  /\ (pr_status <$> pipeline_runs s' !! p)
     = ((fun run =>
           match pr_status run with
           | prun_running =>
               if List.existsb (PipelineExecutor.active_in p) (task_runs s)
               then prun_running
               else if List.existsb (PipelineExecutor.failed_in p) (task_runs s)
                    then prun_failed
                    else prun_completed
           | st => st
           end) <$> pipeline_runs s !! p).
Proof.
  cbv zeta.
  split; [|split; [apply task_runs_checkPipelineCompletion|split]].
  - destruct (pipeline_runs s !! p) as [run|] eqn:Hrun.
    2:{ unfold PipelineExecutor.checkPipelineCompletion. rewrite Hrun, Hrun.
        reflexivity. }
    destruct (pr_status run) eqn:Hst.
    2,3: unfold PipelineExecutor.checkPipelineCompletion; rewrite Hrun, Hst, Hrun, Hst;
      reflexivity.
    destruct (0 <? count_where (PipelineExecutor.active_in p) (task_runs s)) eqn:Hact.
    { unfold PipelineExecutor.checkPipelineCompletion.
      rewrite Hrun, Hst, Hact, Hrun, Hst, Hact. reflexivity. }
    assert (Hs : PipelineExecutor.checkPipelineCompletion now p s
                 = PipelineExecutor.with_pipeline_runs
                     (alter (PipelineExecutor.finished_run now
                               (if 0 <? count_where (PipelineExecutor.failed_in p)
                                          (task_runs s)
                                then prun_failed else prun_completed)) p) s).
    { unfold PipelineExecutor.checkPipelineCompletion. rewrite Hrun, Hst, Hact.
      reflexivity. }
    rewrite Hs. unfold PipelineExecutor.checkPipelineCompletion.
    cbn [pipeline_runs PipelineExecutor.with_pipeline_runs].
    rewrite lookup_alter. case_decide; [|congruence]. rewrite Hrun.
    cbn [fmap option_fmap option_map pr_status PipelineExecutor.finished_run].
    destruct (0 <? count_where (PipelineExecutor.failed_in p) (task_runs s));
      reflexivity.
  - intros q Hq. unfold PipelineExecutor.checkPipelineCompletion.
    destruct (pipeline_runs s !! p) as [run|]; [|reflexivity].
    destruct (pr_status run); try reflexivity.
    destruct (0 <? _); [reflexivity|].
    cbn [pipeline_runs PipelineExecutor.with_pipeline_runs].
    rewrite lookup_alter. case_decide; [congruence|reflexivity].
  - apply checkPipelineCompletion_status.
Qed.

Lemma find_run_In (runId : string) (s : Store) (r : TaskRun) :
  find_run runId s = Some r -> In r (task_runs s) /\ tr_id r = runId.
Proof.
  unfold find_run. intros H. apply List.find_some in H as [Hin Hid].
  split; [exact Hin|]. apply String.eqb_eq. exact Hid.
Qed.

(** X23.  A failure handled in [continue] mode cancels nothing: the task
    runs are left as they are, and the pipeline run is only tested for
    completion.  Whatever the mode, once a failed run of a running
    pipeline run has been handled the pipeline run is never
    [completed]: it is [failed], or, in [continue] mode and while other
    task runs are still pending, running or waiting, still [running].
    A failure of a run outside any pipeline run, or of an unknown run,
    changes nothing. *)
Theorem X23_handled_failure_never_completes_the_run
    (now : Time) (taskRunId p : string) (s : Store)
    (taskRun : TaskRun) (run : PipelineRun) :
  find_run taskRunId s = Some taskRun ->
  tr_pipeline_run_id taskRun = Some p ->
  p <> EmptyString ->
  tr_status taskRun = failed ->
  pipeline_runs s !! p = Some run ->
  pr_status run = prun_running ->
  let s' := PipelineExecutor.handleTaskFailure now taskRunId s in
  (pr_failure_mode run = continue -> task_runs s' = task_runs s)
  /\ (pr_status <$> pipeline_runs s' !! p)
     = Some (match pr_failure_mode run with
             | fail_fast => prun_failed
             | continue =>
                 if List.existsb (PipelineExecutor.active_in p) (task_runs s)
                 then prun_running else prun_failed
             end)
  /\ (forall other standalone,
        find_run other s = Some standalone ->
        tr_pipeline_run_id standalone = None ->
        PipelineExecutor.handleTaskFailure now other s = s)
  /\ (forall unknown,
        find_run unknown s = None ->
        PipelineExecutor.handleTaskFailure now unknown s = s).
Proof.
  intros Hfind Hp Hne Hfailed Hrun Hst. cbv zeta.
  assert (Hhas : List.existsb (PipelineExecutor.failed_in p) (task_runs s) = true).
  { apply List.existsb_exists. exists taskRun.
    destruct (find_run_In _ _ _ Hfind) as [Hin _]. split; [exact Hin|].
    unfold PipelineExecutor.failed_in, in_pipeline_run, has_status.
    rewrite Hp, Hfailed, String.eqb_refl. reflexivity. }
  pose proof (checkPipelineCompletion_status now p s) as Hcheck.
  unfold PipelineExecutor.handleTaskFailure. rewrite Hfind, Hp.
  apply String.eqb_neq in Hne.
  cbn [truthy default from_option id]. rewrite Hne. cbn [negb]. rewrite Hrun.
  split; [|split; [|split]].
  - intros Hmode. rewrite Hmode. apply task_runs_checkPipelineCompletion.
  - destruct (pr_failure_mode run).
    + cbn [pipeline_runs PipelineExecutor.with_pipeline_runs with_task_runs].
      rewrite lookup_alter. case_decide; [|congruence]. rewrite Hrun. reflexivity.
    + rewrite Hcheck, Hrun. cbn. rewrite Hst, Hhas. reflexivity.
  - intros other standalone Hother Hnone.
    rewrite Hother, Hnone. reflexivity.
  - intros unknown Hnone. rewrite Hnone. reflexivity.
Qed.

(** X23 (witness).  In the fork scenario B has failed while C is
    running and F is pending: handling the failure leaves the
    fail-fast pipeline run failed. *)
Lemma X23_witness_failed_fork :
  (pr_status
     <$> pipeline_runs
           (PipelineExecutor.handleTaskFailure 3000 "trun_1"
              (QueueManager.markFailed 3000 "trun_1" "boom" None Scenario.failfast1))
         !! "prun_x")
  = Some prun_failed.
Proof.
  destruct (find_run "trun_1"
              (QueueManager.markFailed 3000 "trun_1" "boom" None Scenario.failfast1))
    as [taskRun|] eqn:Hfind; [|vm_compute in Hfind; discriminate].
  destruct (X23_handled_failure_never_completes_the_run 3000 "trun_1" "prun_x"
              (QueueManager.markFailed 3000 "trun_1" "boom" None Scenario.failfast1)
              taskRun (Scenario.running_run Scenario.fork fail_fast))
    as (_ & Hstatus & _).
  - exact Hfind.
  - vm_compute in Hfind. injection Hfind as <-. reflexivity.
  - discriminate.
  - vm_compute in Hfind. injection Hfind as <-. reflexivity.
  - vm_compute. reflexivity.
  - reflexivity.
  - rewrite Hstatus. reflexivity.
Defined.

Lemma queueAll_shape (nanoid : nat -> string) (now : Time) (p : string)
    (inherited : Z) (nextTaskIds : list string) :
  forall (queued : list string) (s : Store),
    match PipelineExecutor.queueAll nanoid now p inherited nextTaskIds (queued, s) with
    | Ok (queued', s') =>
        exists added,
          queued' = queued ++ List.map tr_id added
          /\ task_runs s' = task_runs s ++ added
          /\ tasks s' = tasks s
          /\ pipeline_runs s' = pipeline_runs s
          /\ List.Forall
               (fun r => tr_status r = pending
                         /\ tr_attempt r = 1
                         /\ tr_pipeline_run_id r = Some p
                         /\ tr_priority r = inherited
                         /\ tr_idempotency_key r = None
                         /\ In (tr_task_id r) nextTaskIds)
               added
    | Throw _ => exists next, In next nextTaskIds /\ tasks s !! next = None
    end.
Proof.
  induction nextTaskIds as [|next rest IH]; intros queued s.
  - simpl. exists []. rewrite !List.app_nil_r. auto.
  - cbn [PipelineExecutor.queueAll]. unfold PipelineExecutor.queueOne.
    destruct (PipelineExecutor.isJoinTaskReady next p s).
    + destruct (tasks s !! next) as [task|] eqn:Htask.
      * erewrite enqueue_without_key by (simpl; eauto).
        cbn [mbind result_bind QueueManager.q_runId QueueManager.taskId
             QueueManager.pipelineRunId].
        match goal with
        | |- context [QueueManager.insert_run ?r s] => set (row := r)
        end.
        specialize (IH (queued ++ ["trun_" +:+ nanoid (minted s)])
                       (QueueManager.insert_run row s)).
        destruct (PipelineExecutor.queueAll nanoid now p inherited rest _)
          as [[queued' s']|msg].
        -- destruct IH as (added & Hq & Hruns & Htasks & Hpr & Hall).
           exists (row :: added). split; [|split; [|split; [|split]]].
           ++ rewrite Hq, <- List.app_assoc. reflexivity.
           ++ rewrite Hruns. simpl. rewrite <- List.app_assoc. reflexivity.
           ++ rewrite Htasks. reflexivity.
           ++ rewrite Hpr. reflexivity.
           ++ constructor.
              ** unfold row. simpl. auto 10.
              ** eapply List.Forall_impl; [|exact Hall]. simpl. intros r. tauto.
        -- destruct IH as (x & Hx & Hnone). exists x. simpl in Hnone. simpl. auto.
      * unfold QueueManager.enqueue. cbn [QueueManager.taskId]. rewrite Htask.
        cbn [mbind result_bind]. exists next. simpl. auto.
    + cbn [mbind result_bind]. specialize (IH queued s).
      destruct (PipelineExecutor.queueAll nanoid now p inherited rest (queued, s))
        as [[queued' s']|msg].
      * destruct IH as (added & Hq & Hruns & Htasks & Hpr & Hall).
        exists added. repeat split; auto.
        eapply List.Forall_impl; [|exact Hall]. simpl. intros r. tauto.
      * destruct IH as (x & Hx & Hnone). exists x. simpl. auto.
Qed.

(** The selection is filtered as a whole, its first id included: after
    A of the diamond has completed, the selection C, Z, B enqueues C
    and then B, and the selection B enqueues B. *)
Lemma queueDownstreamTasks_keeps_the_whole_selection :
  let s := QueueManager.markCompleted 2000 "trun_0" "oA" None None None
             (QueueManager.markRunning 1100 "trun_0"
                (Scenario.after
                   (QueueManager.enqueue Scenario.nanoid 1000
                      (Scenario.request "A" (Some "prun_x") None) Scenario.diamond0)
                   Scenario.diamond0)) in
  let enqueued selectedNext :=
    List.map Scenario.summary
      (List.skipn 1
         (task_runs
            (Scenario.after
               (PipelineExecutor.queueDownstreamTasks Scenario.nanoid 2000 "trun_0"
                  selectedNext s) s))) in
  enqueued (Some ["C"; "Z"; "B"]) = [("trun_1", "C", pending); ("trun_2", "B", pending)]
  /\ enqueued (Some ["B"]) = [("trun_1", "B", pending)]
  /\ enqueued (Some []) = [("trun_1", "B", pending); ("trun_2", "C", pending)]
  /\ enqueued None = [("trun_1", "B", pending); ("trun_2", "C", pending)].
Proof. cbv zeta. repeat split; vm_compute; reflexivity. Qed.

(** X24.  The runs [queueDownstreamTasks] creates follow the definition
    of the completed task and the selection passed.  An empty selection
    is no selection.  For a run outside any pipeline run the call does
    nothing.  Otherwise every run it appends is a pending first attempt
    in the pipeline run of the completed run, inherits that run's
    priority, and is a run of a task listed in the [allowedNext] of the
    completed run's task and, when a non-empty selection was passed,
    of a selected task; the ids it returns are the ids of the appended
    runs, in order, and no existing run is changed.  It throws only when
    the completed run, its task, or a task to enqueue is unknown. *)
Theorem X24_downstream_runs_follow_allowedNext
    (nanoid : nat -> string) (now : Time) (completedTaskRunId : string)
    (selectedNext : option (list string)) (s : Store) :
  PipelineExecutor.queueDownstreamTasks nanoid now completedTaskRunId (Some []) s
  = PipelineExecutor.queueDownstreamTasks nanoid now completedTaskRunId None s
  /\ match PipelineExecutor.queueDownstreamTasks nanoid now completedTaskRunId
             selectedNext s with
     | Ok (queued, s') =>
         exists taskRun,
           find_run completedTaskRunId s = Some taskRun
           /\ if truthy (tr_pipeline_run_id taskRun)
              then exists task added,
                     tasks s !! tr_task_id taskRun = Some task
                     /\ queued = List.map tr_id added
                     /\ task_runs s' = task_runs s ++ added
                     /\ List.Forall
                          (fun r =>
                             tr_status r = pending
                             /\ tr_attempt r = 1
                             /\ tr_pipeline_run_id r = tr_pipeline_run_id taskRun
                             /\ tr_priority r = tr_priority taskRun
                             /\ In (tr_task_id r) (t_allowed_next task)
                             /\ match selectedNext with
                                | Some (x :: l) => In (tr_task_id r) (x :: l)
                                | _ => True
                                end)
                          added
              else queued = [] /\ s' = s
     | Throw _ =>
         find_run completedTaskRunId s = None
         \/ exists taskRun,
              find_run completedTaskRunId s = Some taskRun
              /\ (tasks s !! tr_task_id taskRun = None
                  \/ exists task next,
                       tasks s !! tr_task_id taskRun = Some task
                       /\ In next (t_allowed_next task)
                       /\ match selectedNext with
                          | Some (x :: l) => In next (x :: l)
                          | _ => True
                          end
                       /\ tasks s !! next = None)
     end.
Proof.
  split; [reflexivity|].
  unfold PipelineExecutor.queueDownstreamTasks.
  destruct (find_run completedTaskRunId s) as [taskRun|]; [|left; reflexivity].
  destruct (tr_pipeline_run_id taskRun) as [p|] eqn:Hp.
  2:{ simpl. exists taskRun. rewrite Hp. simpl. auto. }
  destruct (truthy (Some p)) eqn:Htruthy.
  2:{ exists taskRun. rewrite Hp, Htruthy. auto. }
  cbn [default from_option id].
  destruct (tasks s !! tr_task_id taskRun) as [task|] eqn:Htask; [|right; eauto].
  match goal with
  | |- context [match ?ids with [] => _ | _ :: _ => _ end] =>
      remember ids as nextTaskIds eqn:Hdef
  end.
  assert (Hnext : forall x, In x nextTaskIds ->
            In x (t_allowed_next task)
            /\ match selectedNext with
               | Some (y :: l) => In x (y :: l)
               | _ => True
               end).
  { intros x Hx. rewrite Hdef in Hx.
    destruct selectedNext as [[|y l]|]; auto.
    apply List.filter_In in Hx as [Hsel Hinc]. split; [|exact Hsel].
    unfold PipelineExecutor.includes in Hinc.
    apply List.existsb_exists in Hinc as (z & Hz & Heq).
    apply String.eqb_eq in Heq. congruence. }
  clear Hdef. destruct nextTaskIds as [|n0 rest].
  - exists taskRun. rewrite Hp, Htruthy. split; [reflexivity|].
    exists task, (@nil TaskRun). simpl.
    rewrite task_runs_checkPipelineCompletion, List.app_nil_r. auto.
  - pose proof (queueAll_shape nanoid now p (tr_priority taskRun) (n0 :: rest) [] s)
      as Hall.
    destruct (PipelineExecutor.queueAll nanoid now p (tr_priority taskRun)
                (n0 :: rest) ([], s)) as [[queued s']|msg].
    + destruct Hall as (added & Hq & Hruns & _ & _ & Hall).
      exists taskRun. rewrite Hp, Htruthy. split; [reflexivity|].
      exists task, added.
      split; [exact Htask|]. split; [exact Hq|]. split; [exact Hruns|].
      eapply List.Forall_impl; [|exact Hall]. simpl.
      intros r (H1 & H2 & H3 & H4 & _ & H6).
      destruct (Hnext _ H6). auto 10.
    + destruct Hall as (x & Hx & Hnone). right. exists taskRun.
      split; [reflexivity|]. right. exists task, x.
      destruct (Hnext _ Hx). auto.
Qed.

(** ** The pipeline graph *)

Lemma rev_get_ensure (reverse : PipelineGraph.ReverseGraph) (key k : string) :
  default [] (PipelineGraph.rev_get (PipelineGraph.rev_ensure reverse key) k)
  = default [] (PipelineGraph.rev_get reverse k).
Proof.
  unfold PipelineGraph.rev_ensure, PipelineGraph.rev_get.
  destruct (PipelineGraph.rev_has reverse key); [reflexivity|].
  induction reverse as [|[k0 v0] reverse IH]; simpl.
  - destruct (String.eqb key k); reflexivity.
  - destruct (String.eqb k0 k); [reflexivity|exact IH].
Qed.

Lemma rev_has_ensure (reverse : PipelineGraph.ReverseGraph) (key k : string) :
  PipelineGraph.rev_has (PipelineGraph.rev_ensure reverse key) k
  = PipelineGraph.rev_has reverse k || String.eqb key k.
Proof.
  unfold PipelineGraph.rev_ensure.
  destruct (PipelineGraph.rev_has reverse key) eqn:E.
  - destruct (String.eqb key k) eqn:Ek; [|rewrite orb_false_r; reflexivity].
    apply String.eqb_eq in Ek. subst k. rewrite E. reflexivity.
  - unfold PipelineGraph.rev_has. rewrite List.existsb_app. simpl.
    rewrite orb_false_r. reflexivity.
Qed.

Lemma rev_has_get (reverse : PipelineGraph.ReverseGraph) (k : string) :
  PipelineGraph.rev_has reverse k = true ->
  exists v, PipelineGraph.rev_get reverse k = Some v.
Proof.
  unfold PipelineGraph.rev_has, PipelineGraph.rev_get.
  induction reverse as [|[k0 v0] reverse IH]; simpl; [discriminate|].
  destruct (String.eqb k0 k); simpl; eauto.
Qed.

Lemma rev_get_add (reverse : PipelineGraph.ReverseGraph) (key value k : string) :
  PipelineGraph.rev_get (PipelineGraph.rev_add reverse key value) k
  = (fun v => if String.eqb k key
              then if PipelineGraph.includes v value then v else v ++ [value]
              else v) <$> PipelineGraph.rev_get reverse k.
Proof.
  unfold PipelineGraph.rev_get, PipelineGraph.rev_add.
  induction reverse as [|[k0 v0] reverse IH]; simpl; [reflexivity|].
  destruct (String.eqb k0 key) eqn:E0; simpl.
  - destruct (String.eqb k0 k) eqn:Ek; simpl.
    + apply String.eqb_eq in E0, Ek. subst. rewrite String.eqb_refl. reflexivity.
    + exact IH.
  - destruct (String.eqb k0 k) eqn:Ek; simpl.
    + apply String.eqb_eq in Ek. subst k0. rewrite E0. reflexivity.
    + exact IH.
Qed.

Lemma rev_has_add (reverse : PipelineGraph.ReverseGraph) (key value k : string) :
  PipelineGraph.rev_has (PipelineGraph.rev_add reverse key value) k
  = PipelineGraph.rev_has reverse k.
Proof.
  unfold PipelineGraph.rev_has, PipelineGraph.rev_add.
  induction reverse as [|[k0 v0] reverse IH]; simpl; [reflexivity|].
  rewrite IH. destruct (String.eqb k0 key); reflexivity.
Qed.

Lemma graph_includes_In (l : list string) (x : string) :
  PipelineGraph.includes l x = true <-> In x l.
Proof.
  unfold PipelineGraph.includes. rewrite List.existsb_exists. split.
  - intros (y & Hin & Heq). apply String.eqb_eq in Heq. congruence.
  - intros Hin. exists x. split; [exact Hin|apply String.eqb_refl].
Qed.

(** One reverse edge: the set of [nextId] gains [taskId], no other set
    changes, and sets stay free of repetitions. *)
Lemma rev_edge (reverse : PipelineGraph.ReverseGraph) (nextId taskId k : string) :
  let reverse' :=
    PipelineGraph.rev_add (PipelineGraph.rev_ensure reverse nextId) nextId taskId in
  (forall p, In p (default [] (PipelineGraph.rev_get reverse' k))
             <-> In p (default [] (PipelineGraph.rev_get reverse k))
                 \/ (k = nextId /\ p = taskId))
  /\ (List.NoDup (default [] (PipelineGraph.rev_get reverse k)) ->
      List.NoDup (default [] (PipelineGraph.rev_get reverse' k))).
Proof.
  cbv zeta. rewrite rev_get_add.
  pose proof (rev_get_ensure reverse nextId k) as Hens.
  destruct (String.eqb k nextId) eqn:E.
  - apply String.eqb_eq in E. subst k.
    destruct (rev_has_get (PipelineGraph.rev_ensure reverse nextId) nextId)
      as [v Hv].
    { rewrite rev_has_ensure, String.eqb_refl. apply orb_true_r. }
    rewrite Hv in *. simpl in Hens. rewrite <- Hens. simpl.
    destruct (PipelineGraph.includes v taskId) eqn:Hinc.
    + apply graph_includes_In in Hinc. split; [|auto].
      intros p. split; [auto|]. intros [Hp|[_ ->]]; auto.
    + split.
      * intros p. rewrite List.in_app_iff. simpl. intuition.
      * intros Hnd. apply NoDup_ListNoDup, NoDup_app. split; [|split].
        -- apply NoDup_ListNoDup. exact Hnd.
        -- intros x Hx Hx'. apply list_elem_of_In in Hx, Hx'.
           destruct Hx' as [<-|[]].
           apply graph_includes_In in Hx. congruence.
        -- apply NoDup_singleton.
  - rewrite <- Hens.
    destruct (PipelineGraph.rev_get (PipelineGraph.rev_ensure reverse nextId) k);
      simpl.
    + split; [|auto]. intros p. split; [auto|]. intros [Hp|[-> _]]; [exact Hp|].
      rewrite String.eqb_refl in E. discriminate.
    + split; [|auto]. intros p. split; [auto|]. intros [[]|[-> _]].
      rewrite String.eqb_refl in E. discriminate.
Qed.

Lemma rev_edges_of_node (taskId : string) (nexts : list string) (k : string) :
  forall reverse,
    let reverse' :=
      List.fold_left
        (fun reverse nextId =>
           PipelineGraph.rev_add (PipelineGraph.rev_ensure reverse nextId) nextId taskId)
        nexts reverse in
    (forall p, In p (default [] (PipelineGraph.rev_get reverse' k))
               <-> In p (default [] (PipelineGraph.rev_get reverse k))
                   \/ (In k nexts /\ p = taskId))
    /\ (List.NoDup (default [] (PipelineGraph.rev_get reverse k)) ->
        List.NoDup (default [] (PipelineGraph.rev_get reverse' k))).
Proof.
  induction nexts as [|nextId nexts IH]; intros reverse; cbv zeta.
  - simpl. split; [|auto]. intros p. tauto.
  - cbn [List.fold_left].
    destruct (rev_edge reverse nextId taskId k) as [H1 H2]. cbv zeta in H1, H2.
    destruct (IH (PipelineGraph.rev_add (PipelineGraph.rev_ensure reverse nextId)
                    nextId taskId)) as [IH1 IH2].
    cbv zeta in IH1, IH2. split.
    + intros p. rewrite IH1, H1. simpl. intuition.
    + auto.
Qed.

Lemma rev_edges_of_graph (graph : list PipelineValidator.TaskNode) (k : string) :
  forall reverse,
    let reverse' :=
      List.fold_left
        (fun reverse node =>
           List.fold_left
             (fun reverse nextId =>
                PipelineGraph.rev_add (PipelineGraph.rev_ensure reverse nextId) nextId
                  (PipelineValidator.taskId node))
             (PipelineValidator.allowedNext node) reverse)
        graph reverse in
    (forall p, In p (default [] (PipelineGraph.rev_get reverse' k))
               <-> In p (default [] (PipelineGraph.rev_get reverse k))
                   \/ exists n, In n graph /\ PipelineValidator.taskId n = p
                                /\ In k (PipelineValidator.allowedNext n))
    /\ (List.NoDup (default [] (PipelineGraph.rev_get reverse k)) ->
        List.NoDup (default [] (PipelineGraph.rev_get reverse' k))).
Proof.
  induction graph as [|node graph IH]; intros reverse; cbv zeta.
  - simpl. split; [|auto]. intros p. split; [auto|]. intros [H|(n & [] & _)]. exact H.
  - cbn [List.fold_left].
    destruct (rev_edges_of_node (PipelineValidator.taskId node)
                (PipelineValidator.allowedNext node) k reverse) as [H1 H2].
    cbv zeta in H1, H2.
    match goal with
    | |- context [List.fold_left _ graph ?r] => destruct (IH r) as [IH1 IH2]
    end.
    cbv zeta in IH1, IH2. split.
    + intros p. rewrite IH1, H1. split.
      * intros [[H|[Hk ->]]|(n & Hn & Hp & Hk)]; [auto| |].
        -- right. exists node. simpl. auto.
        -- right. exists n. simpl. auto.
      * intros [H|(n & [<-|Hn] & Hp & Hk)]; [auto| |].
        -- left. right. auto.
        -- right. exists n. auto.
    + auto.
Qed.

Lemma rev_initial (graph : list PipelineValidator.TaskNode) (k : string) :
  forall reverse,
    default [] (PipelineGraph.rev_get
                  (List.fold_left
                     (fun reverse node =>
                        PipelineGraph.rev_ensure reverse (PipelineValidator.taskId node))
                     graph reverse) k)
    = default [] (PipelineGraph.rev_get reverse k).
Proof.
  induction graph as [|node graph IH]; intros reverse; simpl; [reflexivity|].
  rewrite IH. apply rev_get_ensure.
Qed.

Lemma predecessors_spec (graph : list PipelineValidator.TaskNode) (taskId : string) :
  (forall p, In p (PipelineGraph.predecessors graph taskId)
             <-> exists n, In n graph /\ PipelineValidator.taskId n = p
                           /\ In taskId (PipelineValidator.allowedNext n))
  /\ List.NoDup (PipelineGraph.predecessors graph taskId).
Proof.
  unfold PipelineGraph.predecessors, PipelineGraph.buildReverseGraph.
  match goal with
  | |- context [List.fold_left _ graph ?r] =>
      destruct (rev_edges_of_graph graph taskId r) as [H1 H2]
  end.
  cbv zeta in H1, H2. rewrite rev_initial in H1, H2. simpl in H1, H2. split.
  - intros p. rewrite H1. split; [intros [[]|H]; exact H|auto].
  - apply H2. constructor.
Qed.

(** X25.  The reverse graph holds exactly the reversed edges: the
    predecessors the graph reports for a task are the ids of the nodes
    that list the task in their [allowedNext], each once, whether or not
    the task is itself a node of the graph. *)
Theorem X25_predecessors_are_the_reversed_edges
    (graph : list PipelineValidator.TaskNode) (taskId : string) :
  (forall p, In p (PipelineGraph.predecessors graph taskId)
             <-> exists n, In n graph /\ PipelineValidator.taskId n = p
                           /\ In taskId (PipelineValidator.allowedNext n))
  /\ List.NoDup (PipelineGraph.predecessors graph taskId).
Proof. exact (predecessors_spec graph taskId). Qed.

Lemma isReadyToRun_spec (graph : list PipelineValidator.TaskNode) (taskId : string)
    (completedTasks : gset string) :
  PipelineGraph.isReadyToRun graph taskId completedTasks = true
  <-> forall n, In n graph -> In taskId (PipelineValidator.allowedNext n) ->
                PipelineValidator.taskId n ∈ completedTasks.
Proof.
  destruct (predecessors_spec graph taskId) as [Hpred _].
  unfold PipelineGraph.isReadyToRun.
  assert (Hall : List.forallb (fun predId => bool_decide (predId ∈ completedTasks))
                   (PipelineGraph.predecessors graph taskId) = true
                 <-> forall n, In n graph ->
                       In taskId (PipelineValidator.allowedNext n) ->
                       PipelineValidator.taskId n ∈ completedTasks).
  { rewrite List.forallb_forall. split.
    - intros H n Hn Hk. eapply bool_decide_eq_true_1. apply H. apply Hpred. eauto.
    - intros H p Hp. apply Hpred in Hp as (n & Hn & <- & Hk).
      apply bool_decide_eq_true_2. auto. }
  destruct (PipelineGraph.predecessors graph taskId) eqn:E; [|exact Hall].
  rewrite <- Hall. simpl. tauto.
Qed.

(** X26.  A task is ready to run exactly when every node that lists it
    in its [allowedNext] is completed, so readiness is kept when more
    tasks complete.  With nothing completed, the runnable tasks are the
    entry tasks the validator computes for the same graph; a runnable
    task is never a completed one. *)
Theorem X26_runnable_tasks_start_at_the_entry_tasks
    (graph : list PipelineValidator.TaskNode) :
  (forall taskId completedTasks,
     PipelineGraph.isReadyToRun graph taskId completedTasks = true
     <-> forall n, In n graph -> In taskId (PipelineValidator.allowedNext n) ->
                   PipelineValidator.taskId n ∈ completedTasks)
  /\ (forall taskId (done more : gset string),
        done ⊆ more ->
        PipelineGraph.isReadyToRun graph taskId done = true ->
        PipelineGraph.isReadyToRun graph taskId more = true)
  /\ PipelineGraph.getNextRunnableTasks graph ∅ = PipelineValidator.entryNodes graph
  /\ (forall taskId completedTasks,
        In taskId (PipelineGraph.getNextRunnableTasks graph completedTasks) ->
        (taskId ∉ completedTasks)
        /\ exists n, In n graph /\ PipelineValidator.taskId n = taskId).
Proof.
  split; [|split; [|split]].
  - intros taskId completedTasks. apply isReadyToRun_spec.
  - intros taskId done more Hsub. rewrite !isReadyToRun_spec.
    intros H n Hn Hk. apply Hsub. auto.
  - unfold PipelineGraph.getNextRunnableTasks, PipelineValidator.entryNodes.
    apply List.filter_ext. intros x.
    rewrite bool_decide_eq_false_2 by set_solver. simpl.
    destruct (PipelineValidator.includes _ x) eqn:E.
    + simpl. apply not_true_iff_false. rewrite isReadyToRun_spec. intros H.
      apply validator_includes_In, List.in_concat in E as (l & Hl & Hx).
      apply List.in_map_iff in Hl as (n & <- & Hn).
      specialize (H n Hn Hx). set_solver.
    + simpl. apply isReadyToRun_spec. intros n Hn Hx. exfalso.
      apply not_true_iff_false in E. apply E, validator_includes_In, List.in_concat.
      exists (PipelineValidator.allowedNext n). split; [|exact Hx].
      apply List.in_map. exact Hn.
  - intros taskId completedTasks Hin.
    unfold PipelineGraph.getNextRunnableTasks in Hin.
    apply List.filter_In in Hin as [Hin Hcond].
    apply andb_true_iff in Hcond as [Hnot _].
    apply negb_true_iff, bool_decide_eq_false_1 in Hnot. split; [exact Hnot|].
    apply List.in_map_iff in Hin as (n & Hn & Hin). eauto.
Qed.

Lemma rev_has_In (reverse : PipelineGraph.ReverseGraph) (k : string) :
  PipelineGraph.rev_has reverse k = true <-> In k (List.map fst reverse).
Proof.
  unfold PipelineGraph.rev_has. rewrite List.existsb_exists, List.in_map_iff. split.
  - intros (kv & Hin & Heq). apply String.eqb_eq in Heq. eauto.
  - intros (kv & Heq & Hin). exists kv. split; [exact Hin|]. apply String.eqb_eq, Heq.
Qed.

Lemma rev_ensure_keys (reverse : PipelineGraph.ReverseGraph) (key : string) :
  List.NoDup (List.map fst reverse) ->
  List.NoDup (List.map fst (PipelineGraph.rev_ensure reverse key)).
Proof.
  intros Hnd. unfold PipelineGraph.rev_ensure.
  destruct (PipelineGraph.rev_has reverse key) eqn:E; [exact Hnd|].
  rewrite List.map_app. simpl. apply NoDup_ListNoDup, NoDup_app.
  split; [apply NoDup_ListNoDup, Hnd|]. split; [|apply NoDup_singleton].
  intros x Hx Hx'. apply list_elem_of_In in Hx, Hx'. destruct Hx' as [<-|[]].
  apply rev_has_In in Hx. congruence.
Qed.

Lemma rev_add_keys (reverse : PipelineGraph.ReverseGraph) (key value : string) :
  List.map fst (PipelineGraph.rev_add reverse key value) = List.map fst reverse.
Proof.
  unfold PipelineGraph.rev_add. rewrite List.map_map. apply List.map_ext.
  intros [k v]. simpl. destruct (String.eqb k key); reflexivity.
Qed.

Lemma buildReverseGraph_keys (graph : list PipelineValidator.TaskNode) :
  List.NoDup (List.map fst (PipelineGraph.buildReverseGraph graph)).
Proof.
  unfold PipelineGraph.buildReverseGraph.
  assert (H1 : forall g reverse,
            List.NoDup (List.map fst reverse) ->
            List.NoDup (List.map fst
              (List.fold_left
                 (fun reverse node =>
                    PipelineGraph.rev_ensure reverse (PipelineValidator.taskId node))
                 g reverse))).
  { induction g as [|n g IH]; intros reverse Hnd; simpl; [exact Hnd|].
    apply IH, rev_ensure_keys, Hnd. }
  assert (H2 : forall taskId nexts reverse,
            List.NoDup (List.map fst reverse) ->
            List.NoDup (List.map fst
              (List.fold_left
                 (fun reverse nextId =>
                    PipelineGraph.rev_add (PipelineGraph.rev_ensure reverse nextId)
                      nextId taskId)
                 nexts reverse))).
  { intros taskId nexts. induction nexts as [|x nexts IH]; intros reverse Hnd; simpl;
      [exact Hnd|].
    apply IH. rewrite rev_add_keys. apply rev_ensure_keys, Hnd. }
  assert (H3 : forall g reverse,
            List.NoDup (List.map fst reverse) ->
            List.NoDup (List.map fst
              (List.fold_left
                 (fun reverse node =>
                    List.fold_left
                      (fun reverse nextId =>
                         PipelineGraph.rev_add (PipelineGraph.rev_ensure reverse nextId)
                           nextId (PipelineValidator.taskId node))
                      (PipelineValidator.allowedNext node) reverse)
                 g reverse))).
  { induction g as [|n g IH]; intros reverse Hnd; simpl; [exact Hnd|].
    apply IH, H2, Hnd. }
  apply H3, H1. constructor.
Qed.

Lemma rev_get_In (reverse : PipelineGraph.ReverseGraph) (k : string) (v : list string) :
  List.NoDup (List.map fst reverse) ->
  (In (k, v) reverse <-> PipelineGraph.rev_get reverse k = Some v).
Proof.
  unfold PipelineGraph.rev_get.
  induction reverse as [|[k0 v0] reverse IH]; simpl; intros Hnd.
  - split; [intros []|discriminate].
  - apply List.NoDup_cons_iff in Hnd as [Hk0 Hnd]. specialize (IH Hnd).
    destruct (String.eqb k0 k) eqn:E; simpl.
    + apply String.eqb_eq in E. subst k0. split.
      * intros [[= ->]|Hin]; [reflexivity|].
        destruct Hk0. apply List.in_map_iff. exists (k, v). auto.
      * intros [= ->]. auto.
    + apply String.eqb_neq in E. rewrite <- IH. split.
      * intros [[= -> _]|Hin]; [contradiction|exact Hin].
      * auto.
Qed.

(** X27.  [findJoinTasks] returns exactly the tasks that two different
    nodes of the graph list in their [allowedNext], each of them
    once. *)
Theorem X27_join_tasks_have_two_distinct_predecessors
    (graph : list PipelineValidator.TaskNode) :
  (forall taskId,
     In taskId (PipelineGraph.findJoinTasks graph)
     <-> exists n1 n2,
           In n1 graph /\ In n2 graph
           /\ PipelineValidator.taskId n1 <> PipelineValidator.taskId n2
           /\ In taskId (PipelineValidator.allowedNext n1)
           /\ In taskId (PipelineValidator.allowedNext n2))
  /\ List.NoDup (PipelineGraph.findJoinTasks graph).
Proof.
  pose proof (buildReverseGraph_keys graph) as Hkeys.
  assert (Hjoin : forall taskId,
            In taskId (PipelineGraph.findJoinTasks graph)
            <-> (2 <= List.length (PipelineGraph.predecessors graph taskId))%nat).
  { intros taskId. unfold PipelineGraph.findJoinTasks, PipelineGraph.predecessors.
    rewrite List.in_map_iff. split.
    - intros ([k v] & <- & Hin). apply List.filter_In in Hin as [Hin Hlen].
      apply rev_get_In in Hin; [|exact Hkeys]. simpl in *. rewrite Hin. simpl.
      apply Nat.ltb_lt in Hlen. lia.
    - intros Hlen.
      destruct (PipelineGraph.rev_get (PipelineGraph.buildReverseGraph graph) taskId)
        as [v|] eqn:Hget; [|simpl in Hlen; lia].
      exists (taskId, v). split; [reflexivity|]. apply List.filter_In. split.
      + apply rev_get_In; assumption.
      + simpl in *. apply Nat.ltb_lt. lia. }
  split.
  - intros taskId. rewrite Hjoin.
    destruct (predecessors_spec graph taskId) as [Hpred Hnd]. split.
    + intros Hlen.
      destruct (PipelineGraph.predecessors graph taskId) as [|p1 [|p2 rest]];
        simpl in Hlen; try lia.
      destruct (proj1 (Hpred p1)) as (n1 & Hn1 & Hp1 & Hk1); [left; reflexivity|].
      destruct (proj1 (Hpred p2)) as (n2 & Hn2 & Hp2 & Hk2);
        [right; left; reflexivity|].
      exists n1, n2. repeat split; auto.
      intros Heq. apply List.NoDup_cons_iff in Hnd as [Hnot _].
      apply Hnot. left. congruence.
    + intros (n1 & n2 & Hn1 & Hn2 & Hne & Hk1 & Hk2).
      assert (H1 : In (PipelineValidator.taskId n1)
                     (PipelineGraph.predecessors graph taskId))
        by (apply Hpred; eauto).
      assert (H2 : In (PipelineValidator.taskId n2)
                     (PipelineGraph.predecessors graph taskId))
        by (apply Hpred; eauto).
      destruct (PipelineGraph.predecessors graph taskId) as [|p1 [|p2 rest]].
      * destruct H1.
      * destruct H1 as [H1|[]], H2 as [H2|[]]. congruence.
      * simpl. lia.
  - unfold PipelineGraph.findJoinTasks.
    apply NoDup_ListNoDup. rewrite map_is_fmap.
    apply NoDup_fmap_fst.
    + intros k v1 v2 H1 H2. apply list_elem_of_In, List.filter_In in H1 as [H1 _].
      apply list_elem_of_In, List.filter_In in H2 as [H2 _].
      apply rev_get_In in H1, H2; try exact Hkeys. congruence.
    + apply NoDup_ListNoDup, List.NoDup_filter.
      apply (List.NoDup_map_inv fst). exact Hkeys.
Qed.

Lemma add_all_In (l : list string) :
  forall acc,
    let acc' :=
      List.fold_left
        (fun acc nextId =>
           if PipelineGraph.includes acc nextId then acc else acc ++ [nextId]) l acc in
    (forall b, In b acc' <-> In b acc \/ In b l)
    /\ (List.NoDup acc -> List.NoDup acc').
Proof.
  induction l as [|x l IH]; intros acc; cbv zeta.
  - simpl. split; [|auto]. intros b. tauto.
  - cbn [List.fold_left].
    destruct (PipelineGraph.includes acc x) eqn:E.
    + destruct (IH acc) as [IH1 IH2]. cbv zeta in IH1, IH2. split; [|exact IH2].
      intros b. rewrite IH1. simpl. apply graph_includes_In in E.
      split; [tauto|]. intros [H|[<-|H]]; auto.
    + destruct (IH (acc ++ [x])) as [IH1 IH2]. cbv zeta in IH1, IH2. split.
      * intros b. rewrite IH1, List.in_app_iff. simpl. tauto.
      * intros Hnd. apply IH2. apply NoDup_ListNoDup, NoDup_app.
        split; [apply NoDup_ListNoDup, Hnd|]. split; [|apply NoDup_singleton].
        intros y Hy Hy'. apply list_elem_of_In in Hy, Hy'. destruct Hy' as [<-|[]].
        apply graph_includes_In in Hy. congruence.
Qed.

Lemma get_In (g : list PipelineValidator.TaskNode) (x : string)
    (n : PipelineValidator.TaskNode) :
  PipelineValidator.get g x = Some n -> In n g /\ PipelineValidator.taskId n = x.
Proof.
  unfold PipelineValidator.get. intros H. apply List.find_some in H as [Hin Heq].
  split; [exact Hin|]. apply String.eqb_eq, Heq.
Qed.

(** The edges a visit can still push: those of the nodes whose id has
    not been visited. *)
Lemma unvisited_edges_drop (g : list PipelineValidator.TaskNode)
    (visited : list string) (c : string) :
  (List.length
     (List.concat
        (List.map PipelineValidator.allowedNext
           (List.filter
              (fun n => negb (PipelineGraph.includes (visited ++ [c])
                                (PipelineValidator.taskId n))) g)))
   <= List.length
        (List.concat
           (List.map PipelineValidator.allowedNext
              (List.filter
                 (fun n => negb (PipelineGraph.includes visited
                                   (PipelineValidator.taskId n))) g))))%nat
  /\ forall task,
       In task g -> PipelineValidator.taskId task = c ->
       PipelineGraph.includes visited c = false ->
       (List.length (PipelineValidator.allowedNext task)
        + List.length
            (List.concat
               (List.map PipelineValidator.allowedNext
                  (List.filter
                     (fun n => negb (PipelineGraph.includes (visited ++ [c])
                                       (PipelineValidator.taskId n))) g)))
        <= List.length
             (List.concat
                (List.map PipelineValidator.allowedNext
                   (List.filter
                      (fun n => negb (PipelineGraph.includes visited
                                        (PipelineValidator.taskId n))) g))))%nat.
Proof.
  assert (Hinc : forall x, PipelineGraph.includes (visited ++ [c]) x
                           = PipelineGraph.includes visited x || String.eqb x c).
  { intros x. unfold PipelineGraph.includes. rewrite List.existsb_app. simpl.
    rewrite orb_false_r. reflexivity. }
  induction g as [|n g [IH1 IH2]]; simpl.
  - split; [lia|]. intros task [].
  - rewrite Hinc.
    destruct (PipelineGraph.includes visited (PipelineValidator.taskId n)) eqn:Ev;
      simpl.
    + split; [exact IH1|]. intros task [<-|Hin] Hid Hc; [congruence|]. auto.
    + destruct (String.eqb (PipelineValidator.taskId n) c) eqn:Ec; simpl;
        rewrite ?List.length_app.
      * split; [lia|]. intros task [<-|Hin] Hid Hc; [lia|].
        specialize (IH2 task Hin Hid Hc). lia.
      * split; [lia|]. intros task [<-|Hin] Hid Hc.
        -- apply String.eqb_neq in Ec. contradiction.
        -- specialize (IH2 task Hin Hid Hc). lia.
Qed.

Lemma downstream_loop_spec (g : list PipelineValidator.TaskNode) (start : string) :
  let E := fun a b => exists n, PipelineValidator.get g a = Some n
                                /\ In b (PipelineValidator.allowedNext n) in
  forall fuel queue downstream visited,
    (List.length queue
     + List.length
         (List.concat
            (List.map PipelineValidator.allowedNext
               (List.filter
                  (fun n => negb (PipelineGraph.includes visited
                                    (PipelineValidator.taskId n))) g)))
     <= fuel)%nat ->
    (forall v b, In v visited -> E v b -> In b downstream) ->
    (forall b, In b downstream -> In b visited \/ In b queue) ->
    (In start visited \/ In start queue) ->
    (forall b, In b downstream -> tc E start b) ->
    (forall v, In v visited \/ In v queue -> rtc E start v) ->
    List.NoDup downstream ->
    (forall b, In b (PipelineGraph.downstream_loop fuel g queue downstream visited)
               <-> tc E start b)
    /\ List.NoDup (PipelineGraph.downstream_loop fuel g queue downstream visited).
Proof.
  intros E.
  assert (Hdone : forall downstream visited,
            (forall v b, In v visited -> E v b -> In b downstream) ->
            (forall b, In b downstream -> In b visited \/ In b []) ->
            (In start visited \/ In start []) ->
            (forall b, In b downstream -> tc E start b) ->
            forall b, In b downstream <-> tc E start b).
  { intros downstream visited I1 I2 I3 I4 b. split; [apply I4|].
    assert (Hstart : In start visited) by (destruct I3 as [H|[]]; exact H).
    assert (Hclosed : forall a b, tc E a b -> In a visited -> In b downstream).
    { clear b. intros a b Htc. induction Htc as [a b Hab|a y b Hay Hyb IH];
        intros Ha; [eauto|].
      apply IH. destruct (I2 y (I1 a y Ha Hay)) as [H|[]]. exact H. }
    intros Htc. eapply Hclosed; eauto. }
  induction fuel as [|fuel IH]; intros queue downstream visited Hfuel I1 I2 I3 I4 I5 I6.
  - destruct queue as [|c rest]; [|simpl in Hfuel; lia].
    simpl. split; [|exact I6]. eapply Hdone; eauto.
  - destruct queue as [|c rest].
    { simpl. split; [|exact I6]. eapply Hdone; eauto. }
    cbn [PipelineGraph.downstream_loop].
    destruct (PipelineGraph.includes visited c) eqn:Hvis.
    + apply graph_includes_In in Hvis. apply IH; auto.
      * simpl in Hfuel. lia.
      * intros b Hb. destruct (I2 b Hb) as [H|[<-|H]]; auto.
      * destruct I3 as [H|[<-|H]]; auto.
      * intros v [H|H]; apply I5; simpl; auto.
    + destruct (unvisited_edges_drop g visited c) as [Hmono Hdrop].
      assert (Hc : rtc E start c) by (apply I5; simpl; auto).
      destruct (PipelineValidator.get g c) as [task|] eqn:Hget.
      * destruct (get_In _ _ _ Hget) as [Hin Hid].
        specialize (Hdrop task Hin Hid Hvis).
        destruct (add_all_In (PipelineValidator.allowedNext task) downstream)
          as [Hadd Hnd].
        cbv zeta in Hadd, Hnd.
        apply IH.
        -- rewrite List.length_app. simpl in Hfuel. lia.
        -- intros v b Hv Hvb. apply Hadd. apply List.in_app_or in Hv as [Hv|[<-|[]]].
           ++ left. eauto.
           ++ right. destruct Hvb as (n & Hn & Hb). congruence.
        -- intros b Hb. apply Hadd in Hb as [Hb|Hb].
           ++ destruct (I2 b Hb) as [H|[<-|H]].
              ** left. apply List.in_or_app. auto.
              ** left. apply List.in_or_app. simpl. auto.
              ** right. apply List.in_or_app. auto.
           ++ right. apply List.in_or_app. auto.
        -- destruct I3 as [H|[<-|H]].
           ++ left. apply List.in_or_app. auto.
           ++ left. apply List.in_or_app. simpl. auto.
           ++ right. apply List.in_or_app. auto.
        -- intros b Hb. apply Hadd in Hb as [Hb|Hb]; [auto|].
           eapply tc_rtc_l; [exact Hc|]. apply tc_once. exists task. auto.
        -- intros v [Hv|Hv].
           ++ apply List.in_app_or in Hv as [Hv|[<-|[]]]; [|exact Hc].
              apply I5. auto.
           ++ apply List.in_app_or in Hv as [Hv|Hv].
              ** apply I5. simpl. auto.
              ** eapply rtc_r; [exact Hc|]. exists task. auto.
        -- apply Hnd, I6.
      * apply IH.
        -- simpl in Hfuel. lia.
        -- intros v b Hv Hvb. apply List.in_app_or in Hv as [Hv|[<-|[]]]; [eauto|].
           destruct Hvb as (n & Hn & _). congruence.
        -- intros b Hb. destruct (I2 b Hb) as [H|[<-|H]].
           ++ left. apply List.in_or_app. auto.
           ++ left. apply List.in_or_app. simpl. auto.
           ++ auto.
        -- destruct I3 as [H|[<-|H]].
           ++ left. apply List.in_or_app. auto.
           ++ left. apply List.in_or_app. simpl. auto.
           ++ auto.
        -- exact I4.
        -- intros v [Hv|Hv].
           ++ apply List.in_app_or in Hv as [Hv|[<-|[]]]; [|exact Hc].
              apply I5. auto.
           ++ apply I5. simpl. auto.
        -- exact I6.
Qed.

(** X28.  [getDownstreamTasks] returns exactly the tasks that can be
    reached from the given task by following [allowedNext] one or more
    times, each of them once; the task itself is among them only when it
    lies on a cycle.  The breadth-first loop is bounded by the number of
    edges of the graph, so the traversal always runs to the end. *)
Theorem X28_downstream_tasks_are_the_transitive_successors
    (graph : list PipelineValidator.TaskNode) (taskId : string) :
  (forall b,
     In b (PipelineGraph.getDownstreamTasks graph taskId)
     <-> tc (fun a b => exists n, PipelineValidator.get graph a = Some n
                                  /\ In b (PipelineValidator.allowedNext n))
           taskId b)
  /\ List.NoDup (PipelineGraph.getDownstreamTasks graph taskId).
Proof.
  unfold PipelineGraph.getDownstreamTasks.
  apply (downstream_loop_spec graph taskId).
  - unfold PipelineGraph.edge_count. cbn [List.length].
    assert (Hall : List.filter
                     (fun n : PipelineValidator.TaskNode =>
                        negb (PipelineGraph.includes [] (PipelineValidator.taskId n)))
                     graph = graph).
    { induction graph as [|n g IH]; simpl; [reflexivity|]. f_equal. exact IH. }
    rewrite Hall. lia.
  - intros v b [].
  - intros b [].
  - right. left. reflexivity.
  - intros b [].
  - intros v [[]|[<-|[]]]. apply rtc_refl.
  - constructor.
Qed.

(** ** Cycle detection *)

Section CycleDetection.

Variable g : list PipelineValidator.TaskNode.

(** An edge of the graph as [detectCycles] follows it: from a node to a
    task of its [allowedNext] that is itself a node. *)
Let E : relation string :=
  fun a b => exists n, PipelineValidator.get g a = Some n
                       /\ In b (PipelineValidator.allowedNext n)
                       /\ PipelineValidator.has g b = true.

(** Finished nodes: visited and no longer on the recursion stack. *)
Let black (st : PipelineValidator.DfsState) (x : string) : Prop :=
  In x (PipelineValidator.visited st)
  /\ ~ In x (PipelineValidator.recursionStack st).

Let closed (st : PipelineValidator.DfsState) : Prop :=
  forall x y, black st x -> E x y -> black st y.

Let acyclic (st : PipelineValidator.DfsState) : Prop :=
  forall x, black st x -> ~ tc E x x.

Lemma tc_first_edge (x z : string) :
  tc E x z -> exists y, E x y /\ rtc E y z.
Proof.
  intros H. inversion H as [? ? Hxy|? y ? Hxy Hyz]; subst.
  - exists z. split; [exact Hxy|apply rtc_refl].
  - exists y. split; [exact Hxy|apply tc_rtc, Hyz].
Qed.

Lemma closed_rtc (st : PipelineValidator.DfsState) (y z : string) :
  closed st -> rtc E y z -> black st y -> black st z.
Proof.
  intros Hclosed Hyz. induction Hyz as [|y w z Hyw _ IH]; [auto|].
  intros Hy. apply IH. eapply Hclosed; eauto.
Qed.

Lemma has_get_Some (x : string) :
  PipelineValidator.has g x = true ->
  exists n, PipelineValidator.get g x = Some n.
Proof.
  unfold PipelineValidator.has, PipelineValidator.get.
  induction g as [|n0 g0 IH]; simpl; [discriminate|].
  destruct (String.eqb (PipelineValidator.taskId n0) x); eauto.
Qed.

Lemma stack_bound (stack : list string) :
  List.NoDup stack ->
  (forall x, In x stack -> PipelineValidator.has g x = true) ->
  (List.length stack <= List.length g)%nat.
Proof.
  intros Hnd Hhas.
  rewrite <- (List.length_map PipelineValidator.taskId g).
  apply List.NoDup_incl_length; [exact Hnd|].
  intros x Hx. apply Hhas, has_In in Hx as (n & Hn & <-).
  apply List.in_map. exact Hn.
Qed.

Lemma pop_pushed (stack : list string) (x : string) :
  ~ In x stack ->
  List.filter (fun y => negb (String.eqb y x)) (stack ++ [x]) = stack.
Proof.
  intros Hx. rewrite List.filter_app. simpl. rewrite String.eqb_refl. simpl.
  rewrite List.app_nil_r. induction stack as [|y stack IH]; simpl; [reflexivity|].
  destruct (String.eqb y x) eqn:E0.
  - apply String.eqb_eq in E0. subst y. destruct Hx. left. reflexivity.
  - simpl. f_equal. apply IH. intros H. apply Hx. right. exact H.
Qed.

(** What a call of the inner [dfs] establishes. *)
Let dfs_post (node : string) (st st' : PipelineValidator.DfsState) : Prop :=
  PipelineValidator.recursionStack st' = PipelineValidator.recursionStack st
  /\ List.incl (PipelineValidator.visited st) (PipelineValidator.visited st')
  /\ exists more,
       PipelineValidator.cycles st' = PipelineValidator.cycles st ++ more
       /\ ((forall x, In x (PipelineValidator.recursionStack st) -> tc E x node) ->
           more <> [] -> exists x, tc E x x)
       /\ (more = [] ->
           black st' node
           /\ (closed st -> acyclic st -> closed st' /\ acyclic st')).

Lemma dfs_spec (fuel : nat) :
  forall node path st,
    PipelineValidator.has g node = true ->
    List.NoDup (PipelineValidator.recursionStack st) ->
    (forall x, In x (PipelineValidator.recursionStack st) ->
       PipelineValidator.has g x = true) ->
    (List.length g + 2
     <= List.length (PipelineValidator.recursionStack st) + fuel)%nat ->
    dfs_post node st (PipelineValidator.dfs fuel g node path st).
Proof.
  induction fuel as [|fuel IH]; intros node path st Hnode Hnd Hhas Hfuel.
  { pose proof (stack_bound _ Hnd Hhas). lia. }
  cbn [PipelineValidator.dfs].
  destruct (PipelineValidator.includes (PipelineValidator.recursionStack st) node)
    eqn:Hstack.
  { apply validator_includes_In in Hstack.
    split; [reflexivity|]. split; [apply List.incl_refl|].
    eexists. split; [reflexivity|]. split.
    - intros Hanc _. exists node. apply Hanc, Hstack.
    - intros Hnil. discriminate Hnil. }
  assert (Hoff : ~ In node (PipelineValidator.recursionStack st)).
  { intros H. apply validator_includes_In in H. congruence. }
  destruct (PipelineValidator.includes (PipelineValidator.visited st) node) eqn:Hvis.
  { apply validator_includes_In in Hvis.
    split; [reflexivity|]. split; [apply List.incl_refl|].
    exists []. rewrite List.app_nil_r. split; [reflexivity|]. split.
    - intros _ H. destruct H. reflexivity.
    - intros _. split; [split; assumption|auto]. }
  assert (Hnew : ~ In node (PipelineValidator.visited st)).
  { intros H. apply validator_includes_In in H. congruence. }
  destruct (has_get_Some node Hnode) as [n Hget]. rewrite Hget.
  set (st1 := {| PipelineValidator.visited := PipelineValidator.visited st ++ [node];
                 PipelineValidator.recursionStack :=
                   PipelineValidator.recursionStack st ++ [node];
                 PipelineValidator.cycles := PipelineValidator.cycles st |}).
  assert (Hblack1 : forall x, black st1 x <-> black st x).
  { intros x. unfold black, st1. simpl. rewrite !List.in_app_iff. simpl. split.
    - intros [[Hx|[<-|[]]] Hoffx]; [tauto|]. destruct Hoffx. auto.
    - intros [Hx Hoffx]. split; [auto|]. intros [H|[<-|[]]]; auto. }
  (* the loop over the successors *)
  assert (Hloop : forall l acc,
    (forall next, In next l -> In next (PipelineValidator.allowedNext n)) ->
    PipelineValidator.recursionStack acc = PipelineValidator.recursionStack st1 ->
    let acc' :=
      List.fold_left
        (fun acc nextId =>
           if PipelineValidator.has g nextId
           then PipelineValidator.dfs fuel g nextId (path ++ [node]) acc
           else acc) l acc in
    PipelineValidator.recursionStack acc' = PipelineValidator.recursionStack st1
    /\ List.incl (PipelineValidator.visited acc) (PipelineValidator.visited acc')
    /\ exists more,
         PipelineValidator.cycles acc' = PipelineValidator.cycles acc ++ more
         /\ ((forall x, In x (PipelineValidator.recursionStack st) -> tc E x node) ->
             more <> [] -> exists x, tc E x x)
         /\ (more = [] ->
             (forall next, In next l -> PipelineValidator.has g next = true ->
                black acc' next)
             /\ (closed acc -> acyclic acc -> closed acc' /\ acyclic acc'))).
  { induction l as [|next l IHl]; intros acc Hl Hacc; cbv zeta.
    - simpl. split; [exact Hacc|]. split; [apply List.incl_refl|].
      exists []. rewrite List.app_nil_r. split; [reflexivity|]. split.
      + intros _ H. destruct H. reflexivity.
      + intros _. split; [intros next []|auto].
    - cbn [List.fold_left].
      destruct (PipelineValidator.has g next) eqn:Hnext.
      + destruct (IH next (path ++ [node]) acc Hnext) as (Hs & Hv & m1 & Hc & Hsound & Hcompl).
        * rewrite Hacc. unfold st1. simpl. apply NoDup_ListNoDup, NoDup_app.
          split; [apply NoDup_ListNoDup, Hnd|]. split; [|apply NoDup_singleton].
          intros x Hx Hx'. apply list_elem_of_In in Hx, Hx'.
          destruct Hx' as [<-|[]]. contradiction.
        * rewrite Hacc. unfold st1. simpl. intros x Hx.
          apply List.in_app_or in Hx as [Hx|[<-|[]]]; auto.
        * rewrite Hacc. unfold st1. simpl. rewrite List.length_app. simpl. lia.
        * destruct (IHl (PipelineValidator.dfs fuel g next (path ++ [node]) acc))
            as (Hs2 & Hv2 & m2 & Hc2 & Hsound2 & Hcompl2).
          { intros x Hx. apply Hl. right. exact Hx. }
          { rewrite Hs. exact Hacc. }
          cbv zeta in Hs2, Hv2, Hc2, Hsound2, Hcompl2.
          split; [exact Hs2|]. split.
          { intros x Hx. apply Hv2, Hv, Hx. }
          exists (m1 ++ m2). split; [rewrite Hc2, Hc, List.app_assoc; reflexivity|].
          split.
          -- intros Hanc Hmore. destruct m1 as [|c m1].
             ++ apply Hsound2; [exact Hanc|]. exact Hmore.
             ++ apply Hsound; [|discriminate].
                intros x Hx. rewrite Hacc in Hx. unfold st1 in Hx. simpl in Hx.
                assert (Hedge : E node next).
                { exists n. split; [exact Hget|]. split; [|exact Hnext].
                  apply Hl. left. reflexivity. }
                apply List.in_app_or in Hx as [Hx|[<-|[]]].
                ** eapply tc_rtc_r; [apply Hanc, Hx|]. apply rtc_once, Hedge.
                ** apply tc_once, Hedge.
          -- intros Hnil. apply List.app_eq_nil in Hnil as [-> ->].
             destruct (Hcompl eq_refl) as [Hb1 Hinv1].
             destruct (Hcompl2 eq_refl) as [Hb2 Hinv2].
             split.
             ++ intros x [<-|Hx] Hhx; [|auto].
                destruct Hb1 as [Hb1v Hb1s]. split; [apply Hv2, Hb1v|].
                rewrite Hs2, <- Hacc, <- Hs. exact Hb1s.
             ++ intros Hcl Hac. destruct (Hinv1 Hcl Hac) as [Hcl1 Hac1]. auto.
      + destruct (IHl acc) as (Hs2 & Hv2 & m2 & Hc2 & Hsound2 & Hcompl2).
        { intros x Hx. apply Hl. right. exact Hx. }
        { exact Hacc. }
        cbv zeta in Hs2, Hv2, Hc2, Hsound2, Hcompl2.
        split; [exact Hs2|]. split; [exact Hv2|].
        exists m2. split; [exact Hc2|]. split; [exact Hsound2|].
        intros Hnil. destruct (Hcompl2 Hnil) as [Hb2 Hinv2]. split; [|exact Hinv2].
        intros x [<-|Hx] Hhx; [congruence|auto]. }
  destruct (Hloop (PipelineValidator.allowedNext n) st1) as (Hs & Hv & more & Hc & Hsound & Hcompl).
  { auto. }
  { reflexivity. }
  cbv zeta in Hs, Hv, Hc, Hsound, Hcompl.
  set (st2 := List.fold_left _ (PipelineValidator.allowedNext n) st1) in *.
  unfold dfs_post. cbn [PipelineValidator.visited PipelineValidator.recursionStack
                        PipelineValidator.cycles].
  assert (Hpop : List.filter (fun x => negb (String.eqb x node))
                   (PipelineValidator.recursionStack st2)
                 = PipelineValidator.recursionStack st).
  { rewrite Hs. unfold st1. simpl. apply pop_pushed, Hoff. }
  rewrite Hpop.
  split; [reflexivity|]. split.
  { intros x Hx. apply Hv. unfold st1. simpl. apply List.in_or_app. auto. }
  exists more. split; [exact Hc|]. split; [exact Hsound|].
  intros Hnil. destruct (Hcompl Hnil) as [Hsucc Hinv]. split.
  { split; [|exact Hoff]. simpl. apply Hv. unfold st1. simpl.
    apply List.in_or_app. simpl. auto. }
  intros Hcl Hac.
  assert (Hcl1 : closed st1).
  { intros x y Hx Hxy. apply Hblack1. apply Hblack1 in Hx. eapply Hcl; eauto. }
  assert (Hac1 : acyclic st1).
  { intros x Hx. apply Hac, Hblack1, Hx. }
  destruct (Hinv Hcl1 Hac1) as [Hcl2 Hac2].
  assert (Hblack' : forall x,
            (In x (PipelineValidator.visited st2)
             /\ ~ In x (PipelineValidator.recursionStack st))
            <-> black st2 x \/ x = node).
  { intros x. unfold black. rewrite Hs. unfold st1. simpl.
    rewrite List.in_app_iff. simpl. split.
    - intros [Hx Hoffx]. destruct (decide (x = node)) as [->|Hne]; [auto|].
      left. split; [exact Hx|]. intros [H|[H|[]]]; [auto|congruence].
    - intros [[Hx Hoffx]| ->].
      + split; [exact Hx|]. intros H. apply Hoffx. auto.
      + split; [|exact Hoff]. apply Hv. unfold st1. simpl.
        apply List.in_or_app. simpl. auto. }
  assert (Hnode2 : ~ black st2 node).
  { unfold black. rewrite Hs. unfold st1. simpl. intros [_ H]. apply H.
    apply List.in_or_app. simpl. auto. }
  split.
  - intros x y Hx Hxy. unfold black in *. simpl in *.
    apply Hblack'. apply Hblack' in Hx as [Hx| ->].
    + left. eapply Hcl2; eauto.
    + left. destruct Hxy as (n' & Hget' & Hy & Hhy).
      rewrite Hget in Hget'. injection Hget' as <-. apply Hsucc; assumption.
  - intros x Hx Hcycle. unfold black in Hx. simpl in Hx.
    apply Hblack' in Hx as [Hx| ->]; [exact (Hac2 x Hx Hcycle)|].
    apply tc_first_edge in Hcycle as (y & Hny & Hyn).
    apply Hnode2. eapply closed_rtc; [exact Hcl2|exact Hyn|].
    destruct Hny as (n' & Hget' & Hy & Hhy).
    rewrite Hget in Hget'. injection Hget' as <-. apply Hsucc; assumption.
Qed.

Lemma detectCycles_spec :
  PipelineValidator.detectCycles g = [] <-> ~ exists x, tc E x x.
Proof.
  unfold PipelineValidator.detectCycles.
  assert (Hloop : forall l st,
    (forall n, In n l -> In n g) ->
    PipelineValidator.recursionStack st = [] ->
    let st' :=
      List.fold_left
        (fun st n =>
           if PipelineValidator.includes (PipelineValidator.visited st)
                (PipelineValidator.taskId n)
           then st
           else PipelineValidator.dfs (S (S (List.length g))) g
                  (PipelineValidator.taskId n) [] st) l st in
    PipelineValidator.recursionStack st' = []
    /\ List.incl (PipelineValidator.visited st) (PipelineValidator.visited st')
    /\ exists more,
         PipelineValidator.cycles st' = PipelineValidator.cycles st ++ more
         /\ (more <> [] -> exists x, tc E x x)
         /\ (more = [] ->
             (forall n, In n l -> In (PipelineValidator.taskId n)
                                    (PipelineValidator.visited st'))
             /\ (closed st -> acyclic st -> closed st' /\ acyclic st'))).
  { induction l as [|n l IHl]; intros st Hl Hst; cbv zeta.
    - simpl. split; [exact Hst|]. split; [apply List.incl_refl|].
      exists []. rewrite List.app_nil_r. split; [reflexivity|]. split.
      + intros H. destruct H. reflexivity.
      + intros _. split; [intros n []|auto].
    - cbn [List.fold_left].
      destruct (PipelineValidator.includes (PipelineValidator.visited st)
                  (PipelineValidator.taskId n)) eqn:Hvis.
      + destruct (IHl st) as (Hs2 & Hv2 & m2 & Hc2 & Hsound2 & Hcompl2).
        { intros x Hx. apply Hl. right. exact Hx. }
        { exact Hst. }
        cbv zeta in Hs2, Hv2, Hc2, Hsound2, Hcompl2.
        split; [exact Hs2|]. split; [exact Hv2|].
        exists m2. split; [exact Hc2|]. split; [exact Hsound2|].
        intros Hnil. destruct (Hcompl2 Hnil) as [Hall Hinv]. split; [|exact Hinv].
        intros x [<-|Hx]; [|auto]. apply Hv2, validator_includes_In, Hvis.
      + destruct (dfs_spec (S (S (List.length g))) (PipelineValidator.taskId n) [] st)
          as (Hs & Hv & m1 & Hc & Hsound & Hcompl).
        { apply has_In. exists n. split; [|reflexivity]. apply Hl. left. reflexivity. }
        { rewrite Hst. constructor. }
        { rewrite Hst. intros x []. }
        { rewrite Hst. simpl. lia. }
        destruct (IHl (PipelineValidator.dfs (S (S (List.length g))) g
                         (PipelineValidator.taskId n) [] st))
          as (Hs2 & Hv2 & m2 & Hc2 & Hsound2 & Hcompl2).
        { intros x Hx. apply Hl. right. exact Hx. }
        { rewrite Hs. exact Hst. }
        cbv zeta in Hs2, Hv2, Hc2, Hsound2, Hcompl2.
        split; [exact Hs2|]. split; [intros x Hx; apply Hv2, Hv, Hx|].
        exists (m1 ++ m2). split; [rewrite Hc2, Hc, List.app_assoc; reflexivity|].
        split.
        * intros Hmore. destruct m1 as [|c m1]; [auto|].
          apply Hsound; [|discriminate]. rewrite Hst. intros x [].
        * intros Hnil. apply List.app_eq_nil in Hnil as [-> ->].
          destruct (Hcompl eq_refl) as [[Hb _] Hinv1].
          destruct (Hcompl2 eq_refl) as [Hall Hinv2]. split.
          -- intros x [<-|Hx]; [apply Hv2, Hb|auto].
          -- intros Hcl Hac. destruct (Hinv1 Hcl Hac). auto. }
  destruct (Hloop g {| PipelineValidator.visited := [];
                       PipelineValidator.recursionStack := [];
                       PipelineValidator.cycles := [] |})
    as (Hs & _ & more & Hc & Hsound & Hcompl); [auto|reflexivity|].
  cbv zeta in Hs, Hc, Hsound, Hcompl. rewrite Hc. simpl. split.
  - intros Hnil. destruct (Hcompl Hnil) as [Hall Hinv].
    destruct Hinv as [_ Hac].
    { intros x y [[] _]. }
    { intros x [[] _]. }
    intros (x & Hcycle). apply (Hac x); [|exact Hcycle].
    apply tc_first_edge in Hcycle as (y & (n & Hget & _) & _).
    apply get_In in Hget as [Hn <-].
    split; [apply Hall, Hn|]. rewrite Hs. intros [].
  - intros Hno. destruct more as [|c more]; [reflexivity|].
    destruct Hno. apply Hsound. discriminate.
Qed.

End CycleDetection.

(** X29.  [detectCycles] is exact.  It reports no cycle exactly when the
    graph has none, that is, when no node reaches itself by following,
    one or more times, [allowedNext] entries that are nodes of the
    graph.  The nesting of the search is bounded by the number of
    nodes, so the search always runs to the end. *)
Theorem X29_cycle_detection_is_exact (g : list PipelineValidator.TaskNode) :
  PipelineValidator.detectCycles g = []
  <-> ~ exists x,
        tc (fun a b => exists n, PipelineValidator.get g a = Some n
                                 /\ In b (PipelineValidator.allowedNext n)
                                 /\ PipelineValidator.has g b = true) x x.
Proof. exact (detectCycles_spec g). Qed.

Lemma tc_impl {A} (R S : relation A) (x y : A) :
  (forall a b, R a b -> S a b) -> tc R x y -> tc S x y.
Proof.
  intros H Htc. induction Htc as [x y Hxy|x y z Hxy _ IH].
  - apply tc_once, H, Hxy.
  - eapply tc_l; [apply H, Hxy|exact IH].
Qed.

Lemma filter_none {A} (f : A -> bool) (l : list A) :
  (forall x, In x l -> f x = false) -> List.filter f l = [].
Proof.
  induction l as [|x l IH]; intros H; simpl; [reflexivity|].
  rewrite (H x (or_introl eq_refl)). apply IH. intros y Hy. apply H. right. exact Hy.
Qed.

(** X30.  What [validatePipeline] accepts, in terms of the registry
    alone: a set of task ids is valid exactly when every id is
    registered, no task of the set lists a task outside the set in its
    [allowedNext], no task of the set reaches itself through
    [allowedNext], and some task of the set is no other task's
    successor. *)
Theorem X30_valid_means_registered_closed_and_acyclic
    (taskIds : list string) (s : Store) :
  PipelineValidator.valid (PipelineValidator.validatePipeline taskIds s) = true
  <-> (forall x, In x taskIds -> is_Some (tasks s !! x))
      /\ (forall x t next,
            In x taskIds -> tasks s !! x = Some t -> In next (t_allowed_next t) ->
            In next taskIds)
      /\ (~ exists x,
            tc (fun a b => exists t, In a taskIds /\ tasks s !! a = Some t
                                     /\ In b (t_allowed_next t)) x x)
      /\ PipelineValidator.entryNodes (PipelineValidator.loadTasks taskIds s) <> [].
Proof.
  assert (Hhas : forall x,
            In x taskIds -> is_Some (tasks s !! x) ->
            PipelineValidator.has (PipelineValidator.loadTasks taskIds s) x = true).
  { intros x Hx [t Ht]. apply has_In.
    exists {| PipelineValidator.taskId := x;
              PipelineValidator.allowedNext := t_allowed_next t;
              PipelineValidator.serviceId := t_service_id t |}.
    split; [|reflexivity]. apply loadTasks_In. simpl. eauto. }
  assert (Hget : forall a n,
            PipelineValidator.get (PipelineValidator.loadTasks taskIds s) a = Some n ->
            In a taskIds
            /\ exists t, tasks s !! a = Some t
                         /\ PipelineValidator.allowedNext n = t_allowed_next t).
  { intros a n Hn. apply get_In in Hn as [Hn <-].
    apply loadTasks_In in Hn as (Hin & t & Ht & ->). simpl. eauto. }
  split.
  - intros Hvalid.
    pose proof (valid_entry_tasks_registered _ _ Hvalid) as Hreg.
    destruct (valid_pipeline_closed _ _ Hvalid) as (Hclosed & Hcycles & Hentry & _).
    split; [exact Hreg|]. split; [exact Hclosed|]. split; [|exact Hentry].
    intros (x & Hcycle). apply detectCycles_spec in Hcycles. apply Hcycles.
    exists x. eapply tc_impl; [|exact Hcycle].
    intros a b (t & Ha & Ht & Hb).
    destruct (has_get_Some _ a (Hhas a Ha (ex_intro _ t Ht))) as [n Hn].
    exists n. split; [exact Hn|].
    destruct (Hget a n Hn) as (_ & t' & Ht' & ->).
    rewrite Ht in Ht'. injection Ht' as <-. split; [exact Hb|].
    apply Hhas; [eapply Hclosed; eauto|]. apply Hreg. eapply Hclosed; eauto.
  - intros (Hreg & Hclosed & Hacyclic & Hentry).
    unfold PipelineValidator.validatePipeline.
    assert (Hmissing : List.filter
              (fun x => negb (PipelineValidator.has
                                (PipelineValidator.loadTasks taskIds s) x)) taskIds = []).
    { apply filter_none. intros x Hx. rewrite Hhas; auto. }
    rewrite Hmissing. cbn [PipelineValidator.valid].
    assert (Hcycles : PipelineValidator.detectCycles
                        (PipelineValidator.loadTasks taskIds s) = []).
    { apply detectCycles_spec. intros (x & Hcycle). apply Hacyclic.
      exists x. eapply tc_impl; [|exact Hcycle].
      intros a b (n & Hn & Hb & _).
      destruct (Hget a n Hn) as (Ha & t & Ht & Heq).
      exists t. rewrite <- Heq. auto. }
    rewrite Hcycles.
    match goal with
    | |- context [List.concat ?ls] => assert (Hrefs : List.concat ls = [])
    end.
    { apply List.concat_nil_Forall, List.Forall_forall. intros l Hl.
      apply List.in_map_iff in Hl as (n & <- & Hn).
      apply loadTasks_In in Hn as (Hin & t & Ht & Hn).
      replace (List.filter _ (PipelineValidator.allowedNext n)) with (@nil string);
        [reflexivity|].
      symmetry. apply filter_none. intros next Hnext.
      rewrite Hn in Hnext. simpl in Hnext.
      rewrite Hhas; [reflexivity| |].
      - eapply Hclosed; eauto.
      - apply Hreg. eapply Hclosed; eauto. }
    rewrite Hrefs.
    destruct (PipelineValidator.entryNodes (PipelineValidator.loadTasks taskIds s));
      [contradiction|reflexivity].
Qed.
